(** * Burner: commitment / exam lifecycle engine

    A shallow embedding of the TypeScript services and server actions of the
    Burner feature:

    - [services/stake-resolution.ts]   ([resolveStake])
    - [services/exam-generator.ts]     ([validateAndTransformResponse],
                                        [generateExamWithRetry], [generateExam])
    - [services/exam-grader.ts]        ([gradeAnswer], [gradeExam], ...)
    - [actions/exam-actions.ts]        ([generateExam], [submitAnswer])
    - [actions/grading-actions.ts]     ([gradeExam])

    Conventions of the embedding.

    - JavaScript strings are Rocq [string]s (sequences of 8-bit code units).
    - Timestamps ([Date], ISO strings) are [Z] milliseconds.
    - Integer scores are [Z]; the mean of the scores is an exact rational [Q].
    - [async] functions become computations in the monad [M]: a function of
      the [World] (database tables, clock, counters) that returns either a
      value or a thrown JavaScript value, together with the new world.  A
      thrown value does not roll the world back, as in the source.
    - What the program obtains from outside (the LLM completion endpoint, the
      JSON parser, the id generators, the configured API keys, the signed-in
      user) is collected in the record [Env].
    - The storage collaborator answers every query: a read or write fails
      only where [.single()] does not find exactly one row.
    - The clock is read from the world and moves on when a [delay] is
      awaited.
    - Of the tracing client only the identifiers of traces and spans are
      kept; it has no influence on the results. *)

From Stdlib Require Import List String Ascii ZArith QArith Qround Bool Lia Arith.
From Stdlib Require Import DecimalString.
Import ListNotations.

Local Open Scope string_scope.
Local Open Scope Z_scope.

(* ================================================================== *)
(** * JavaScript string helpers *)
(* ================================================================== *)

Module Js.

(** Code units that [String.prototype.trim] and the regular expression
    class [\s] treat as white space, among the 8-bit code units:
    TAB, LF, VT, FF, CR, SPACE and NBSP. *)
Definition is_white_space (c : ascii) : bool :=
  let n := nat_of_ascii c in
  ((9 <=? n)%nat && (n <=? 13)%nat) || (n =? 32)%nat || (n =? 160)%nat.

Fixpoint trimStart (s : string) : string :=
  match s with
  | EmptyString => EmptyString
  | String c r => if is_white_space c then trimStart r else s
  end.

Fixpoint trimEnd (s : string) : string :=
  match s with
  | EmptyString => EmptyString
  | String c r =>
      match trimEnd r with
      | EmptyString => if is_white_space c then EmptyString else String c EmptyString
      | r' => String c r'
      end
  end.

Definition trim (s : string) : string := trimEnd (trimStart s).

(** [s.startsWith(p)] *)
Fixpoint startsWith (p s : string) : bool :=
  match p, s with
  | EmptyString, _ => true
  | String a p', String b s' => Ascii.eqb a b && startsWith p' s'
  | String _ _, EmptyString => false
  end.

(** [s.includes(p)] *)
Fixpoint includes (s p : string) : bool :=
  startsWith p s ||
  match s with
  | EmptyString => false
  | String _ r => includes r p
  end.

(** A string is falsy exactly when it is empty. *)
Definition truthy (s : string) : bool := negb (s =? "")%string.

(** [!s || s.trim().length === 0] *)
Definition blank (s : string) : bool :=
  negb (truthy s) || (Nat.eqb (String.length (trim s)) 0).

(** [n.toString()] / template interpolation of a non-negative integer. *)
Definition nat_toString (n : nat) : string :=
  NilZero.string_of_uint (Nat.to_uint n).

Definition dquote : string := String (ascii_of_nat 34) EmptyString.

(** [Math.round] on an exact rational: the nearest integer, halves
    rounded towards plus infinity. *)
Definition Math_round (q : Q) : Z := Qfloor (q + (1 # 2)).

(** [cut sep s = Some (before, after)]: the text before and the text
    after the first occurrence of [sep] in [s]. *)
Fixpoint cut (sep s : string) : option (string * string) :=
  if startsWith sep s
  then Some (EmptyString, substring (String.length sep) (String.length s) s)
  else match s with
       | EmptyString => None
       | String c r =>
           match cut sep r with
           | Some (b, a) => Some (String c b, a)
           | None => None
           end
       end.

End Js.

(* ================================================================== *)
(** * Database row types ([types/database.ts]) *)
(* ================================================================== *)

Inductive CommitmentStatus := active | completed | failed | expired.
Inductive StakeStatus := at_risk | saved | burned.
Inductive ExamStatus := pending | in_progress | submitted | graded | grading_failed.
Inductive QuestionType := multiple_choice | short_answer | application.
Inductive QuestionDifficulty := intermediate | advanced.

Definition CommitmentStatus_eqb (a b : CommitmentStatus) : bool :=
  match a, b with
  | active, active | completed, completed | failed, failed | expired, expired => true
  | _, _ => false
  end.

Definition StakeStatus_eqb (a b : StakeStatus) : bool :=
  match a, b with
  | at_risk, at_risk | saved, saved | burned, burned => true
  | _, _ => false
  end.

Definition ExamStatus_eqb (a b : ExamStatus) : bool :=
  match a, b with
  | pending, pending | in_progress, in_progress | submitted, submitted
  | graded, graded | grading_failed, grading_failed => true
  | _, _ => false
  end.

Definition QuestionType_eqb (a b : QuestionType) : bool :=
  match a, b with
  | multiple_choice, multiple_choice | short_answer, short_answer
  | application, application => true
  | _, _ => false
  end.

Definition CommitmentStatus_toString (s : CommitmentStatus) : string :=
  match s with
  | active => "active" | completed => "completed"
  | failed => "failed" | expired => "expired"
  end.

Definition ExamStatus_toString (s : ExamStatus) : string :=
  match s with
  | pending => "pending" | in_progress => "in_progress"
  | submitted => "submitted" | graded => "graded"
  | grading_failed => "grading_failed"
  end.

Definition QuestionType_toString (t : QuestionType) : string :=
  match t with
  | multiple_choice => "multiple_choice"
  | short_answer => "short_answer"
  | application => "application"
  end.

(** The bookkeeping columns [created_at] / [updated_at] are left out. *)
Record Commitment := mkCommitment {
  c_id : string;
  c_user_id : string;
  c_topic : string;
  c_stake_amount : Z;
  c_duration_days : Z;
  c_deadline : Z;
  c_status : CommitmentStatus;
  c_stake_status : StakeStatus;
  c_retry_used : bool
}.

Record ExamQuestion := mkExamQuestion {
  q_id : string;
  q_type : QuestionType;
  q_question : string;
  q_options : option (list string);
  q_correct_answer : option string;
  q_difficulty : QuestionDifficulty
}.

Record Exam := mkExam {
  e_id : string;
  e_commitment_id : string;
  e_questions : list ExamQuestion;
  e_status : ExamStatus;
  e_started_at : option Z;
  e_submitted_at : option Z;
  e_overall_score : option Z;
  e_passed : option bool;
  e_opik_trace_id : option string
}.

Record ExamAnswer := mkExamAnswer {
  a_id : string;
  a_exam_id : string;
  a_question_id : string;
  a_user_answer : string;
  a_score : option Z;
  a_feedback : option string;
  a_graded_at : option Z;
  a_opik_span_id : option string
}.

(* ================================================================== *)
(** * The world and the monad of [async] computations *)
(* ================================================================== *)

Record World := mkWorld {
  commitments : list Commitment;
  exams : list Exam;
  exam_answers : list ExamAnswer;
  now : Z;                    (* the clock read by [new Date()] *)
  delays : list Z;            (* every [delay(ms)] awaited so far, in order *)
  llm_calls : nat;            (* completion requests sent so far *)
  ids_drawn : nat;            (* identifiers generated so far *)
  generatorKeyIndex : nat;    (* [currentIndex] of the generator's key manager *)
  graderKeyIndex : nat        (* [currentIndex] of the grader's key manager *)
}.

Definition with_commitments (cs : list Commitment) (w : World) : World :=
  mkWorld cs (exams w) (exam_answers w) (now w) (delays w) (llm_calls w)
          (ids_drawn w) (generatorKeyIndex w) (graderKeyIndex w).

Definition with_exams (es : list Exam) (w : World) : World :=
  mkWorld (commitments w) es (exam_answers w) (now w) (delays w) (llm_calls w)
          (ids_drawn w) (generatorKeyIndex w) (graderKeyIndex w).

Definition with_exam_answers (xs : list ExamAnswer) (w : World) : World :=
  mkWorld (commitments w) (exams w) xs (now w) (delays w) (llm_calls w)
          (ids_drawn w) (generatorKeyIndex w) (graderKeyIndex w).

Definition with_now (t : Z) (w : World) : World :=
  mkWorld (commitments w) (exams w) (exam_answers w) t (delays w) (llm_calls w)
          (ids_drawn w) (generatorKeyIndex w) (graderKeyIndex w).

Definition with_delays (ds : list Z) (w : World) : World :=
  mkWorld (commitments w) (exams w) (exam_answers w) (now w) ds (llm_calls w)
          (ids_drawn w) (generatorKeyIndex w) (graderKeyIndex w).

Definition with_llm_calls (n : nat) (w : World) : World :=
  mkWorld (commitments w) (exams w) (exam_answers w) (now w) (delays w) n
          (ids_drawn w) (generatorKeyIndex w) (graderKeyIndex w).

Definition with_ids_drawn (n : nat) (w : World) : World :=
  mkWorld (commitments w) (exams w) (exam_answers w) (now w) (delays w)
          (llm_calls w) n (generatorKeyIndex w) (graderKeyIndex w).

Definition with_generatorKeyIndex (n : nat) (w : World) : World :=
  mkWorld (commitments w) (exams w) (exam_answers w) (now w) (delays w)
          (llm_calls w) (ids_drawn w) n (graderKeyIndex w).

Definition with_graderKeyIndex (n : nat) (w : World) : World :=
  mkWorld (commitments w) (exams w) (exam_answers w) (now w) (delays w)
          (llm_calls w) (ids_drawn w) (generatorKeyIndex w) n.

(** Error payloads of the two exception classes.  Both services use the
    same shape [{ type, message }]. *)
Inductive ErrorType :=
  | INVALID_RESPONSE | INVALID_SCORE | TIMEOUT | RATE_LIMITED
  | MAX_RETRIES_EXCEEDED | API_ERROR.

Record ServiceError := mkServiceError {
  err_type : ErrorType;
  err_message : string
}.

(** Values that the modelled code throws. *)
Inductive Thrown :=
  | JsError (message : string)                                  (* [new Error(m)] *)
  | ExamGenerationException (error : ServiceError) (attempts : nat)
  | GradingException (error : ServiceError) (attempts : nat).

(** [error instanceof Error ? error.message : String(error)]; both
    exception classes extend [Error] with [super(error.message)]. *)
Definition thrown_message (t : Thrown) : string :=
  match t with
  | JsError m => m
  | ExamGenerationException e _ => err_message e
  | GradingException e _ => err_message e
  end.

Inductive Outcome (A : Type) :=
  | Return (a : A)
  | Throw (t : Thrown).
Arguments Return {A} a.
Arguments Throw {A} t.

Definition M (A : Type) : Type := World -> Outcome A * World.

Definition ret {A} (a : A) : M A := fun w => (Return a, w).

Definition throw {A} (t : Thrown) : M A := fun w => (Throw t, w).

Definition bind {A B} (m : M A) (k : A -> M B) : M B :=
  fun w =>
    match m w with
    | (Return a, w') => k a w'
    | (Throw t, w') => (Throw t, w')
    end.

(** [try { m } catch (error) { h error }] *)
Definition try_catch {A} (m : M A) (h : Thrown -> M A) : M A :=
  fun w =>
    match m w with
    | (Return a, w') => (Return a, w')
    | (Throw t, w') => h t w'
    end.

Definition get_world : M World := fun w => (Return w, w).

Definition modify (f : World -> World) : M unit := fun w => (Return tt, f w).

Notation "x <- m ;; k" := (bind m (fun x => k))
  (at level 61, m at next level, right associativity).
Notation "m ;;; k" := (bind m (fun _ => k))
  (at level 61, right associativity).

(** [new Date()] / [Date.now()] *)
Definition Date_now : M Z := fun w => (Return (now w), w).

(** [await delay(ms)]: the wait is recorded and the clock moves on. *)
Definition delay (ms : Z) : M unit :=
  modify (fun w => with_now (now w + ms) (with_delays (delays w ++ [ms]) w)).

(* ================================================================== *)
(** * The storage collaborator (Supabase query builder) *)
(* ================================================================== *)

(** [.single()]: the row when exactly one row matches. *)
Definition single {A} (rows : list A) : option A :=
  match rows with
  | [r] => Some r
  | _ => None
  end.

(** [.update(f).eq(col, v)]: every matching row is rewritten. *)
Definition update_where {A} (p : A -> bool) (f : A -> A) (rows : list A) : list A :=
  map (fun r => if p r then f r else r) rows.

Definition commitment_has_id (x : string) (c : Commitment) : bool := (c_id c =? x)%string.
Definition exam_has_id (x : string) (e : Exam) : bool := (e_id e =? x)%string.
Definition answer_has_id (x : string) (a : ExamAnswer) : bool := (a_id a =? x)%string.

(** [from('commitments').select('*').eq('id', x).single()] *)
Definition select_commitment (x : string) (w : World) : option Commitment :=
  single (filter (commitment_has_id x) (commitments w)).

(** [from('exams').select('*, commitments!inner(user_id)').eq('id', x).single()]:
    the exam joined with the owner of its commitment. *)
Definition select_exam_with_owner (x : string) (w : World) : option (Exam * string) :=
  match single (filter (exam_has_id x) (exams w)) with
  | Some e =>
      match single (filter (commitment_has_id (e_commitment_id e)) (commitments w)) with
      | Some c => Some (e, c_user_id c)
      | None => None
      end
  | None => None
  end.

(** [from('exam_answers').select('*').eq('exam_id', x)] *)
Definition select_answers_of_exam (x : string) (w : World) : list ExamAnswer :=
  filter (fun a => (a_exam_id a =? x)%string) (exam_answers w).

(* ================================================================== *)
(** * Stake resolution ([services/stake-resolution.ts]) *)
(* ================================================================== *)

Inductive ResolutionAction := act_saved | act_burned | act_retry_allowed | act_no_change.

Record StakeResolutionResult := mkStakeResolutionResult {
  r_commitment : Commitment;
  r_previousStatus : CommitmentStatus;
  r_previousStakeStatus : StakeStatus;
  r_action : ResolutionAction;
  r_message : string
}.

(** The values of [newStatus], [newStakeStatus], [newRetryUsed], [action]
    and [message] after the [if / else if] chain of [resolveStake]. *)
Definition resolution_branch (commitment : Commitment) (passed deadlinePassed : bool)
  : CommitmentStatus * StakeStatus * bool * ResolutionAction * string :=
  if deadlinePassed && CommitmentStatus_eqb (c_status commitment) active then
    (expired, burned, c_retry_used commitment, act_burned,
     "Deadline passed. Stake has been burned.")
  else if passed then
    (completed, saved, c_retry_used commitment, act_saved,
     "Congratulations! You passed and saved your stake.")
  else if negb (c_retry_used commitment) then
    (c_status commitment, c_stake_status commitment, true, act_retry_allowed,
     "You did not pass. You have one retry remaining.")
  else
    (failed, burned, c_retry_used commitment, act_burned,
     "You did not pass after retry. Stake has been burned.").

Definition set_resolution (s : CommitmentStatus) (k : StakeStatus) (r : bool)
           (c : Commitment) : Commitment :=
  mkCommitment (c_id c) (c_user_id c) (c_topic c) (c_stake_amount c)
               (c_duration_days c) (c_deadline c) s k r.

Definition resolveStake (commitmentId : string) (passed : bool)
  : M StakeResolutionResult :=
  w <- get_world ;;
  match select_commitment commitmentId w with
  | None => throw (JsError "Commitment not found")
  | Some commitment =>
      let previousStatus := c_status commitment in
      let previousStakeStatus := c_stake_status commitment in
      nowT <- Date_now ;;
      let deadlinePassed := c_deadline commitment <? nowT in
      let '(newStatus, newStakeStatus, newRetryUsed, action, message) :=
        resolution_branch commitment passed deadlinePassed in
      if negb (CommitmentStatus_eqb newStatus (c_status commitment))
         || negb (StakeStatus_eqb newStakeStatus (c_stake_status commitment))
         || negb (Bool.eqb newRetryUsed (c_retry_used commitment))
      then
        modify (fun w =>
          with_commitments
            (update_where (commitment_has_id commitmentId)
                          (set_resolution newStatus newStakeStatus newRetryUsed)
                          (commitments w)) w) ;;;
        w' <- get_world ;;
        match select_commitment commitmentId w' with
        | None => throw (JsError "Failed to update commitment")
        | Some updated =>
            ret (mkStakeResolutionResult updated previousStatus
                   previousStakeStatus action message)
        end
      else
        ret (mkStakeResolutionResult commitment previousStatus
               previousStakeStatus action message)
  end.

(* ================================================================== *)
(** * The outside world: JSON, the LLM endpoint, identifiers *)
(* ================================================================== *)

(** Values produced by [JSON.parse].  An object is the list of its
    members; [obj_get] reads the first binding of a key. *)
#[warnings="-register-all"] Inductive json :=
  | JNull
  | JBool (b : bool)
  | JNum (n : Q)
  | JStr (s : string)
  | JArr (items : list json)
  | JObj (members : list (string * json)).

Fixpoint obj_get (k : string) (members : list (string * json)) : option json :=
  match members with
  | [] => None
  | (k', v) :: rest => if (k' =? k)%string then Some v else obj_get k rest
  end.

(** The prompt templates are represented by the values substituted into
    them ([buildPrompt], [buildGradingPrompt]). *)
Inductive Prompt :=
  | GenerationPrompt (topic : string) (questionCount : Z)
  | GradingPrompt (question : ExamQuestion) (userAnswer : string).

(** What [cerebras.chat.completions.create] does: it rejects with an
    error, or resolves to a completion whose first choice may carry a
    message content, with an optional token count. *)
Inductive LlmOutcome :=
  | Rejected (message : string)
  | Completion (content : option string) (total_tokens : option Z).

Record Env := mkEnv {
  (** [JSON.parse]: [inl m] is a [SyntaxError] with message [m]. *)
  JSON_parse : string -> string + json;
  (** the text of [ZodError.message] for a rejected value *)
  zod_message : json -> string;
  (** the outcome of the n-th completion request (counted from 0) sent
      with a given key and prompt *)
  cerebras_create : nat -> string -> Prompt -> LlmOutcome;
  (** the n-th identifier handed out by [uuidv4], [uuid_generate_v4()]
      and the tracing client *)
  fresh_id : nat -> string;
  (** [CEREBRAS_API_KEYS], split on commas, trimmed, empty entries removed *)
  api_keys : list string;
  (** [auth().userId] *)
  auth_userId : option string
}.

(* ================================================================== *)
(** * Tracing ([services/opik-tracker.ts]) *)
(* ================================================================== *)

Section Tracing.

Variable env : Env.

Definition draw_id : M string :=
  fun w => (Return (fresh_id env (ids_drawn w)), with_ids_drawn (S (ids_drawn w)) w).

(** A trace or span is represented by its identifier; [endTrace],
    [endSpan] and [logMetrics] swallow their own errors and have no effect
    on the computation. *)
Definition withTrace {T} (operation : string -> M T) : M (T * string) :=
  traceId <- draw_id ;;
  result <- operation traceId ;;
  ret (result, traceId).

Definition withSpan {T} (trace : string) (operation : string -> M T) : M (T * string) :=
  spanId <- draw_id ;;
  result <- operation spanId ;;
  ret (result, spanId).

(** [cerebras.chat.completions.create({...})] *)
Definition chat_completions_create (apiKey : string) (prompt : Prompt)
  : M (option string * option Z) :=
  fun w =>
    let w' := with_llm_calls (S (llm_calls w)) w in
    match cerebras_create env (llm_calls w) apiKey prompt with
    | Rejected m => (Throw (JsError m), w')
    | Completion content tokens => (Return (content, tokens), w')
    end.

Definition NO_KEYS_MESSAGE : string :=
  "No Cerebras API keys configured. Set CEREBRAS_API_KEYS or CEREBRAS_API_KEY environment variable.".

End Tracing.

(* ================================================================== *)
(** * Exam generator ([services/exam-generator.ts]) *)
(* ================================================================== *)

Module Generator.

Section WithEnv.

Variable env : Env.

Definition maxRetries : nat := 3.
Definition backoffMs : list Z := [1000; 2000; 4000].

(** [keyManager.getNextKey()] of the generator's singleton. *)
Definition getNextKey : M string :=
  fun w =>
    match api_keys env with
    | [] => (Throw (JsError NO_KEYS_MESSAGE), w)
    | keys =>
        let key := nth (generatorKeyIndex w) keys "" in
        (Return key,
         with_generatorKeyIndex
           (Nat.modulo (generatorKeyIndex w + 1) (List.length keys)) w)
    end.

(** An element accepted by [llmQuestionSchema]. *)
Record LlmQuestion := mkLlmQuestion {
  lq_id : string;
  lq_type : QuestionType;
  lq_question : string;
  lq_options : option (list string);
  lq_correct_answer : option string;
  lq_difficulty : QuestionDifficulty
}.

(** [z.enum(['multiple_choice', 'short_answer', 'application'])] *)
Definition parse_type (j : json) : option QuestionType :=
  match j with
  | JStr s =>
      if (s =? "multiple_choice")%string then Some multiple_choice
      else if (s =? "short_answer")%string then Some short_answer
      else if (s =? "application")%string then Some application
      else None
  | _ => None
  end.

(** [z.enum(['intermediate', 'advanced'])] *)
Definition parse_difficulty (j : json) : option QuestionDifficulty :=
  match j with
  | JStr s =>
      if (s =? "intermediate")%string then Some intermediate
      else if (s =? "advanced")%string then Some advanced
      else None
  | _ => None
  end.

(** [z.array(z.string())] *)
Fixpoint parse_string_array (items : list json) : option (list string) :=
  match items with
  | [] => Some []
  | JStr s :: rest =>
      match parse_string_array rest with
      | Some l => Some (s :: l)
      | None => None
      end
  | _ :: _ => None
  end.

(** [llmQuestionSchema.safeParse]: [None] when the schema rejects. *)
Definition parse_question (j : json) : option LlmQuestion :=
  match j with
  | JObj m =>
      match obj_get "id" m, obj_get "type" m, obj_get "question" m,
            obj_get "difficulty" m with
      | Some (JStr id), Some jt, Some (JStr question), Some jd =>
          match parse_type jt, parse_difficulty jd with
          | Some t, Some d =>
              if (1 <=? String.length question)%nat then
                let options :=
                  match obj_get "options" m with
                  | None => Some None
                  | Some (JArr items) =>
                      match parse_string_array items with
                      | Some l => Some (Some l)
                      | None => None
                      end
                  | Some _ => None
                  end in
                let correct_answer :=
                  match obj_get "correct_answer" m with
                  | None => Some None
                  | Some (JStr s) => Some (Some s)
                  | Some _ => None
                  end in
                match options, correct_answer with
                | Some o, Some c => Some (mkLlmQuestion id t question o c d)
                | _, _ => None
                end
              else None
          | _, _ => None
          end
      | _, _, _, _ => None
      end
  | _ => None
  end.

Fixpoint parse_questions (items : list json) : option (list LlmQuestion) :=
  match items with
  | [] => Some []
  | j :: rest =>
      match parse_question j, parse_questions rest with
      | Some q, Some l => Some (q :: l)
      | _, _ => None
      end
  end.

(** [llmResponseSchema.safeParse]:
    [z.object({ questions: z.array(llmQuestionSchema).min(5).max(10) })] *)
Definition parse_response (j : json) : option (list LlmQuestion) :=
  match j with
  | JObj m =>
      match obj_get "questions" m with
      | Some (JArr items) =>
          match parse_questions items with
          | Some qs =>
              if (5 <=? List.length qs)%nat && (List.length qs <=? 10)%nat
              then Some qs else None
          | None => None
          end
      | _ => None
      end
  | _ => None
  end.

(** The capture group of
    [jsonStr.match(/```(?:json)?\s*([\s\S]*?)```/)], when the pattern
    matches. *)
Definition fence : string := "```".

Definition fence_capture (s : string) : option string :=
  match Js.cut fence s with
  | Some (_, after) =>
      let after := if Js.startsWith "json" after
                   then substring 4 (String.length after) after else after in
      match Js.cut fence (Js.trimStart after) with
      | Some (captured, _) => Some captured
      | None => None
      end
  | None => None
  end.

(** The first statements of [validateAndTransformResponse] and of
    [validateGradeResponse]: the text handed to [JSON.parse]. *)
Definition extract_json (rawResponse : string) : string :=
  let jsonStr := Js.trim rawResponse in
  match fence_capture jsonStr with
  | Some captured => Js.trim captured
  | None => jsonStr
  end.

Inductive CharClass := hex | dash | one_to_five | eight_to_b.

Definition is_hex (n : nat) : bool :=
  ((48 <=? n) && (n <=? 57) || (97 <=? n) && (n <=? 102)
   || (65 <=? n) && (n <=? 70))%nat.

Definition in_class (k : CharClass) (c : ascii) : bool :=
  let n := nat_of_ascii c in
  match k with
  | hex => is_hex n
  | dash => (n =? 45)%nat
  | one_to_five => ((49 <=? n) && (n <=? 53))%nat
  | eight_to_b =>
      ((n =? 56) || (n =? 57) || (n =? 97) || (n =? 98) || (n =? 65) || (n =? 66))%nat
  end.

Fixpoint matches (pattern : list CharClass) (s : string) : bool :=
  match pattern, s with
  | [], EmptyString => true
  | k :: pattern', String c s' => in_class k c && matches pattern' s'
  | _, _ => false
  end.

(** [/^[0-9a-f]{8}-[0-9a-f]{4}-[1-5][0-9a-f]{3}-[89ab][0-9a-f]{3}-[0-9a-f]{12}$/i] *)
Definition uuid_pattern : list CharClass :=
  repeat hex 8 ++ [dash] ++ repeat hex 4 ++ [dash]
  ++ [one_to_five] ++ repeat hex 3 ++ [dash]
  ++ [eight_to_b] ++ repeat hex 3 ++ [dash] ++ repeat hex 12.

Definition isValidUUID (str : string) : bool := matches uuid_pattern str.

Definition uuidv4 : M string := draw_id env.

Definition requiredTypes : list QuestionType :=
  [multiple_choice; short_answer; application].

(** [types.has(t)] for [types = new Set(questions.map(q => q.type))] *)
Definition has_type (questions : list LlmQuestion) (t : QuestionType) : bool :=
  existsb (fun q => QuestionType_eqb (lq_type q) t) questions.

(** [xs.join(', ')] *)
Fixpoint join_comma (xs : list string) : string :=
  match xs with
  | [] => ""
  | [x] => x
  | x :: rest => x ++ ", " ++ join_comma rest
  end.

(** The loop that checks every multiple choice question; the message of
    the first error it throws, if any. *)
Fixpoint check_multiple_choice (questions : list LlmQuestion) : option string :=
  match questions with
  | [] => None
  | q :: rest =>
      if QuestionType_eqb (lq_type q) multiple_choice then
        if match lq_options q with
           | None => true
           | Some o => negb (Nat.eqb (List.length o) 4)
           end
        then Some ("Multiple choice question " ++ Js.dquote ++ lq_id q
                   ++ Js.dquote ++ " must have exactly 4 options")
        else if match lq_correct_answer q with
                | None => true
                | Some a => negb (Js.truthy a)
                end
        then Some ("Multiple choice question " ++ Js.dquote ++ lq_id q
                   ++ Js.dquote ++ " must have a correct_answer")
        else check_multiple_choice rest
      else check_multiple_choice rest
  end.

(** The callback of the final [questions.map]. *)
Definition transform_question (q : LlmQuestion) : M ExamQuestion :=
  id <- (if isValidUUID (lq_id q) then ret (lq_id q) else uuidv4) ;;
  ret (mkExamQuestion id (lq_type q) (lq_question q)
         (if QuestionType_eqb (lq_type q) multiple_choice
          then lq_options q else None)
         (if QuestionType_eqb (lq_type q) multiple_choice
          then lq_correct_answer q else None)
         (lq_difficulty q)).

Fixpoint transform_questions (qs : list LlmQuestion) : M (list ExamQuestion) :=
  match qs with
  | [] => ret []
  | q :: rest =>
      q' <- transform_question q ;;
      rest' <- transform_questions rest ;;
      ret (q' :: rest')
  end.

Definition validateAndTransformResponse (rawResponse : string) (expectedCount : Z)
  : M (list ExamQuestion) :=
  let jsonStr := extract_json rawResponse in
  match JSON_parse env jsonStr with
  | inl m => throw (JsError ("Failed to parse LLM response as JSON: " ++ m))
  | inr parsed =>
      match parse_response parsed with
      | None => throw (JsError ("Invalid exam structure: " ++ zod_message env parsed))
      | Some questions =>
          if (List.length questions <? 5)%nat || (10 <? List.length questions)%nat
          then throw (JsError ("Expected 5-10 questions, got "
                               ++ Js.nat_toString (List.length questions)))
          else
            let missingTypes :=
              filter (fun t => negb (has_type questions t)) requiredTypes in
            if (0 <? List.length missingTypes)%nat
            then throw (JsError ("Missing required question types: "
                                 ++ join_comma (map QuestionType_toString missingTypes)))
            else
              match check_multiple_choice questions with
              | Some m => throw (JsError m)
              | None => transform_questions questions
              end
      end
  end.

(** [categorizeError] of the generator. *)
Definition categorizeError (error : Thrown) : ServiceError :=
  match error with
  | ExamGenerationException e _ => e
  | _ =>
      let message := thrown_message error in
      if Js.includes message "rate limit" || Js.includes message "429"
      then mkServiceError RATE_LIMITED message
      else if Js.includes message "timeout" || Js.includes message "ETIMEDOUT"
      then mkServiceError TIMEOUT message
      else if Js.includes message "parse" || Js.includes message "Invalid"
              || Js.includes message "JSON"
      then mkServiceError INVALID_RESPONSE message
      else mkServiceError API_ERROR message
  end.

(** A single attempt: one key, one completion request, validation. *)
Definition attemptGeneration (topic : string) (questionCount : Z)
           (trace : string) (attempt : nat) : M (list ExamQuestion) :=
  apiKey <- getNextKey ;;
  let prompt := GenerationPrompt topic questionCount in
  response <- withSpan env trace (fun _ => chat_completions_create env apiKey prompt) ;;
  match fst (fst response) with
  | None => throw (JsError "Empty response from LLM")
  | Some content =>
      if Js.truthy content
      then validateAndTransformResponse content questionCount
      else throw (JsError "Empty response from LLM")
  end.

(** [lastError?.message || 'Unknown'] *)
Definition last_message (lastError : option ServiceError) : string :=
  match lastError with
  | Some e => if Js.truthy (err_message e) then err_message e else "Unknown"
  | None => "Unknown"
  end.

(** The [for (attempt = 1; attempt <= maxRetries; attempt++)] loop of
    [generateExamWithRetry], with [remaining] iterations still to run. *)
Fixpoint retry_loop (topic : string) (questionCount : Z) (trace : string)
         (remaining attempt : nat) (lastError : option ServiceError)
  : M (list ExamQuestion) :=
  match remaining with
  | O =>
      throw (ExamGenerationException
               (mkServiceError MAX_RETRIES_EXCEEDED
                  ("Failed to generate exam after " ++ Js.nat_toString maxRetries
                   ++ " attempts. Last error: " ++ last_message lastError))
               maxRetries)
  | S remaining' =>
      try_catch
        (attemptGeneration topic questionCount trace attempt)
        (fun error =>
           let lastError := categorizeError error in
           (if (attempt <? maxRetries)%nat
            then delay (nth (attempt - 1) backoffMs 0)
            else ret tt) ;;;
           retry_loop topic questionCount trace remaining' (S attempt)
                      (Some lastError))
  end.

Definition generateExamWithRetry (topic : string) (questionCount : Z)
           (trace : string) : M (list ExamQuestion) :=
  retry_loop topic questionCount trace maxRetries 1 None.

Definition generateExam (topic : string) (questionCount : Z)
  : M (list ExamQuestion) :=
  if Js.blank topic then
    throw (ExamGenerationException
             (mkServiceError INVALID_RESPONSE "Topic cannot be empty") 0)
  else if (questionCount <? 5) || (10 <? questionCount) then
    throw (ExamGenerationException
             (mkServiceError INVALID_RESPONSE
                "Question count must be between 5 and 10") 0)
  else
    r <- withTrace env (fun trace => generateExamWithRetry topic questionCount trace) ;;
    ret (fst r).

End WithEnv.

End Generator.

(* ================================================================== *)
(** * Exam grader ([services/exam-grader.ts]) *)
(* ================================================================== *)

Module Grader.

Definition maxRetries : nat := 3.
Definition backoffMs : list Z := [1000; 2000; 4000].
Definition PASS_THRESHOLD : Z := 70.

Record GradeResult := mkGradeResult {
  score : Z;
  feedback : string;
  opikSpanId : string
}.

Record ExamGradeResult := mkExamGradeResult {
  overallScore : Z;
  passed : bool;
  questionResults : list GradeResult;
  opikTraceId : string
}.

Definition NO_ANSWER : string := "No answer provided.".

(** [questionResults.reduce((sum, r) => sum + r.score, 0)] *)
Definition totalScore (results : list GradeResult) : Z :=
  fold_left (fun sum r => sum + score r) results 0.

(** [totalScore / questionResults.length], as an exact rational.  The
    division is only reached with at least one result. *)
Definition meanScore (results : list GradeResult) : Q :=
  (inject_Z (totalScore results) / inject_Z (Z.of_nat (List.length results)))%Q.

(** [new Map()] filled by [answerMap.set(answer.question_id, answer)] in
    order, then [answerMap.get(id)]: the last answer with that key. *)
Definition answerMap_get (answers : list ExamAnswer) (id : string) : option ExamAnswer :=
  find (fun a => (a_question_id a =? id)%string) (rev answers).

(** [answer?.user_answer || ''] *)
Definition userAnswer_of (answer : option ExamAnswer) : string :=
  match answer with
  | Some a => a_user_answer a
  | None => ""
  end.

(** [gradeResultSchema.safeParse]:
    [z.object({ score: z.number().int().min(0).max(100),
                feedback: z.string().min(1) })] *)
Definition parse_grade (j : json) : option (Z * string) :=
  match j with
  | JObj m =>
      match obj_get "score" m, obj_get "feedback" m with
      | Some (JNum n), Some (JStr f) =>
          if Qeq_bool n (inject_Z (Qfloor n))
             && (0 <=? Qfloor n) && (Qfloor n <=? 100)
             && (1 <=? String.length f)%nat
          then Some (Qfloor n, f) else None
      | _, _ => None
      end
  | _ => None
  end.

Section WithEnv.

Variable env : Env.

(** [keyManager.getNextKey()] of the grader's singleton. *)
Definition getNextKey : M string :=
  fun w =>
    match api_keys env with
    | [] => (Throw (JsError NO_KEYS_MESSAGE), w)
    | keys =>
        let key := nth (graderKeyIndex w) keys "" in
        (Return key,
         with_graderKeyIndex
           (Nat.modulo (graderKeyIndex w + 1) (List.length keys)) w)
    end.

Definition validateGradeResponse (rawResponse : string) : M (Z * string) :=
  let jsonStr := Generator.extract_json rawResponse in
  match JSON_parse env jsonStr with
  | inl m => throw (JsError ("Failed to parse grading response as JSON: " ++ m))
  | inr parsed =>
      match parse_grade parsed with
      | None => throw (JsError ("Invalid grading response: " ++ zod_message env parsed))
      | Some data => ret data
      end
  end.

(** [categorizeError] of the grader. *)
Definition categorizeError (error : Thrown) : ServiceError :=
  match error with
  | GradingException e _ => e
  | _ =>
      let message := thrown_message error in
      if Js.includes message "rate limit" || Js.includes message "429"
      then mkServiceError RATE_LIMITED message
      else if Js.includes message "timeout" || Js.includes message "ETIMEDOUT"
      then mkServiceError TIMEOUT message
      else if Js.includes message "score" || Js.includes message "Invalid"
      then mkServiceError INVALID_SCORE message
      else mkServiceError API_ERROR message
  end.

Definition attemptGrading (question : ExamQuestion) (userAnswer : string)
           (trace : string) (attempt : nat) : M GradeResult :=
  apiKey <- getNextKey ;;
  let prompt := GradingPrompt question userAnswer in
  response <- withSpan env trace (fun _ => chat_completions_create env apiKey prompt) ;;
  let spanId := snd response in
  match fst (fst response) with
  | None => throw (JsError "Empty response from LLM")
  | Some content =>
      if Js.truthy content
      then gradeData <- validateGradeResponse content ;;
           ret (mkGradeResult (fst gradeData) (snd gradeData) spanId)
      else throw (JsError "Empty response from LLM")
  end.

Definition last_message (lastError : option ServiceError) : string :=
  match lastError with
  | Some e => if Js.truthy (err_message e) then err_message e else "Unknown"
  | None => "Unknown"
  end.

(** The retry loop of [gradeAnswerWithRetry], with [remaining] iterations
    still to run. *)
Fixpoint retry_loop (question : ExamQuestion) (userAnswer : string) (trace : string)
         (remaining attempt : nat) (lastError : option ServiceError)
  : M GradeResult :=
  match remaining with
  | O =>
      throw (GradingException
               (mkServiceError MAX_RETRIES_EXCEEDED
                  ("Failed to grade answer after " ++ Js.nat_toString maxRetries
                   ++ " attempts. Last error: " ++ last_message lastError))
               maxRetries)
  | S remaining' =>
      try_catch
        (attemptGrading question userAnswer trace attempt)
        (fun error =>
           let lastError := categorizeError error in
           (if (attempt <? maxRetries)%nat
            then delay (nth (attempt - 1) backoffMs 0)
            else ret tt) ;;;
           retry_loop question userAnswer trace remaining' (S attempt)
                      (Some lastError))
  end.

Definition gradeAnswerWithRetry (question : ExamQuestion) (userAnswer : string)
           (trace : string) : M GradeResult :=
  retry_loop question userAnswer trace maxRetries 1 None.

Definition gradeAnswer (question : ExamQuestion) (userAnswer : string)
  : M GradeResult :=
  if negb (Js.truthy (q_question question)) then
    throw (GradingException
             (mkServiceError INVALID_SCORE "Question cannot be empty") 0)
  else if Js.blank userAnswer then
    t <- Date_now ;;
    ret (mkGradeResult 0 NO_ANSWER
           ("empty-answer-" ++ NilZero.string_of_int (Z.to_int t)))
  else
    r <- withTrace env (fun trace => gradeAnswerWithRetry question userAnswer trace) ;;
    ret (fst r).

(** The body of the [for (const question of exam.questions)] loop: the
    result pushed onto [questionResults]. *)
Definition gradeQuestion (answers : list ExamAnswer) (trace : string)
           (question : ExamQuestion) : M GradeResult :=
  let answer := answerMap_get answers (q_id question) in
  let userAnswer := userAnswer_of answer in
  r <- withSpan env trace (fun _ =>
         if Js.blank userAnswer
         then ret (mkGradeResult 0 NO_ANSWER ("empty-" ++ q_id question))
         else gradeAnswerWithRetry question userAnswer trace) ;;
  ret (mkGradeResult (score (fst r)) (feedback (fst r)) (snd r)).

Fixpoint gradeQuestions (answers : list ExamAnswer) (trace : string)
         (questions : list ExamQuestion) : M (list GradeResult) :=
  match questions with
  | [] => ret []
  | question :: rest =>
      r <- gradeQuestion answers trace question ;;
      rs <- gradeQuestions answers trace rest ;;
      ret (r :: rs)
  end.

(** The result is [Omit<ExamGradeResult, 'opikTraceId'>]. *)
Definition gradeExamQuestions (exam : Exam) (answers : list ExamAnswer)
           (trace : string) : M (Z * bool * list GradeResult) :=
  results <- gradeQuestions answers trace (e_questions exam) ;;
  let overall := Js.Math_round (meanScore results) in
  let passed := PASS_THRESHOLD <=? overall in
  ret (overall, passed, results).

Definition gradeExam (exam : Exam) (answers : list ExamAnswer)
  : M ExamGradeResult :=
  if Nat.eqb (List.length (e_questions exam)) 0 then
    throw (GradingException
             (mkServiceError INVALID_SCORE "Exam must have questions") 0)
  else if Nat.eqb (List.length answers) 0 then
    throw (GradingException
             (mkServiceError INVALID_SCORE "No answers provided for grading") 0)
  else
    r <- withTrace env (fun trace => gradeExamQuestions exam answers trace) ;;
    let '(overall, passed, results) := fst r in
    ret (mkExamGradeResult overall passed results (snd r)).

End WithEnv.

End Grader.

(* ================================================================== *)
(** * Server actions ([actions/exam-actions.ts], [actions/grading-actions.ts]) *)
(* ================================================================== *)

Record ValidationError := mkValidationError {
  field : string;
  message : string;
  code : string
}.

Inductive ActionResult (A : Type) :=
  | Success (data : A)
  | Failure (errors : list ValidationError).
Arguments Success {A} data.
Arguments Failure {A} errors.

Definition fail_with {A} (f m c : string) : M (ActionResult A) :=
  ret (Failure [mkValidationError f m c]).

(** [error.error.type.toLowerCase()] *)
Definition ErrorType_code (t : ErrorType) : string :=
  match t with
  | INVALID_RESPONSE => "invalid_response"
  | INVALID_SCORE => "invalid_score"
  | TIMEOUT => "timeout"
  | RATE_LIMITED => "rate_limited"
  | MAX_RETRIES_EXCEEDED => "max_retries_exceeded"
  | API_ERROR => "api_error"
  end.

Module Actions.

Section WithEnv.

Variable env : Env.

(** [const { userId } = await auth(); if (!userId) ...]: the user id when
    it is truthy. *)
Definition signed_in_user : option string :=
  match auth_userId env with
  | Some u => if Js.truthy u then Some u else None
  | None => None
  end.

(** [from('exams').insert(...)]: the database fills in the identifier and
    the defaults. *)
Definition insert_exam (commitmentId : string) (questions : list ExamQuestion)
  : M Exam :=
  id <- draw_id env ;;
  let row := mkExam id commitmentId questions pending None None None None None in
  modify (fun w => with_exams (exams w ++ [row]) w) ;;;
  ret row.

(** [generateExam(commitmentId)] of [exam-actions.ts]. *)
Definition generateExam (commitmentId : string) : M (ActionResult Exam) :=
  try_catch
    (match signed_in_user with
     | None => fail_with "auth" "You must be signed in" "unauthorized"
     | Some userId =>
         if negb (Js.truthy commitmentId) then
           fail_with "commitmentId" "Commitment ID is required" "invalid_input"
         else
           w <- get_world ;;
           match select_commitment commitmentId w with
           | None => fail_with "commitmentId" "Commitment not found" "not_found"
           | Some commitment =>
               if negb (c_user_id commitment =? userId)%string then
                 fail_with "auth" "Access denied" "forbidden"
               else if negb (CommitmentStatus_eqb (c_status commitment) active) then
                 fail_with "commitment"
                   ("Cannot generate exam for "
                    ++ CommitmentStatus_toString (c_status commitment)
                    ++ " commitment") "invalid_status"
               else
                 nowT <- Date_now ;;
                 if c_deadline commitment <? nowT then
                   fail_with "commitment" "Deadline has passed" "deadline_passed"
                 else
                   questions <- Generator.generateExam env (c_topic commitment) 7 ;;
                   exam <- insert_exam commitmentId questions ;;
                   ret (Success exam)
           end
     end)
    (fun error => fail_with "server" (thrown_message error) "server_error").

Definition set_user_answer (text : string) (a : ExamAnswer) : ExamAnswer :=
  mkExamAnswer (a_id a) (a_exam_id a) (a_question_id a) text
               (a_score a) (a_feedback a) (a_graded_at a) (a_opik_span_id a).

Definition answers_of_pair (examId questionId : string) (w : World) : list ExamAnswer :=
  filter (fun a => (a_exam_id a =? examId)%string
                   && (a_question_id a =? questionId)%string)
         (exam_answers w).

(** [submitAnswer(examId, questionId, answer)] of [exam-actions.ts]. *)
Definition submitAnswer (examId questionId answer : string)
  : M (ActionResult ExamAnswer) :=
  try_catch
    (match signed_in_user with
     | None => fail_with "auth" "You must be signed in" "unauthorized"
     | Some userId =>
         if negb (Js.truthy (Js.trim answer)) then
           fail_with "answer" "Answer cannot be empty" "invalid_input"
         else
           w <- get_world ;;
           match select_exam_with_owner examId w with
           | None => fail_with "examId" "Exam not found" "not_found"
           | Some (exam, owner) =>
               if negb (owner =? userId)%string then
                 fail_with "auth" "Access denied" "forbidden"
               else if negb (ExamStatus_eqb (e_status exam) in_progress) then
                 fail_with "exam" "Exam is not in progress" "invalid_status"
               else if negb (existsb (fun q => (q_id q =? questionId)%string)
                                     (e_questions exam)) then
                 fail_with "questionId" "Question not found" "not_found"
               else
                 match single (answers_of_pair examId questionId w) with
                 | Some existingAnswer =>
                     modify (fun w =>
                       with_exam_answers
                         (update_where (answer_has_id (a_id existingAnswer))
                                       (set_user_answer (Js.trim answer))
                                       (exam_answers w)) w) ;;;
                     w' <- get_world ;;
                     match single (filter (answer_has_id (a_id existingAnswer))
                                          (exam_answers w')) with
                     | Some updated => ret (Success updated)
                     | None =>
                         fail_with "server" "Failed to update answer" "database_error"
                     end
                 | None =>
                     id <- draw_id env ;;
                     let row := mkExamAnswer id examId questionId (Js.trim answer)
                                             None None None None in
                     modify (fun w => with_exam_answers (exam_answers w ++ [row]) w) ;;;
                     ret (Success row)
                 end
           end
     end)
    (fun error => fail_with "server" (thrown_message error) "server_error").

Definition set_exam_status (s : ExamStatus) (e : Exam) : Exam :=
  mkExam (e_id e) (e_commitment_id e) (e_questions e) s (e_started_at e)
         (e_submitted_at e) (e_overall_score e) (e_passed e) (e_opik_trace_id e).

(** [examUpdateData] of the grading action. *)
Definition set_exam_graded (r : Grader.ExamGradeResult) (e : Exam) : Exam :=
  mkExam (e_id e) (e_commitment_id e) (e_questions e) graded (e_started_at e)
         (e_submitted_at e) (Some (Grader.overallScore r)) (Some (Grader.passed r))
         (Some (Grader.opikTraceId r)).

(** [answerUpdate] of the grading action. *)
Definition set_answer_graded (r : Grader.GradeResult) (gradedAt : Z)
           (a : ExamAnswer) : ExamAnswer :=
  mkExamAnswer (a_id a) (a_exam_id a) (a_question_id a) (a_user_answer a)
               (Some (Grader.score r)) (Some (Grader.feedback r)) (Some gradedAt)
               (Some (Grader.opikSpanId r)).

(** [questions.findIndex(q => q.id === id)]; [None] stands for [-1]. *)
Fixpoint findIndex (questions : list ExamQuestion) (id : string) : option nat :=
  match questions with
  | [] => None
  | q :: rest =>
      if (q_id q =? id)%string then Some O
      else option_map S (findIndex rest id)
  end.

(** [gradeResult.questionResults[questionIndex]]; index [-1] reads
    [undefined]. *)
Definition result_at (results : list Grader.GradeResult) (index : option nat)
  : option Grader.GradeResult :=
  match index with
  | Some i => nth_error results i
  | None => None
  end.

(** The loop [for (let i = 0; i < answers.length; i++)] that writes the
    grades back. *)
Fixpoint write_grades (questions : list ExamQuestion)
         (results : list Grader.GradeResult) (gradedAt : Z)
         (answers : list ExamAnswer) : M unit :=
  match answers with
  | [] => ret tt
  | answer :: rest =>
      match result_at results (findIndex questions (a_question_id answer)) with
      | Some result =>
          modify (fun w =>
            with_exam_answers
              (update_where (answer_has_id (a_id answer))
                            (set_answer_graded result gradedAt)
                            (exam_answers w)) w)
      | None => ret tt
      end ;;;
      write_grades questions results gradedAt rest
  end.

(** [gradeExam(examId)] of [grading-actions.ts]. *)
Definition gradeExam (examId : string) : M (ActionResult Grader.ExamGradeResult) :=
  try_catch
    (match signed_in_user with
     | None => fail_with "auth" "You must be signed in" "unauthorized"
     | Some userId =>
         if negb (Js.truthy examId) then
           fail_with "examId" "Exam ID is required" "invalid_input"
         else
           w <- get_world ;;
           match select_exam_with_owner examId w with
           | None => fail_with "examId" "Exam not found" "not_found"
           | Some (exam, owner) =>
               if negb (owner =? userId)%string then
                 fail_with "auth" "Access denied" "forbidden"
               else if negb (ExamStatus_eqb (e_status exam) submitted) then
                 fail_with "exam"
                   ("Cannot grade exam with status: "
                    ++ ExamStatus_toString (e_status exam)) "invalid_status"
               else
                 let answers := select_answers_of_exam examId w in
                 graded <-
                   try_catch
                     (gradeResult <- Grader.gradeExam env exam answers ;;
                      ret (inl gradeResult))
                     (fun error =>
                        modify (fun w =>
                          with_exams (update_where (exam_has_id examId)
                                                   (set_exam_status grading_failed)
                                                   (exams w)) w) ;;;
                        ret (inr
                          match error with
                          | GradingException e _ =>
                              [mkValidationError "grading" (err_message e)
                                                 (ErrorType_code (err_type e))]
                          | _ =>
                              [mkValidationError "grading" "Grading failed"
                                                 "grading_failed"]
                          end)) ;;
                 match graded with
                 | inr errors => ret (Failure errors)
                 | inl gradeResult =>
                     modify (fun w =>
                       with_exams (update_where (exam_has_id examId)
                                                (set_exam_graded gradeResult)
                                                (exams w)) w) ;;;
                     gradedAt <- Date_now ;;
                     write_grades (e_questions exam)
                                  (Grader.questionResults gradeResult)
                                  gradedAt answers ;;;
                     ret (Success gradeResult)
                 end
           end
     end)
    (fun error => fail_with "server" (thrown_message error) "server_error").

End WithEnv.

End Actions.

(* ================================================================== *)
(** * The expiry sweep ([services/stake-resolution.ts]) *)
(* ================================================================== *)

(** [{ status: 'expired', stake_status: 'burned' }] *)
Definition set_expired (c : Commitment) : Commitment :=
  mkCommitment (c_id c) (c_user_id c) (c_topic c) (c_stake_amount c)
               (c_duration_days c) (c_deadline c) expired burned (c_retry_used c).

(** [.eq('user_id', userId).eq('status', 'active').lt('deadline', now)] *)
Definition overdue_for (userId : string) (nowT : Z) (c : Commitment) : bool :=
  (c_user_id c =? userId)%string
  && CommitmentStatus_eqb (c_status c) active
  && (c_deadline c <? nowT).

(** The loop [for (const commitment of data)] of
    [expireOverdueCommitments], [expired] being [expiredCommitments]. *)
Fixpoint expire_each (data : list Commitment) (expired : list Commitment)
  : M (list Commitment) :=
  match data with
  | [] => ret expired
  | commitment :: rest =>
      modify (fun w =>
        with_commitments
          (update_where (commitment_has_id (c_id commitment)) set_expired
                        (commitments w)) w) ;;;
      w <- get_world ;;
      match select_commitment (c_id commitment) w with
      | Some updated => expire_each rest (expired ++ [updated])
      | None => expire_each rest expired
      end
  end.

Definition expireOverdueCommitments (userId : string) : M (list Commitment) :=
  nowT <- Date_now ;;
  w <- get_world ;;
  expire_each (filter (overdue_for userId nowT) (commitments w)) [].

(* ================================================================== *)
(** * Commitment service ([services/commitment-service.ts]) *)
(* ================================================================== *)

Module CommitmentService.

(** [CreateCommitmentInput & { userId }]; amounts are whole numbers of the
    currency unit, as in [Commitment]. *)
Record CreateInput := mkCreateInput {
  topic : string;
  stakeAmount : Z;
  durationDays : Z;
  userId : string
}.

(** The largest time value of a [Date]: 8.64e15 ms either side of the
    epoch. *)
Definition MAX_TIME_VALUE : Z := 8640000000000000.

(** Whether [v] is a time value: [new Date(v)] is an invalid date
    otherwise. *)
Definition is_time_value (v : Z) : bool :=
  (- MAX_TIME_VALUE <=? v) && (v <=? MAX_TIME_VALUE).

(** [new Date(v).toISOString()]: the instant, or the [RangeError] that an
    invalid date throws; a [RangeError] is an [Error] with that message. *)
Definition toISOString (v : Z) : M Z :=
  if is_time_value v then ret v
  else throw (JsError "Invalid time value").

(** [new Date(Date.now() + durationDays * 24 * 60 * 60 * 1000).toISOString()];
    [Date.now()] is a time value, and on time values and whole days the
    sum is exact in the arithmetic of the source wherever it is a time
    value. *)
Definition calculateDeadline (durationDays : Z) : M Z :=
  t <- Date_now ;;
  toISOString (t + durationDays * 24 * 60 * 60 * 1000).

Section WithEnv.

Variable env : Env.

(** The verdict of the database on the row to insert: the message of its
    error when it rejects the row (the [CHECK] constraints on
    [stake_amount] and [duration_days] and the foreign key on [users] of
    [001_initial_schema.sql]), [None] when it accepts it. *)
Variable insert_error : CreateInput -> option string.

(** [createCommitment(data)]: the database fills in the identifier. *)
Definition createCommitment (data : CreateInput) : M Commitment :=
  deadline <- calculateDeadline (durationDays data) ;;
  match insert_error data with
  | Some message => throw (JsError ("Failed to create commitment: " ++ message))
  | None =>
      id <- draw_id env ;;
      let row := mkCommitment id (userId data) (topic data) (stakeAmount data)
                              (durationDays data) deadline active at_risk false in
      modify (fun w => with_commitments (commitments w ++ [row]) w) ;;;
      ret row
  end.

End WithEnv.

(** [getCommitmentById(id)]: [null] unless exactly one row has the id. *)
Definition getCommitmentById (id : string) : M (option Commitment) :=
  w <- get_world ;;
  ret (select_commitment id w).

End CommitmentService.

(* ================================================================== *)
(** * More server actions ([actions/exam-actions.ts]) *)
(* ================================================================== *)

Module ExamActions.

Definition set_exam_started (startedAt : Z) (e : Exam) : Exam :=
  mkExam (e_id e) (e_commitment_id e) (e_questions e) in_progress (Some startedAt)
         (e_submitted_at e) (e_overall_score e) (e_passed e) (e_opik_trace_id e).

Definition set_exam_submitted (submittedAt : Z) (e : Exam) : Exam :=
  mkExam (e_id e) (e_commitment_id e) (e_questions e) submitted (e_started_at e)
         (Some submittedAt) (e_overall_score e) (e_passed e) (e_opik_trace_id e).

(** [questions.filter(q => !answeredIds.has(q.id))] for [answeredIds] the
    set of the [question_id]s of [answers]. *)
Definition unanswered_questions (questions : list ExamQuestion)
           (answers : list ExamAnswer) : list ExamQuestion :=
  filter (fun q => negb (existsb (fun a => (a_question_id a =? q_id q)%string)
                                 answers))
         questions.

Section WithEnv.

Variable env : Env.

(** [startExam(examId)] *)
Definition startExam (examId : string) : M (ActionResult Exam) :=
  try_catch
    (match Actions.signed_in_user env with
     | None => fail_with "auth" "You must be signed in" "unauthorized"
     | Some userId =>
         w <- get_world ;;
         match select_exam_with_owner examId w with
         | None => fail_with "examId" "Exam not found" "not_found"
         | Some (exam, owner) =>
             if negb (owner =? userId)%string then
               fail_with "auth" "Access denied" "forbidden"
             else if negb (ExamStatus_eqb (e_status exam) pending) then
               fail_with "exam"
                 ("Cannot start exam with status: "
                  ++ ExamStatus_toString (e_status exam)) "invalid_status"
             else
               startedAt <- Date_now ;;
               modify (fun w =>
                 with_exams (update_where (exam_has_id examId)
                                          (set_exam_started startedAt)
                                          (exams w)) w) ;;;
               w' <- get_world ;;
               match single (filter (exam_has_id examId) (exams w')) with
               | Some updatedExam => ret (Success updatedExam)
               | None => fail_with "server" "Failed to start exam" "database_error"
               end
         end
     end)
    (fun error => fail_with "server" (thrown_message error) "server_error").

(** [submitExam(examId)] *)
Definition submitExam (examId : string) : M (ActionResult Exam) :=
  try_catch
    (match Actions.signed_in_user env with
     | None => fail_with "auth" "You must be signed in" "unauthorized"
     | Some userId =>
         w <- get_world ;;
         match select_exam_with_owner examId w with
         | None => fail_with "examId" "Exam not found" "not_found"
         | Some (exam, owner) =>
             if negb (owner =? userId)%string then
               fail_with "auth" "Access denied" "forbidden"
             else if negb (ExamStatus_eqb (e_status exam) in_progress) then
               fail_with "exam" "Exam is not in progress" "invalid_status"
             else
               let answers := select_answers_of_exam examId w in
               let unanswered := unanswered_questions (e_questions exam) answers in
               if (0 <? List.length unanswered)%nat then
                 fail_with "exam"
                   (Js.nat_toString (List.length unanswered)
                    ++ " question(s) unanswered") "incomplete_exam"
               else
                 submittedAt <- Date_now ;;
                 modify (fun w =>
                   with_exams (update_where (exam_has_id examId)
                                            (set_exam_submitted submittedAt)
                                            (exams w)) w) ;;;
                 w' <- get_world ;;
                 match single (filter (exam_has_id examId) (exams w')) with
                 | Some updatedExam => ret (Success updatedExam)
                 | None => fail_with "server" "Failed to submit exam" "database_error"
                 end
         end
     end)
    (fun error => fail_with "server" (thrown_message error) "server_error").

(** [getExamById(examId)]: the exam, to its owner only. *)
Definition getExamById (examId : string) : M (option Exam) :=
  try_catch
    (match Actions.signed_in_user env with
     | None => ret None
     | Some userId =>
         w <- get_world ;;
         match select_exam_with_owner examId w with
         | None => ret None
         | Some (exam, owner) =>
             if negb (owner =? userId)%string then ret None
             else ret (Some exam)
         end
     end)
    (fun _ => ret None).

End WithEnv.

End ExamActions.

(* ================================================================== *)
(** * Sample data *)
(* ================================================================== *)

Module Sample.

Definition empty_world : World := mkWorld [] [] [] 0 [] 0 0 0 0.

(** A commitment of user [alice] on [Rust ownership], deadline at
    time 1000. *)
Definition commitment (s : CommitmentStatus) (k : StakeStatus) (r : bool) : Commitment :=
  mkCommitment "c1" "alice" "Rust ownership" 50 7 1000 s k r.

Definition world_with (c : Commitment) (t : Z) : World :=
  with_now t (with_commitments [c] empty_world).

(** A fresh commitment, before its deadline. *)
Definition fresh_world : World := world_with (commitment active at_risk false) 500.

(** A commitment completed on its retry, looked at after the deadline. *)
Definition completed_late_world : World := world_with (commitment completed saved true) 2000.

(** ** The generator's collaborators *)

Definition mc_options : list string :=
  ["A) moves the value"; "B) copies the value"; "C) borrows the value";
   "D) drops the value"].

Definition question_json (id type difficulty : string) (extra : list (string * json))
  : json :=
  JObj ([("id", JStr id); ("type", JStr type);
         ("question", JStr "Explain what happens to a value when it is passed by value.");
         ("difficulty", JStr difficulty)] ++ extra).

Definition mc_json (id : string) : json :=
  question_json id "multiple_choice" "intermediate"
    [("options", JArr (map JStr mc_options)); ("correct_answer", JStr "A")].

(** Seven questions as the prompt asks for them: the correct answer of a
    multiple choice question is the letter of an option. *)
Definition exam_json : json :=
  JObj [("questions",
         JArr [mc_json "q1";
               question_json "q2" "short_answer" "intermediate" [];
               question_json "q3" "application" "advanced" [];
               mc_json "q4";
               question_json "q5" "short_answer" "advanced" [];
               question_json "q6" "application" "intermediate" [];
               question_json "q7" "short_answer" "intermediate" []])].

Definition grade_json : json :=
  JObj [("score", JNum (100 # 1)); ("feedback", JStr "Correct.")].

(** The JSON text of a value (numbers are integers here). *)
Fixpoint to_text (j : json) : string :=
  match j with
  | JNull => "null"
  | JBool b => if b then "true" else "false"
  | JNum n => NilZero.string_of_int (Z.to_int (Qnum n))
  | JStr s => Js.dquote ++ s ++ Js.dquote
  | JArr items =>
      "[" ++ (fix go (l : list json) : string :=
                match l with
                | [] => ""
                | x :: r =>
                    to_text x ++ match r with [] => "" | _ => "," ++ go r end
                end) items ++ "]"
  | JObj members =>
      "{" ++ (fix go (l : list (string * json)) : string :=
                match l with
                | [] => ""
                | (k, v) :: r =>
                    Js.dquote ++ k ++ Js.dquote ++ ":" ++ to_text v
                    ++ match r with [] => "" | _ => "," ++ go r end
                end) members ++ "}"
  end.

Definition exam_text : string := to_text exam_json.
Definition grade_text : string := to_text grade_json.

Definition newline : string := String (ascii_of_nat 10) EmptyString.

(** The exam text inside a markdown fence. *)
Definition fenced_exam_text : string :=
  "```json" ++ newline ++ exam_text ++ newline ++ "```".

(** [JSON.parse] on the texts used below: the two JSON texts are parsed
    to their values, any other text is a syntax error. *)
Definition parse (s : string) : string + json :=
  if (s =? exam_text)%string then inr exam_json
  else if (s =? grade_text)%string then inr grade_json
  else inl "Unexpected token".

Definition ids (n : nat) : string := "id-" ++ Js.nat_toString n.

Definition mkSampleEnv (llm : nat -> string -> Prompt -> LlmOutcome) : Env :=
  mkEnv parse (fun _ => "schema issues") llm ids ["key-a"; "key-b"] (Some "alice").

(** An endpoint that answers every request well. *)
Definition env_ok : Env :=
  mkSampleEnv (fun _ _ prompt =>
    match prompt with
    | GenerationPrompt _ _ => Completion (Some fenced_exam_text) (Some 1200)
    | GradingPrompt _ _ => Completion (Some grade_text) (Some 300)
    end).

(** An endpoint whose first answer is not JSON, whose second request is
    rate limited, and which answers well from then on. *)
Definition env_flaky : Env :=
  mkSampleEnv (fun k _ prompt =>
    match k with
    | O => Completion (Some "Sure! Here are your questions.") (Some 40)
    | S O => Rejected "429 rate limit exceeded"
    | _ => match prompt with
           | GenerationPrompt _ _ => Completion (Some exam_text) (Some 1200)
           | GradingPrompt _ _ => Completion (Some grade_text) (Some 300)
           end
    end).

(** An endpoint that times out on every request. *)
Definition env_down : Env :=
  mkSampleEnv (fun _ _ _ => Rejected "Request timeout").

Definition question (id : string) (t : QuestionType) (d : QuestionDifficulty)
  : ExamQuestion :=
  mkExamQuestion id t "Explain what happens to a value when it is passed by value."
    (match t with multiple_choice => Some mc_options | _ => None end)
    (match t with multiple_choice => Some "A" | _ => None end) d.

(** The questions generated from [exam_json] when the first identifier
    drawn for them is number [k]. *)
Definition questions_from (k : nat) : list ExamQuestion :=
  [question (ids k) multiple_choice intermediate;
   question (ids (k + 1)) short_answer intermediate;
   question (ids (k + 2)) application advanced;
   question (ids (k + 3)) multiple_choice intermediate;
   question (ids (k + 4)) short_answer advanced;
   question (ids (k + 5)) application intermediate;
   question (ids (k + 6)) short_answer intermediate].

(** ** Exams *)

(** A pending exam of the sample commitment. *)
Definition pending_exam : Exam :=
  mkExam "e1" "c1" (questions_from 100) pending None None None None None.

(** The fresh commitment, which already has a pending exam. *)
Definition world_with_pending_exam : World :=
  with_exams [pending_exam] fresh_world.

(** A submitted exam with three questions.  The first is answered, the
    answer to the second is white space, the third has no answer. *)
Definition three_questions : list ExamQuestion :=
  [question "q-mc" multiple_choice intermediate;
   question "q-sa" short_answer intermediate;
   question "q-app" application advanced].

Definition submitted_exam : Exam :=
  mkExam "e2" "c1" three_questions submitted (Some 100) (Some 400) None None None.

Definition answer (id question_id text : string) : ExamAnswer :=
  mkExamAnswer id "e2" question_id text None None None None.

Definition two_answers : list ExamAnswer :=
  [answer "a1" "q-mc" "A"; answer "a2" "q-sa" "   "].

Definition world_submitted : World :=
  with_exam_answers two_answers (with_exams [submitted_exam] fresh_world).

(** The exam in progress, where the answer to the first question already
    carries a score and a feedback. *)
Definition exam_in_progress : Exam :=
  mkExam "e2" "c1" three_questions in_progress (Some 100) None None None None.

Definition scored_answer : ExamAnswer :=
  mkExamAnswer "a1" "e2" "q-mc" "A" (Some 40) (Some "Partly right.") (Some 450)
               (Some "span-7").

Definition world_in_progress : World :=
  with_exam_answers [scored_answer; answer "a2" "q-sa" "Because it is moved."]
    (with_exams [exam_in_progress] fresh_world).

(** The submitted exam with every question answered. *)
Definition three_answers : list ExamAnswer :=
  [answer "a1" "q-mc" "A"; answer "a2" "q-sa" "Because it is moved.";
   answer "a3" "q-app" "Pass a reference instead."].

Definition world_answered : World :=
  with_exam_answers three_answers (with_exams [submitted_exam] fresh_world).

End Sample.

(* ================================================================== *)
(** * More sample data *)
(* ================================================================== *)

Module Cases.

Definition commitment_of (id user : string) (deadline : Z)
           (s : CommitmentStatus) (k : StakeStatus) (r : bool) : Commitment :=
  mkCommitment id user "Rust ownership" 50 7 deadline s k r.

(** Four commitments looked at at time 2000: two of alice are active,
    one overdue and one not yet due; one of alice is completed; one of bob
    is active and overdue. *)
Definition four_commitments : list Commitment :=
  [commitment_of "c1" "alice" 1000 active at_risk true;
   commitment_of "c2" "alice" 3000 active at_risk false;
   commitment_of "c3" "alice" 1000 completed saved false;
   commitment_of "c4" "bob" 1000 active at_risk false].

Definition sweep_world : World :=
  with_now 2000 (with_commitments four_commitments Sample.empty_world).

(** The exam in progress with an answer to each of its three questions. *)
Definition world_all_answered : World :=
  with_exam_answers Sample.three_answers
    (with_exams [Sample.exam_in_progress] Sample.fresh_world).

End Cases.

(* ================================================================== *)
(** * Vocabulary of the statements *)
(* ================================================================== *)

(** ** Stake resolution *)

(** Whether the three columns written by [resolveStake] differ from the
    stored ones. *)
Definition resolution_changes (c : Commitment)
           (s : CommitmentStatus) (k : StakeStatus) (r : bool) : bool :=
  negb (CommitmentStatus_eqb s (c_status c))
  || negb (StakeStatus_eqb k (c_stake_status c))
  || negb (Bool.eqb r (c_retry_used c)).


(** ** What a computation leaves alone *)

(** [stable R m]: whatever [m] returns or throws, the world it leaves is
    related by [R] to the world it started in. *)
Definition stable {A} (R : World -> World -> Prop) (m : M A) : Prop :=
  forall w, R w (snd (m w)).

Record Preorder (R : World -> World -> Prop) : Prop := {
  pre_refl : forall w, R w w;
  pre_trans : forall a b c, R a b -> R b c -> R a c
}.

(** The three tables are untouched. *)
Definition same_tables (w w' : World) : Prop :=
  commitments w' = commitments w
  /\ exams w' = exams w
  /\ exam_answers w' = exam_answers w.

(** Nothing is awaited with [delay] and no table is touched. *)
Definition no_wait (w w' : World) : Prop :=
  same_tables w w' /\ delays w' = delays w /\ now w' = now w.

(** No completion request is sent, on top of [no_wait]. *)
Definition no_request (w w' : World) : Prop :=
  no_wait w w' /\ llm_calls w' = llm_calls w.

(** The world after [await delay(ms)]. *)
Definition after_delay (ms : Z) (w : World) : World :=
  with_now (now w + ms) (with_delays (delays w ++ [ms]) w).

(** ** Question generator *)

Section GeneratorVocabulary.

Import Generator.

(** The structure that validation enforces on a returned question set. *)
Definition multiple_choice_ok (q : ExamQuestion) : Prop :=
  exists options answer,
    q_options q = Some options
    /\ List.length options = 4%nat
    /\ q_correct_answer q = Some answer
    /\ answer <> "".

Definition validated_set (qs : list ExamQuestion) : Prop :=
  (5 <= List.length qs <= 10)%nat
  /\ (forall t : QuestionType, exists q, In q qs /\ q_type q = t)
  /\ (forall q, In q qs -> q_type q = multiple_choice -> multiple_choice_ok q).

(** The additional requirement of the specification: the correct answer
    is one of the options. *)
Definition answer_among_options (q : ExamQuestion) : Prop :=
  exists options answer,
    q_options q = Some options
    /\ q_correct_answer q = Some answer
    /\ In answer options.

(** How [transform_question] relates its input and output. *)
Definition transformed (q : LlmQuestion) (q' : ExamQuestion) : Prop :=
  q_type q' = lq_type q
  /\ q_question q' = lq_question q
  /\ q_options q' = (if QuestionType_eqb (lq_type q) multiple_choice
                     then lq_options q else None)
  /\ q_correct_answer q' = (if QuestionType_eqb (lq_type q) multiple_choice
                            then lq_correct_answer q else None)
  /\ q_difficulty q' = lq_difficulty q.

(** The failure raised once the attempts are used up, for a last
    underlying cause [t]. *)
Definition exhausted (t : Thrown) : Thrown :=
  ExamGenerationException
    (mkServiceError MAX_RETRIES_EXCEEDED
       ("Failed to generate exam after 3 attempts. Last error: "
        ++ (if Js.truthy (thrown_message t) then thrown_message t else "Unknown")))
    3.

End GeneratorVocabulary.

(** ** Exam creation *)

(** An exam is unresolved while it is pending, in progress or submitted. *)
Definition unresolved (e : Exam) : bool :=
  match e_status e with
  | pending | in_progress | submitted => true
  | graded | grading_failed => false
  end.

Definition unresolved_exams_of (commitmentId : string) (w : World) : list Exam :=
  filter (fun e => (e_commitment_id e =? commitmentId)%string && unresolved e)
         (exams w).

(** The row inserted for a generated question set, in the world [w1] left
    by the generation. *)
Definition new_exam (env : Env) (commitmentId : string)
           (questions : list ExamQuestion) (w1 : World) : Exam :=
  mkExam (fresh_id env (ids_drawn w1)) commitmentId questions pending
         None None None None None.

Definition after_insert (env : Env) (commitmentId : string)
           (questions : list ExamQuestion) (w1 : World) : World :=
  with_exams (exams w1 ++ [new_exam env commitmentId questions w1])%list
             (with_ids_drawn (S (ids_drawn w1)) w1).

(** ** Grader and grading action *)

Section GraderVocabulary.

Import Grader.

(** Every code unit of the text is white space; the empty text is the
    special case without code units. *)
Definition whitespace_only (s : string) : Prop :=
  forall c, In c (list_ascii_of_string s) -> Js.is_white_space c = true.

(** The mean of the specification: the sum of the scores over their
    number. *)
Definition arithmetic_mean (scores : list Z) : Q :=
  (inject_Z (fold_right Z.add 0%Z scores) / inject_Z (Z.of_nat (List.length scores)))%Q.

(** What the retry loop throws is a [MAX_RETRIES_EXCEEDED] exception. *)
Definition is_exhaustion (t : Thrown) : Prop :=
  exists m, t = GradingException (mkServiceError MAX_RETRIES_EXCEEDED m) maxRetries.

(** What relates a question of the exam and the result at its position. *)
Definition graded_as (answers : list ExamAnswer) (q : ExamQuestion)
           (r : GradeResult) : Prop :=
  Js.blank (userAnswer_of (answerMap_get answers (q_id q))) = true ->
  score r = 0 /\ feedback r = NO_ANSWER.

(** A question is unanswered when no answer carries its identifier, or
    when the answer found for it is empty or white space only. *)
Definition unanswered (answers : list ExamAnswer) (question : ExamQuestion) : Prop :=
  (forall a, In a answers -> a_question_id a <> q_id question)
  \/ (exists a, answerMap_get answers (q_id question) = Some a
                /\ whitespace_only (a_user_answer a)).

(** The tables after the loop that writes the grades back. *)
Definition graded_row (questions : list ExamQuestion) (results : list GradeResult)
           (gradedAt : Z) (answer row : ExamAnswer) : ExamAnswer :=
  match Actions.result_at results (Actions.findIndex questions (a_question_id answer)) with
  | Some result =>
      if answer_has_id (a_id answer) row
      then Actions.set_answer_graded result gradedAt row
      else row
  | None => row
  end.

Definition graded_rows (questions : list ExamQuestion) (results : list GradeResult)
           (gradedAt : Z) (answers : list ExamAnswer) (row : ExamAnswer) : ExamAnswer :=
  fold_left (fun r a => graded_row questions results gradedAt a r) answers row.

(** The errors reported when the grader throws. *)
Definition grading_errors (error : Thrown) : list ValidationError :=
  match error with
  | GradingException e _ =>
      [mkValidationError "grading" (err_message e) (ErrorType_code (err_type e))]
  | _ => [mkValidationError "grading" "Grading failed" "grading_failed"]
  end.

(** The world left by a successful grading action, from the world [w1]
    left by the grader. *)
Definition after_grading (examId : string) (exam : Exam)
           (answers : list ExamAnswer) (r : ExamGradeResult) (w1 : World) : World :=
  with_exam_answers
    (map (graded_rows (e_questions exam) (questionResults r) (now w1) answers)
         (exam_answers w1))
    (with_exams (update_where (exam_has_id examId)
                              (Actions.set_exam_graded r) (exams w1)) w1).

End GraderVocabulary.

(** ** Sentences of the specification, as they are written

    Each of these propositions follows the words of the specification; the
    code does not satisfy them, and each is refuted below at a concrete
    input. *)

(** The commitment [c] as the resolver leaves it for an exam outcome, the
    clock being [t]. *)
Definition resolved (c : Commitment) (examPassed : bool) (t : Z) : Commitment :=
  match resolution_branch c examPassed (c_deadline c <? t) with
  | (s, k, r, _, _) => set_resolution s k r c
  end.

(** A grading that succeeds has resolved the stake of the exam's
    commitment with the pass outcome. *)
Definition spec_grading_resolves_stake : Prop :=
  forall (env : Env) (examId : string) (w : World)
         (r : Grader.ExamGradeResult) (w' : World) (exam : Exam) (c : Commitment),
    Actions.gradeExam env examId w = (Return (Success r), w') ->
    single (filter (exam_has_id examId) (exams w)) = Some exam ->
    select_commitment (e_commitment_id exam) w = Some c ->
    exists t,
      select_commitment (e_commitment_id exam) w'
      = Some (resolved c (Grader.passed r) t).


(** Past the deadline every resolution yields expired/burned. *)
Definition spec_deadline_always_burns : Prop :=
  forall (id : string) (examPassed : bool) (w : World) (c : Commitment),
    select_commitment id w = Some c ->
    c_deadline c < now w ->
    exists r w',
      resolveStake id examPassed w = (Return r, w')
      /\ r_action r = act_burned
      /\ c_status (r_commitment r) = expired
      /\ c_stake_status (r_commitment r) = burned.

(** The correct answer of every generated multiple choice question is
    one of its options. *)
Definition spec_generated_answer_among_options : Prop :=
  forall (env : Env) (topic : string) (n : Z) (w : World)
         (qs : list ExamQuestion) (w' : World),
    Generator.generateExam env topic n w = (Return qs, w') ->
    forall q, In q qs -> q_type q = multiple_choice -> answer_among_options q.

(** Exam creation is rejected while the commitment has an unresolved
    exam. *)
Definition spec_creation_rejected_when_unresolved : Prop :=
  forall (env : Env) (commitmentId : string) (w : World),
    unresolved_exams_of commitmentId w <> [] ->
    exists errors w',
      Actions.generateExam env commitmentId w = (Return (Failure errors), w')
      /\ exams w' = exams w.

(* ================================================================== *)
(** * Vocabulary of the further properties *)
(* ================================================================== *)

(** ** Commitments *)

(** The columns that identify a commitment and that no resolution
    writes. *)
Definition same_terms (c c' : Commitment) : Prop :=
  c_id c' = c_id c
  /\ c_user_id c' = c_user_id c
  /\ c_topic c' = c_topic c
  /\ c_stake_amount c' = c_stake_amount c
  /\ c_duration_days c' = c_duration_days c
  /\ c_deadline c' = c_deadline c.

(** The stake status that goes with each status: at risk while active,
    saved when completed, burned when failed or expired. *)
Definition stake_consistent (c : Commitment) : bool :=
  match c_status c, c_stake_status c with
  | active, at_risk | completed, saved | failed, burned | expired, burned => true
  | _, _ => false
  end.

(** What the sweep does to one row. *)
Definition swept (userId : string) (nowT : Z) (c : Commitment) : Commitment :=
  if overdue_for userId nowT c then set_expired c else c.

(** What the loop does to one row of the table, for the rows [data] it
    runs over. *)
Definition swept_by (data : list Commitment) (x : Commitment) : Commitment :=
  if existsb (fun d => (c_id d =? c_id x)%string) data then set_expired x else x.

(** The row that the branch taken for [c] writes. *)
Definition branch_row (c : Commitment) (passed deadlinePassed : bool) : Commitment :=
  match resolution_branch c passed deadlinePassed with
  | (s, k, r, _, _) => set_resolution s k r c
  end.

(** ** Tables *)

(** The row carries the key [k]. *)
Definition has_key {A} (key : A -> string) (k : string) (r : A) : bool :=
  (key r =? k)%string.

(** ** The exam state machine *)

(** The requests that the exam actions serve. *)
Inductive Request :=
  | Generate (commitmentId : string)
  | Start (examId : string)
  | Answer (examId questionId answer : string)
  | Submit (examId : string)
  | Grade (examId : string).

Definition succeeded {A} (o : Outcome (ActionResult A)) : bool :=
  match o with
  | Return (Success _) => true
  | _ => false
  end.

(** Serving a request: whether the action reported success, and the
    world it leaves. *)
Definition perform (env : Env) (req : Request) (w : World) : bool * World :=
  match req with
  | Generate c =>
      let (o, w') := Actions.generateExam env c w in (succeeded o, w')
  | Start e =>
      let (o, w') := ExamActions.startExam env e w in (succeeded o, w')
  | Answer e q a =>
      let (o, w') := Actions.submitAnswer env e q a w in (succeeded o, w')
  | Submit e =>
      let (o, w') := ExamActions.submitExam env e w in (succeeded o, w')
  | Grade e =>
      let (o, w') := Actions.gradeExam env e w in (succeeded o, w')
  end.

(** Serving requests one after the other. *)
Definition perform_all (env : Env) (reqs : list Request) (w : World) : World :=
  fold_left (fun w req => snd (perform env req w)) reqs w.

(** The owner of what a request is about, when it is stored. *)
Definition owner_of (req : Request) (w : World) : option string :=
  match req with
  | Generate c => option_map c_user_id (select_commitment c w)
  | Start e | Answer e _ _ | Submit e | Grade e =>
      option_map snd (select_exam_with_owner e w)
  end.

(** The transitions of an exam's status. *)
Definition status_next (s s' : ExamStatus) : bool :=
  match s, s' with
  | pending, in_progress | in_progress, submitted
  | submitted, graded | submitted, grading_failed => true
  | _, _ => false
  end.

(** An exam row after a request: same identifier, commitment and
    questions, and a status that is the same or the next one. *)
Definition exam_moves (e e' : Exam) : Prop :=
  e_id e' = e_id e
  /\ e_commitment_id e' = e_commitment_id e
  /\ e_questions e' = e_questions e
  /\ (e' = e \/ status_next (e_status e) (e_status e') = true).

(** The exams after a request: the rows that were there, each moved or
    not, followed by the rows created, each of them pending. *)
Definition exams_step (es es' : list Exam) : Prop :=
  exists kept created,
    es' = (kept ++ created)%list
    /\ Forall2 exam_moves es kept
    /\ Forall (fun e => e_status e = pending) created.

(** A status without transition. *)
Definition terminal (s : ExamStatus) : bool :=
  match s with
  | graded | grading_failed => true
  | _ => false
  end.

(** At most one answer row per pair of exam and question. *)
Definition pairs_unique (w : World) : Prop :=
  forall examId questionId,
    (List.length (Actions.answers_of_pair examId questionId w) <= 1)%nat.

(** The row that a first submission inserts. *)
Definition new_answer (env : Env) (examId questionId text : string) (w : World)
  : ExamAnswer :=
  mkExamAnswer (fresh_id env (ids_drawn w)) examId questionId (Js.trim text)
               None None None None.

(** The answers after a request: every row keeps its exam and question,
    or one row is appended for a pair that had none or several. *)
Definition answers_step (l l' : list ExamAnswer) : Prop :=
  (exists g, (forall x, a_exam_id (g x) = a_exam_id x
                        /\ a_question_id (g x) = a_question_id x)
             /\ l' = map g l)
  \/ (exists row,
        l' = (l ++ [row])%list
        /\ single (filter (fun a => (a_exam_id a =? a_exam_id row)%string
                                    && (a_question_id a =? a_question_id row)%string)
                          l) = None).

(** The order of the statuses: each transition goes up by one, and the
    two final statuses are at the top. *)
Definition status_rank (s : ExamStatus) : nat :=
  match s with
  | pending => 0
  | in_progress => 1
  | submitted => 2
  | graded | grading_failed => 3
  end.

(** Whether the stored exam [examId] has the status [s]. *)
Definition status_is (examId : string) (s : ExamStatus) (w : World) : bool :=
  match select_exam_with_owner examId w with
  | Some (exam, _) => ExamStatus_eqb (e_status exam) s
  | None => false
  end.

(** Whether what a request is about is in the state that the request
    starts from: an active commitment whose deadline has not passed for a
    generation, and the one status of the exam for the others. *)
Definition in_state_for (req : Request) (w : World) : bool :=
  match req with
  | Generate c =>
      match select_commitment c w with
      | Some cm => CommitmentStatus_eqb (c_status cm) active && (now w <=? c_deadline cm)
      | None => false
      end
  | Start e => status_is e pending w
  | Answer e _ _ | Submit e => status_is e in_progress w
  | Grade e => status_is e submitted w
  end.

(** ** The states that the tables go through *)





(** ** Grading *)

(** A result as the grading schema accepts it: a score from 0 to 100
    and a feedback that is not empty. *)
Definition well_scored (r : Grader.GradeResult) : Prop :=
  0 <= Grader.score r <= 100 /\ Grader.feedback r <> "".

(** The questions whose answer goes to the model: those with an answer
    that is not blank. *)
Definition sent_to_model (answers : list ExamAnswer)
           (questions : list ExamQuestion) : list ExamQuestion :=
  filter (fun q =>
            negb (Js.blank (Grader.userAnswer_of
                              (Grader.answerMap_get answers (q_id q)))))
         questions.

(** What the grader throws after its last attempt has thrown [t]. *)
Definition grading_exhausted (t : Thrown) : Thrown :=
  GradingException
    (mkServiceError MAX_RETRIES_EXCEEDED
       ("Failed to grade answer after 3 attempts. Last error: "
        ++ (if Js.truthy (thrown_message t) then thrown_message t else "Unknown")))
    3.

(** ** Generation *)

(** How a returned question comes from the question [lq] of the model's
    answer: the identifier of [lq] when that is a UUID, and one drawn by
    the generator otherwise; the type, text and difficulty of [lq]; its
    options and correct answer when it is a multiple choice question, and
    none otherwise. *)
Definition generated_from (env : Env) (lq : Generator.LlmQuestion)
           (q : ExamQuestion) : Prop :=
  (if Generator.isValidUUID (Generator.lq_id lq)
   then q_id q = Generator.lq_id lq
   else exists k, q_id q = fresh_id env k)
  /\ q_type q = Generator.lq_type lq
  /\ q_question q = Generator.lq_question lq
  /\ q_question q <> ""
  /\ q_difficulty q = Generator.lq_difficulty lq
  /\ q_options q = (if QuestionType_eqb (Generator.lq_type lq) multiple_choice
                    then Generator.lq_options lq else None)
  /\ q_correct_answer q
     = (if QuestionType_eqb (Generator.lq_type lq) multiple_choice
        then Generator.lq_correct_answer lq else None).

(** The returned questions come, one for one and in order, from the
    questions of a completion that the endpoint gave for the prompt. *)
Definition generated_from_completion (env : Env) (topic : string) (n : Z)
           (qs : list ExamQuestion) : Prop :=
  exists (k : nat) (key raw : string) (tokens : option Z) (parsed : json)
         (answered : list Generator.LlmQuestion),
    cerebras_create env k key (GenerationPrompt topic n)
    = Completion (Some raw) tokens
    /\ JSON_parse env (Generator.extract_json raw) = inr parsed
    /\ Generator.parse_response parsed = Some answered
    /\ Forall2 (generated_from env) answered qs.

(** [n] calls of [getNextKey] in a row, and the keys they return. *)
Fixpoint draw_keys (getNextKey : M string) (n : nat) : M (list string) :=
  match n with
  | O => ret []
  | S n' =>
      key <- getNextKey ;;
      keys <- draw_keys getNextKey n' ;;
      ret (key :: keys)
  end.

(* ================================================================== *)
(** * Properties of the stake resolver *)
(* ================================================================== *)

Section StorageFacts.

Context {A : Type}.

Lemma filter_update_where (p : A -> bool) (f : A -> A) (rows : list A) :
  (forall r, p (f r) = p r) ->
  filter p (update_where p f rows) = map f (filter p rows).
Proof.
  intros Hp. unfold update_where.
  induction rows as [|r rows IH]; simpl; [reflexivity|].
  destruct (p r) eqn:E.
  - rewrite Hp, E. simpl. now rewrite IH.
  - rewrite E. exact IH.
Qed.

Lemma single_map (f : A -> A) (rows : list A) (r : A) :
  single rows = Some r -> single (map f rows) = Some (f r).
Proof.
  destruct rows as [|x [|y rows]]; simpl; intros H; try discriminate.
  now inversion H.
Qed.

Lemma single_update_where (p : A -> bool) (f : A -> A) (rows : list A) (r : A) :
  (forall r, p (f r) = p r) ->
  single (filter p rows) = Some r ->
  single (filter p (update_where p f rows)) = Some (f r).
Proof.
  intros Hp H. rewrite filter_update_where by assumption.
  now apply single_map.
Qed.

End StorageFacts.

Lemma CommitmentStatus_eqb_eq (a b : CommitmentStatus) :
  CommitmentStatus_eqb a b = true <-> a = b.
Proof. destruct a, b; simpl; split; intros; congruence. Qed.

Lemma StakeStatus_eqb_eq (a b : StakeStatus) :
  StakeStatus_eqb a b = true <-> a = b.
Proof. destruct a, b; simpl; split; intros; congruence. Qed.

Lemma ExamStatus_eqb_eq (a b : ExamStatus) :
  ExamStatus_eqb a b = true <-> a = b.
Proof. destruct a, b; simpl; split; intros; congruence. Qed.

Lemma QuestionType_eqb_eq (a b : QuestionType) :
  QuestionType_eqb a b = true <-> a = b.
Proof. destruct a, b; simpl; split; intros; congruence. Qed.

Lemma select_commitment_with_now (id : string) (t : Z) (w : World) :
  select_commitment id (with_now t w) = select_commitment id w.
Proof. reflexivity. Qed.

Lemma select_commitment_updated id s k r w c :
  select_commitment id w = Some c ->
  select_commitment id
    (with_commitments
       (update_where (commitment_has_id id) (set_resolution s k r) (commitments w)) w)
  = Some (set_resolution s k r c).
Proof.
  unfold select_commitment. simpl. intros H.
  apply single_update_where; [reflexivity | exact H].
Qed.

(** [resolveStake] unfolded on a stored commitment. *)
Lemma resolveStake_found id passed w c :
  select_commitment id w = Some c ->
  resolveStake id passed w =
  match resolution_branch c passed (c_deadline c <? now w) with
  | (s, k, r, action, msg) =>
      if resolution_changes c s k r
      then (Return (mkStakeResolutionResult (set_resolution s k r c)
                      (c_status c) (c_stake_status c) action msg),
            with_commitments
              (update_where (commitment_has_id id) (set_resolution s k r)
                            (commitments w)) w)
      else (Return (mkStakeResolutionResult c (c_status c) (c_stake_status c)
                      action msg), w)
  end.
Proof.
  intros H. unfold resolveStake, bind, get_world, Date_now. rewrite H.
  destruct (resolution_branch c passed (c_deadline c <? now w))
    as [[[[s k] r] action] msg].
  fold (resolution_changes c s k r).
  destruct (resolution_changes c s k r); [|reflexivity].
  unfold modify, ret. cbv beta iota.
  rewrite (select_commitment_updated id s k r w c H). reflexivity.
Qed.

Lemma resolveStake_not_found id passed w :
  select_commitment id w = None ->
  resolveStake id passed w = (Throw (JsError "Commitment not found"), w).
Proof.
  intros H. unfold resolveStake, bind, get_world. now rewrite H.
Qed.

Lemma set_resolution_same (c : Commitment) :
  set_resolution (c_status c) (c_stake_status c) (c_retry_used c) c = c.
Proof. now destruct c. Qed.

(** C3, as amended: for every ACTIVE commitment and every [passed], when
    the clock is past the deadline [resolveStake] returns action [burned]
    and stores status [expired] and stake status [burned]; the deadline
    rule is tried before the pass rule. *)
Theorem resolveStake_deadline_precedence :
  forall (id : string) (passed : bool) (w : World) (c : Commitment),
    select_commitment id w = Some c ->
    c_status c = active ->
    c_deadline c < now w ->
    exists r w',
      resolveStake id passed w = (Return r, w')
      /\ r_action r = act_burned
      /\ c_status (r_commitment r) = expired
      /\ c_stake_status (r_commitment r) = burned
      /\ c_retry_used (r_commitment r) = c_retry_used c
      /\ select_commitment id w' = Some (r_commitment r).
Proof.
  intros id passed w c Hsel Hact Hlate.
  rewrite (resolveStake_found id passed w c Hsel).
  unfold resolution_branch.
  apply Z.ltb_lt in Hlate. rewrite Hlate, Hact. simpl.
  unfold resolution_changes. rewrite Hact. simpl.
  do 2 eexists. split; [reflexivity|]. simpl.
  repeat split; auto using select_commitment_updated.
Qed.

Lemma resolveStake_deadline_precedence_witness :
  exists r w',
    resolveStake "c1" true
      (Sample.world_with (Sample.commitment active at_risk false) 2000)
    = (Return r, w')
    /\ r_action r = act_burned
    /\ c_status (r_commitment r) = expired
    /\ c_stake_status (r_commitment r) = burned
    /\ c_retry_used (r_commitment r) = false
    /\ select_commitment "c1" w' = Some (r_commitment r).
Proof.
  apply (resolveStake_deadline_precedence "c1" true
           (Sample.world_with (Sample.commitment active at_risk false) 2000)
           (Sample.commitment active at_risk false)).
  - reflexivity.
  - reflexivity.
  - simpl. lia.
Defined.

(** C3, as stated, fails: a commitment that is no longer active is not
    expired by a resolution after its deadline.  Here a completed
    commitment is resolved, past its deadline, with a passing exam: the
    action is [saved] and the status stays [completed], which refutes
    [spec_deadline_always_burns]. *)
Lemma resolveStake_deadline_not_for_every_commitment :
  c_deadline (Sample.commitment completed saved true) < now Sample.completed_late_world
  /\ select_commitment "c1" Sample.completed_late_world
     = Some (Sample.commitment completed saved true)
  /\ resolveStake "c1" true Sample.completed_late_world
     = (Return (mkStakeResolutionResult (Sample.commitment completed saved true)
                  completed saved act_saved
                  "Congratulations! You passed and saved your stake."),
        Sample.completed_late_world)
  /\ ~ spec_deadline_always_burns.
Proof.
  repeat split.
  intros H.
  destruct (H "c1" true Sample.completed_late_world
              (Sample.commitment completed saved true) eq_refl)
    as (r & w' & Hrun & Hact & _).
  - simpl. lia.
  - inversion Hrun; subst r. discriminate.
Qed.





(** C7: on an active commitment whose retry is unused, a failing
    resolution before the deadline returns [retry_allowed], sets
    [retry_used] and leaves status and stake status as they were; a second
    failing resolution before the deadline stores failed/burned. *)
Theorem resolveStake_retry_then_burn :
  forall (id : string) (w : World) (c : Commitment),
    select_commitment id w = Some c ->
    c_status c = active ->
    c_retry_used c = false ->
    now w <= c_deadline c ->
    exists r1 w1,
      resolveStake id false w = (Return r1, w1)
      /\ r_action r1 = act_retry_allowed
      /\ r_commitment r1 = set_resolution (c_status c) (c_stake_status c) true c
      /\ c_retry_used (r_commitment r1) = true
      /\ c_status (r_commitment r1) = c_status c
      /\ c_stake_status (r_commitment r1) = c_stake_status c
      /\ select_commitment id w1 = Some (r_commitment r1)
      /\ forall t, t <= c_deadline c ->
           exists r2 w2,
             resolveStake id false (with_now t w1) = (Return r2, w2)
             /\ r_action r2 = act_burned
             /\ c_status (r_commitment r2) = failed
             /\ c_stake_status (r_commitment r2) = burned
             /\ c_retry_used (r_commitment r2) = true
             /\ select_commitment id w2 = Some (r_commitment r2).
Proof.
  intros id w c Hsel Hact Hretry Hdl.
  destruct c as [cid cu ct ca cd cdl cs ck cr]. simpl in Hact, Hretry, Hdl |- *.
  subst cs cr.
  set (c := mkCommitment cid cu ct ca cd cdl active ck false) in *.
  rewrite (resolveStake_found id false w c Hsel).
  unfold resolution_branch, resolution_changes.
  assert (Hnl : (c_deadline c <? now w) = false) by (apply Z.ltb_ge; simpl; lia).
  rewrite Hnl. simpl.
  assert (Hk : StakeStatus_eqb ck ck = true) by now apply StakeStatus_eqb_eq.
  rewrite Hk. simpl.
  do 2 eexists. split; [reflexivity|]. simpl.
  split; [reflexivity|]. split; [reflexivity|].
  split; [reflexivity|]. split; [reflexivity|]. split; [reflexivity|].
  split; [now apply select_commitment_updated|].
  intros t Ht.
  set (c1 := set_resolution active ck true c).
  set (w1 := with_commitments _ w).
  assert (Hsel1 : select_commitment id (with_now t w1) = Some c1).
  { rewrite select_commitment_with_now. now apply select_commitment_updated. }
  pose proof (select_commitment_updated id failed burned true
                (with_now t w1) c1 Hsel1) as Hsel2.
  rewrite (resolveStake_found id false (with_now t w1) c1 Hsel1).
  unfold resolution_branch, resolution_changes.
  assert (Hnl1 : (c_deadline c1 <? now (with_now t w1)) = false)
    by (apply Z.ltb_ge; simpl; lia).
  rewrite Hnl1. simpl.
  do 2 eexists. split; [reflexivity|]. simpl.
  repeat split.
  exact Hsel2.
Qed.

Lemma resolveStake_retry_then_burn_witness :
  exists r1 w1,
    resolveStake "c1" false Sample.fresh_world = (Return r1, w1)
    /\ r_action r1 = act_retry_allowed
    /\ r_commitment r1 = Sample.commitment active at_risk true
    /\ c_retry_used (r_commitment r1) = true
    /\ c_status (r_commitment r1) = active
    /\ c_stake_status (r_commitment r1) = at_risk
    /\ select_commitment "c1" w1 = Some (r_commitment r1)
    /\ forall t, t <= 1000 ->
         exists r2 w2,
           resolveStake "c1" false (with_now t w1) = (Return r2, w2)
           /\ r_action r2 = act_burned
           /\ c_status (r_commitment r2) = failed
           /\ c_stake_status (r_commitment r2) = burned
           /\ c_retry_used (r_commitment r2) = true
           /\ select_commitment "c1" w2 = Some (r_commitment r2).
Proof.
  apply (resolveStake_retry_then_burn "c1" Sample.fresh_world
           (Sample.commitment active at_risk false)).
  - reflexivity.
  - reflexivity.
  - reflexivity.
  - simpl. lia.
Defined.

(* ================================================================== *)
(** * What a computation leaves alone *)
(* ================================================================== *)

Section Stable.

Variable R : World -> World -> Prop.
Hypothesis HR : Preorder R.

Lemma stable_ret {A} (a : A) : stable R (ret a).
Proof. intros w. apply (pre_refl R HR). Qed.

Lemma stable_throw {A} (t : Thrown) : stable R (@throw A t).
Proof. intros w. apply (pre_refl R HR). Qed.

Lemma stable_get_world : stable R get_world.
Proof. intros w. apply (pre_refl R HR). Qed.

Lemma stable_Date_now : stable R Date_now.
Proof. intros w. apply (pre_refl R HR). Qed.

Lemma stable_bind {A B} (m : M A) (k : A -> M B) :
  stable R m -> (forall a, stable R (k a)) -> stable R (bind m k).
Proof.
  intros Hm Hk w. unfold bind. specialize (Hm w).
  destruct (m w) as [[a|t] w1]; simpl in *.
  - eapply (pre_trans R HR); [exact Hm | apply Hk].
  - exact Hm.
Qed.

Lemma stable_try_catch {A} (m : M A) (h : Thrown -> M A) :
  stable R m -> (forall t, stable R (h t)) -> stable R (try_catch m h).
Proof.
  intros Hm Hh w. unfold try_catch. specialize (Hm w).
  destruct (m w) as [[a|t] w1]; simpl in *.
  - exact Hm.
  - eapply (pre_trans R HR); [exact Hm | apply Hh].
Qed.

Lemma stable_modify (f : World -> World) :
  (forall w, R w (f w)) -> stable R (modify f).
Proof. intros Hf w. apply Hf. Qed.

End Stable.

(** Unfolding [bind] on the primitive computations. *)
Lemma bind_get_world {B} (k : World -> M B) w : bind get_world k w = k w w.
Proof. reflexivity. Qed.

Lemma bind_Date_now {B} (k : Z -> M B) w : bind Date_now k w = k (now w) w.
Proof. reflexivity. Qed.

Lemma bind_ret {A B} (a : A) (k : A -> M B) w : bind (ret a) k w = k a w.
Proof. reflexivity. Qed.

Lemma bind_modify {B} (f : World -> World) (k : unit -> M B) w :
  bind (modify f) k w = k tt (f w).
Proof. reflexivity. Qed.

Lemma bind_throw {A B} (t : Thrown) (k : A -> M B) w :
  bind (throw t) k w = (Throw t, w).
Proof. reflexivity. Qed.

Lemma same_tables_preorder : Preorder same_tables.
Proof.
  split.
  - intros w. repeat split.
  - intros a b c (H1 & H2 & H3) (H4 & H5 & H6).
    repeat split; congruence.
Qed.

Lemma no_wait_preorder : Preorder no_wait.
Proof.
  split.
  - intros w. repeat split.
  - intros a b c (H1 & H2 & H3) (H4 & H5 & H6). split.
    + eapply (pre_trans _ same_tables_preorder); eassumption.
    + split; congruence.
Qed.

Lemma no_request_preorder : Preorder no_request.
Proof.
  split.
  - intros w. repeat split.
  - intros a b c (H1 & H2) (H3 & H4). split.
    + eapply (pre_trans _ no_wait_preorder); eassumption.
    + congruence.
Qed.

Lemma stable_draw_id env : stable no_request (draw_id env).
Proof. intros w. repeat split. Qed.

Lemma stable_delay_tables ms : stable same_tables (delay ms).
Proof. intros w. repeat split. Qed.

Lemma stable_weaken {A} (R R' : World -> World -> Prop) (m : M A) :
  (forall w w', R w w' -> R' w w') -> stable R m -> stable R' m.
Proof. intros H Hm w. apply H, Hm. Qed.

Lemma no_request_no_wait w w' : no_request w w' -> no_wait w w'.
Proof. now intros [H _]. Qed.

Lemma no_wait_same_tables w w' : no_wait w w' -> same_tables w w'.
Proof. now intros [H _]. Qed.

Lemma stable_withSpan {T} R env trace (op : string -> M T) :
  Preorder R -> stable R (draw_id env) ->
  (forall s, stable R (op s)) -> stable R (withSpan env trace op).
Proof.
  intros HR Hd Hop. unfold withSpan.
  apply stable_bind; [exact HR | exact Hd |]. intros s.
  apply stable_bind; [exact HR | apply Hop |]. intros r.
  now apply stable_ret.
Qed.

Lemma stable_withTrace {T} R env (op : string -> M T) :
  Preorder R -> stable R (draw_id env) ->
  (forall s, stable R (op s)) -> stable R (withTrace env op).
Proof.
  intros HR Hd Hop. unfold withTrace.
  apply stable_bind; [exact HR | exact Hd |]. intros s.
  apply stable_bind; [exact HR | apply Hop |]. intros r.
  now apply stable_ret.
Qed.

Lemma stable_chat_completions_create env key prompt :
  stable no_wait (chat_completions_create env key prompt).
Proof.
  intros w. unfold chat_completions_create.
  destruct (cerebras_create env (llm_calls w) key prompt); repeat split.
Qed.

Lemma chat_completions_create_calls env key prompt w :
  llm_calls (snd (chat_completions_create env key prompt w)) = S (llm_calls w).
Proof.
  unfold chat_completions_create.
  now destruct (cerebras_create env (llm_calls w) key prompt).
Qed.

Lemma delay_eq ms w : delay ms w = (Return tt, after_delay ms w).
Proof. reflexivity. Qed.

(* ================================================================== *)
(** * Properties of the question generator *)
(* ================================================================== *)

Module GeneratorFacts.

Import Generator.

Section WithEnv.

Variable env : Env.

Lemma transform_question_spec q w q' w' :
  transform_question env q w = (Return q', w') -> transformed q q'.
Proof.
  unfold transform_question, bind, uuidv4, draw_id, ret.
  destruct (isValidUUID (lq_id q)); intros H; inversion H; subst;
    repeat split.
Qed.

Lemma transform_question_returns q w :
  exists q' w', transform_question env q w = (Return q', w').
Proof.
  unfold transform_question, bind, uuidv4, draw_id, ret.
  destruct (isValidUUID (lq_id q)); do 2 eexists; reflexivity.
Qed.

Lemma transform_questions_spec qs :
  forall w out w',
    transform_questions env qs w = (Return out, w') -> Forall2 transformed qs out.
Proof.
  induction qs as [|q qs IH]; intros w out w' H.
  - inversion H. constructor.
  - simpl in H. unfold bind in H.
    destruct (transform_question env q w) as [[q'|t] w1] eqn:E1; [|discriminate].
    destruct (transform_questions env qs w1) as [[rest|t] w2] eqn:E2; [|discriminate].
    inversion H; subst. constructor.
    + eapply transform_question_spec; eassumption.
    + eapply IH; eassumption.
Qed.

Lemma stable_transform_questions qs : stable no_request (transform_questions env qs).
Proof.
  induction qs as [|q qs IH]; simpl.
  - apply stable_ret, no_request_preorder.
  - apply stable_bind; [apply no_request_preorder | |].
    + unfold transform_question.
      apply stable_bind; [apply no_request_preorder | |].
      * destruct (isValidUUID (lq_id q));
          [apply stable_ret, no_request_preorder | apply stable_draw_id].
      * intros a. apply stable_ret, no_request_preorder.
    + intros a. apply stable_bind; [apply no_request_preorder | exact IH |].
      intros b. apply stable_ret, no_request_preorder.
Qed.

Lemma stable_validateAndTransformResponse raw n :
  stable no_request (validateAndTransformResponse env raw n).
Proof.
  unfold validateAndTransformResponse.
  destruct (JSON_parse env _) as [m|parsed];
    [apply stable_throw, no_request_preorder|].
  destruct (parse_response parsed) as [questions|];
    [|apply stable_throw, no_request_preorder].
  destruct (_ || _); [apply stable_throw, no_request_preorder|].
  destruct (0 <? _)%nat; [apply stable_throw, no_request_preorder|].
  destruct (check_multiple_choice questions);
    [apply stable_throw, no_request_preorder|].
  apply stable_transform_questions.
Qed.

Lemma has_type_In questions t :
  has_type questions t = true ->
  exists q, In q questions /\ lq_type q = t.
Proof.
  unfold has_type. rewrite existsb_exists.
  intros (q & Hin & Heq). exists q. split; [exact Hin|].
  now apply QuestionType_eqb_eq.
Qed.

Lemma check_multiple_choice_None questions :
  check_multiple_choice questions = None ->
  forall q, In q questions -> lq_type q = multiple_choice ->
    exists options answer,
      lq_options q = Some options /\ List.length options = 4%nat
      /\ lq_correct_answer q = Some answer /\ answer <> "".
Proof.
  induction questions as [|x rest IH]; intros H q Hin Hmc; [contradiction|].
  simpl in H.
  destruct (QuestionType_eqb (lq_type x) multiple_choice) eqn:Et.
  - destruct (lq_options x) as [o|] eqn:Eo; [|discriminate].
    destruct (Nat.eqb (List.length o) 4) eqn:El; simpl in H; [|discriminate].
    destruct (lq_correct_answer x) as [a|] eqn:Ea; [|discriminate].
    destruct (Js.truthy a) eqn:Etr; simpl in H; [|discriminate].
    destruct Hin as [<- | Hin]; [|now apply IH].
    exists o, a. repeat split; auto.
    + now apply Nat.eqb_eq.
    + intros ->. discriminate.
  - destruct Hin as [<- | Hin]; [|now apply IH].
    rewrite Hmc in Et. discriminate.
Qed.

Lemma parse_response_length j questions :
  parse_response j = Some questions ->
  (5 <= List.length questions <= 10)%nat.
Proof.
  unfold parse_response.
  destruct j; try discriminate.
  destruct (obj_get "questions" members) as [[]|]; try discriminate.
  destruct (parse_questions items) as [qs|]; [|discriminate].
  destruct ((5 <=? List.length qs)%nat && (List.length qs <=? 10)%nat) eqn:E;
    [|discriminate].
  intros H; inversion H; subst.
  apply andb_prop in E. destruct E as [E1 E2].
  apply Nat.leb_le in E1. apply Nat.leb_le in E2. lia.
Qed.

Lemma Forall2_In_l {A B} (P : A -> B -> Prop) l l' x :
  Forall2 P l l' -> In x l -> exists y, In y l' /\ P x y.
Proof.
  induction 1; intros Hin; [contradiction|].
  destruct Hin as [<- | Hin].
  - eexists; split; [left; reflexivity | assumption].
  - destruct (IHForall2 Hin) as (y' & Hy & HP).
    exists y'. split; [now right | assumption].
Qed.

Lemma Forall2_In_r {A B} (P : A -> B -> Prop) l l' y :
  Forall2 P l l' -> In y l' -> exists x, In x l /\ P x y.
Proof.
  induction 1; intros Hin; [contradiction|].
  destruct Hin as [<- | Hin].
  - eexists; split; [left; reflexivity | assumption].
  - destruct (IHForall2 Hin) as (x' & Hx & HP).
    exists x'. split; [now right | assumption].
Qed.

(** Every question set that [validateAndTransformResponse] returns is
    validated. *)
Lemma validateAndTransformResponse_validated raw n w qs w' :
  validateAndTransformResponse env raw n w = (Return qs, w') ->
  validated_set qs.
Proof.
  unfold validateAndTransformResponse.
  destruct (JSON_parse env _) as [m|parsed]; [discriminate|].
  destruct (parse_response parsed) as [questions|] eqn:Ep; [|discriminate].
  destruct (_ || _); [discriminate|].
  destruct (0 <? _)%nat eqn:Emiss; [discriminate|].
  destruct (check_multiple_choice questions) eqn:Emc; [discriminate|].
  intros H. apply transform_questions_spec in H.
  pose proof (parse_response_length _ _ Ep) as Hlen.
  assert (Htypes : forall t, has_type questions t = true).
  { unfold requiredTypes in Emiss. simpl in Emiss.
    intros t.
    destruct (has_type questions multiple_choice) eqn:E1,
             (has_type questions short_answer) eqn:E2,
             (has_type questions application) eqn:E3;
      simpl in Emiss; try discriminate.
    destruct t; assumption. }
  split; [|split].
  - rewrite <- (Forall2_length H). exact Hlen.
  - intros t. destruct (has_type_In _ _ (Htypes t)) as (q & Hin & Ht).
    destruct (Forall2_In_l _ _ _ _ H Hin) as (q' & Hin' & Htr).
    exists q'. split; [exact Hin'|].
    destruct Htr as (Hty & _). congruence.
  - intros q' Hin' Hmc.
    destruct (Forall2_In_r _ _ _ _ H Hin') as (q & Hin & Htr).
    destruct Htr as (Hty & _ & Ho & Ha & _).
    assert (Hq : lq_type q = multiple_choice) by congruence.
    destruct (check_multiple_choice_None _ Emc q Hin Hq)
      as (o & a & Eo & El & Ea & Hne).
    rewrite Hq in Ho, Ha. simpl in Ho, Ha.
    exists o, a. repeat split; congruence.
Qed.

Lemma attemptGeneration_validated topic n trace attempt w qs w' :
  attemptGeneration env topic n trace attempt w = (Return qs, w') ->
  validated_set qs.
Proof.
  unfold attemptGeneration, bind.
  destruct (getNextKey env w) as [[key|t] w1]; [|discriminate].
  destruct (withSpan env trace _ w1) as [[r|t] w2]; [|discriminate].
  destruct (fst (fst r)) as [content|]; [|discriminate].
  destruct (Js.truthy content); [|discriminate].
  apply validateAndTransformResponse_validated.
Qed.

Lemma retry_loop_S topic n trace remaining attempt lastError :
  retry_loop env topic n trace (S remaining) attempt lastError =
  try_catch
    (attemptGeneration env topic n trace attempt)
    (fun error =>
       (if (attempt <? maxRetries)%nat
        then delay (nth (attempt - 1) backoffMs 0)
        else ret tt) ;;;
       retry_loop env topic n trace remaining (S attempt)
                  (Some (categorizeError error))).
Proof. reflexivity. Qed.

Lemma retry_loop_validated topic n trace remaining :
  forall attempt lastError w qs w',
    retry_loop env topic n trace remaining attempt lastError w = (Return qs, w') ->
    validated_set qs.
Proof.
  induction remaining as [|remaining IH]; intros attempt lastError w qs w' H.
  - discriminate.
  - rewrite retry_loop_S in H. unfold try_catch in H.
    destruct (attemptGeneration env topic n trace attempt w) as [[qs1|t] w1] eqn:E.
    + inversion H; subst. eapply attemptGeneration_validated; eassumption.
    + unfold bind in H.
      destruct (attempt <? maxRetries)%nat;
        [rewrite delay_eq in H | unfold ret in H]; eapply IH; eassumption.
Qed.

Lemma generateExam_validated topic n w qs w' :
  generateExam env topic n w = (Return qs, w') -> validated_set qs.
Proof.
  unfold generateExam.
  destruct (Js.blank topic); [discriminate|].
  destruct ((n <? 5) || (10 <? n)); [discriminate|].
  unfold bind, withTrace, bind.
  destruct (draw_id env w) as [[trace|t] w1]; [|discriminate].
  destruct (generateExamWithRetry env topic n trace w1) as [[qs1|t] w2] eqn:E;
    [|discriminate].
  simpl. intros H; inversion H; subst.
  eapply retry_loop_validated. exact E.
Qed.

End WithEnv.

End GeneratorFacts.

Section GeneratorClaims.

Import Generator GeneratorFacts.

(** C4, as amended: every question set returned by a successful
    generation has between 5 and 10 questions, has at least one question
    of each of the three types, and each of its multiple choice questions
    has exactly 4 options and a non-empty correct answer. *)
Theorem generateExam_returns_validated_set :
  forall (env : Env) (topic : string) (questionCount : Z)
         (w : World) (qs : list ExamQuestion) (w' : World),
    Generator.generateExam env topic questionCount w = (Return qs, w') ->
    (5 <= List.length qs <= 10)%nat
    /\ (exists q, In q qs /\ q_type q = multiple_choice)
    /\ (exists q, In q qs /\ q_type q = short_answer)
    /\ (exists q, In q qs /\ q_type q = application)
    /\ (forall q, In q qs -> q_type q = multiple_choice ->
          exists options answer,
            q_options q = Some options
            /\ List.length options = 4%nat
            /\ q_correct_answer q = Some answer
            /\ answer <> "").
Proof.
  intros env topic n w qs w' H.
  destruct (generateExam_validated env topic n w qs w' H) as (Hlen & Hty & Hmc).
  split; [exact Hlen|].
  split; [apply Hty|]. split; [apply Hty|]. split; [apply Hty|].
  exact Hmc.
Qed.

Lemma generateExam_returns_validated_set_witness :
  (5 <= List.length (Sample.questions_from 2) <= 10)%nat
  /\ (exists q, In q (Sample.questions_from 2) /\ q_type q = multiple_choice)
  /\ (exists q, In q (Sample.questions_from 2) /\ q_type q = short_answer)
  /\ (exists q, In q (Sample.questions_from 2) /\ q_type q = application)
  /\ (forall q, In q (Sample.questions_from 2) -> q_type q = multiple_choice ->
        exists options answer,
          q_options q = Some options
          /\ List.length options = 4%nat
          /\ q_correct_answer q = Some answer
          /\ answer <> "").
Proof.
  apply (generateExam_returns_validated_set Sample.env_ok "Rust ownership" 7
           Sample.fresh_world (Sample.questions_from 2)
           (with_generatorKeyIndex 1
              (with_llm_calls 1 (with_ids_drawn 9 Sample.fresh_world)))).
  vm_compute. reflexivity.
Defined.

(** C4, as stated, fails: nothing checks the correct answer against the
    options.  The generation below succeeds, and its first question is a
    multiple choice question whose correct answer, the letter [A], is
    none of its four options, which refutes
    [spec_generated_answer_among_options]. *)
Lemma generateExam_answer_not_among_options :
  fst (Generator.generateExam Sample.env_ok "Rust ownership" 7 Sample.fresh_world)
  = Return (Sample.questions_from 2)
  /\ In (Sample.question (Sample.ids 2) multiple_choice intermediate)
        (Sample.questions_from 2)
  /\ q_type (Sample.question (Sample.ids 2) multiple_choice intermediate)
     = multiple_choice
  /\ ~ answer_among_options
       (Sample.question (Sample.ids 2) multiple_choice intermediate)
  /\ ~ spec_generated_answer_among_options.
Proof.
  assert (Hnot : ~ answer_among_options
                   (Sample.question (Sample.ids 2) multiple_choice intermediate)).
  { intros (options & answer & Ho & Ha & Hin).
    simpl in Ho, Ha. inversion Ho; subst. inversion Ha; subst.
    simpl in Hin.
    repeat (destruct Hin as [Hin | Hin]; [discriminate|]).
    exact Hin. }
  split; [vm_compute; reflexivity|].
  split; [left; reflexivity|].
  split; [reflexivity|].
  split; [exact Hnot|].
  intros H. apply Hnot.
  apply (H Sample.env_ok "Rust ownership" 7 Sample.fresh_world
           (Sample.questions_from 2)
           (snd (Generator.generateExam Sample.env_ok "Rust ownership" 7
                   Sample.fresh_world))).
  - vm_compute. reflexivity.
  - left. reflexivity.
  - reflexivity.
Qed.

End GeneratorClaims.

(* ================================================================== *)
(** * The retry policy of the generator *)
(* ================================================================== *)

Module RetryFacts.

Import Generator.

Section WithEnv.

Variable env : Env.

Lemma stable_getNextKey : stable no_request (getNextKey env).
Proof.
  intros w. unfold getNextKey. destruct (api_keys env); repeat split.
Qed.

(** One attempt awaits no [delay] and touches no table. *)
Lemma stable_attemptGeneration topic n trace attempt :
  stable no_wait (attemptGeneration env topic n trace attempt).
Proof.
  unfold attemptGeneration.
  apply stable_bind; [apply no_wait_preorder | |].
  - eapply stable_weaken; [apply no_request_no_wait | apply stable_getNextKey].
  - intros key. apply stable_bind; [apply no_wait_preorder | |].
    + apply stable_withSpan; [apply no_wait_preorder | |].
      * eapply stable_weaken; [apply no_request_no_wait | apply stable_draw_id].
      * intros s. apply stable_chat_completions_create.
    + intros r. destruct (fst (fst r)) as [content|];
        [|apply stable_throw, no_wait_preorder].
      destruct (Js.truthy content); [|apply stable_throw, no_wait_preorder].
      eapply stable_weaken;
        [apply no_request_no_wait | apply GeneratorFacts.stable_validateAndTransformResponse].
Qed.

(** One attempt sends at most one completion request. *)
Lemma attemptGeneration_calls topic n trace attempt w :
  (llm_calls (snd (attemptGeneration env topic n trace attempt w))
   <= llm_calls w + 1)%nat.
Proof.
  unfold attemptGeneration, bind.
  pose proof (stable_getNextKey w) as Hk.
  destruct (getNextKey env w) as [[key|t] w1]; simpl in Hk |- *;
    destruct Hk as [_ Hk1]; [|lia].
  unfold withSpan, bind.
  pose proof (stable_draw_id env w1) as Hd.
  destruct (draw_id env w1) as [[s|t] w2]; simpl in Hd |- *;
    destruct Hd as [_ Hd1]; [|lia].
  pose proof (chat_completions_create_calls env key
                (GenerationPrompt topic n) w2) as Hc.
  destruct (chat_completions_create env key (GenerationPrompt topic n) w2)
    as [[r|t] w3]; simpl in Hc |- *; [|lia].
  unfold ret.
  destruct (fst r) as [content|]; simpl; [|unfold throw; simpl; lia].
  destruct (Js.truthy content); [|unfold throw; simpl; lia].
  pose proof (GeneratorFacts.stable_validateAndTransformResponse env content n w3) as Hv.
  destruct Hv as [_ Hv1]. lia.
Qed.

Lemma retry_loop_calls topic n trace remaining :
  forall attempt lastError w,
    (llm_calls (snd (retry_loop env topic n trace remaining attempt lastError w))
     <= llm_calls w + remaining)%nat.
Proof.
  induction remaining as [|remaining IH]; intros attempt lastError w.
  - simpl. lia.
  - rewrite GeneratorFacts.retry_loop_S. unfold try_catch.
    pose proof (attemptGeneration_calls topic n trace attempt w) as Ha.
    destruct (attemptGeneration env topic n trace attempt w) as [[qs|t] w1];
      simpl in Ha |- *; [lia|].
    unfold bind.
    destruct (attempt <? maxRetries)%nat.
    + rewrite delay_eq.
      specialize (IH (S attempt) (Some (categorizeError t)) (after_delay
        (nth (attempt - 1) backoffMs 0) w1)).
      simpl in IH. lia.
    + unfold ret.
      specialize (IH (S attempt) (Some (categorizeError t)) w1). lia.
Qed.

(** The message of a categorized error is the message of what was
    thrown, whatever its category. *)
Lemma categorizeError_message (t : Thrown) :
  err_message (categorizeError t) = thrown_message t.
Proof.
  destruct t as [m | e k | e k]; simpl; try reflexivity;
    repeat match goal with
           | |- context [if ?b then _ else _] => destruct b
           end; reflexivity.
Qed.

Lemma retry_loop_returned topic n trace remaining attempt lastError w qs w1 :
  attemptGeneration env topic n trace attempt w = (Return qs, w1) ->
  retry_loop env topic n trace (S remaining) attempt lastError w = (Return qs, w1).
Proof.
  intros H. rewrite GeneratorFacts.retry_loop_S. unfold try_catch. now rewrite H.
Qed.

Lemma retry_loop_failed topic n trace remaining attempt lastError w t w1 :
  attemptGeneration env topic n trace attempt w = (Throw t, w1) ->
  retry_loop env topic n trace (S remaining) attempt lastError w =
  retry_loop env topic n trace remaining (S attempt) (Some (categorizeError t))
    (if (attempt <? maxRetries)%nat
     then after_delay (nth (attempt - 1) backoffMs 0) w1
     else w1).
Proof.
  intros H. rewrite GeneratorFacts.retry_loop_S. unfold try_catch. rewrite H.
  unfold bind. destruct (attempt <? maxRetries)%nat; reflexivity.
Qed.

Lemma generateExamWithRetry_first topic n trace w qs w1 :
  attemptGeneration env topic n trace 1 w = (Return qs, w1) ->
  generateExamWithRetry env topic n trace w = (Return qs, w1).
Proof. apply retry_loop_returned. Qed.

Lemma generateExamWithRetry_second topic n trace w t1 w1 qs w2 :
  attemptGeneration env topic n trace 1 w = (Throw t1, w1) ->
  attemptGeneration env topic n trace 2 (after_delay 1000 w1) = (Return qs, w2) ->
  generateExamWithRetry env topic n trace w = (Return qs, w2).
Proof.
  intros H1 H2. unfold generateExamWithRetry, maxRetries.
  rewrite (retry_loop_failed _ _ _ _ _ _ _ _ _ H1).
  now apply retry_loop_returned.
Qed.

Lemma generateExamWithRetry_third topic n trace w t1 w1 t2 w2 r w3 :
  attemptGeneration env topic n trace 1 w = (Throw t1, w1) ->
  attemptGeneration env topic n trace 2 (after_delay 1000 w1) = (Throw t2, w2) ->
  attemptGeneration env topic n trace 3 (after_delay 2000 w2) = (r, w3) ->
  generateExamWithRetry env topic n trace w =
  (match r with
   | Return qs => Return qs
   | Throw t3 => Throw (exhausted t3)
   end, w3).
Proof.
  intros H1 H2 H3. unfold generateExamWithRetry, maxRetries.
  rewrite (retry_loop_failed _ _ _ _ _ _ _ _ _ H1).
  change (if (1 <? maxRetries)%nat
          then after_delay (nth (1 - 1) backoffMs 0) w1 else w1)
    with (after_delay 1000 w1).
  rewrite (retry_loop_failed _ _ _ _ _ _ _ _ _ H2).
  change (if (2 <? maxRetries)%nat
          then after_delay (nth (2 - 1) backoffMs 0) w2 else w2)
    with (after_delay 2000 w2).
  destruct r as [qs|t3].
  - now apply retry_loop_returned.
  - rewrite (retry_loop_failed _ _ _ _ _ _ _ _ _ H3).
    unfold retry_loop, throw, exhausted, last_message.
    rewrite categorizeError_message. reflexivity.
Qed.

Lemma attemptGeneration_delays topic n trace attempt w r w' :
  attemptGeneration env topic n trace attempt w = (r, w') ->
  delays w' = delays w.
Proof.
  intros H. pose proof (stable_attemptGeneration topic n trace attempt w) as Hs.
  rewrite H in Hs. simpl in Hs. now destruct Hs as (_ & Hd & _).
Qed.

(** The causes of a failed attempt: each makes [attemptGeneration] throw.
    The request is rejected (time-out, rate limit, any transport error);
    the answer is not JSON; the JSON is rejected by the schema. *)
Lemma attemptGeneration_failure_causes topic n trace attempt w key :
  api_keys env <> [] ->
  key = nth (generatorKeyIndex w) (api_keys env) "" ->
  (forall m,
      cerebras_create env (llm_calls w) key (GenerationPrompt topic n)
      = Rejected m ->
      fst (attemptGeneration env topic n trace attempt w) = Throw (JsError m))
  /\ (forall content tokens m,
        cerebras_create env (llm_calls w) key (GenerationPrompt topic n)
        = Completion (Some content) tokens ->
        content <> "" ->
        JSON_parse env (extract_json content) = inl m ->
        fst (attemptGeneration env topic n trace attempt w)
        = Throw (JsError ("Failed to parse LLM response as JSON: " ++ m)))
  /\ (forall content tokens j,
        cerebras_create env (llm_calls w) key (GenerationPrompt topic n)
        = Completion (Some content) tokens ->
        content <> "" ->
        JSON_parse env (extract_json content) = inr j ->
        parse_response j = None ->
        fst (attemptGeneration env topic n trace attempt w)
        = Throw (JsError ("Invalid exam structure: " ++ zod_message env j))).
Proof.
  intros Hkeys Hkey.
  assert (Hstart :
    attemptGeneration env topic n trace attempt w
    = match cerebras_create env (llm_calls w) key (GenerationPrompt topic n) with
      | Rejected m =>
          (Throw (JsError m),
           with_llm_calls (S (llm_calls w))
             (with_ids_drawn (S (ids_drawn w))
                (with_generatorKeyIndex
                   (Nat.modulo (generatorKeyIndex w + 1)
                               (List.length (api_keys env))) w)))
      | Completion content tokens =>
          match content with
          | None => throw (JsError "Empty response from LLM")
          | Some c =>
              if Js.truthy c
              then validateAndTransformResponse env c n
              else throw (JsError "Empty response from LLM")
          end
            (with_llm_calls (S (llm_calls w))
               (with_ids_drawn (S (ids_drawn w))
                  (with_generatorKeyIndex
                     (Nat.modulo (generatorKeyIndex w + 1)
                                 (List.length (api_keys env))) w)))
      end).
  { unfold attemptGeneration, bind at 1, getNextKey.
    destruct (api_keys env) as [|k0 ks] eqn:Ek; [contradiction|].
    cbv iota beta. unfold bind at 1, withSpan, bind at 1, draw_id.
    cbv iota beta. unfold bind at 1, chat_completions_create.
    cbn [llm_calls with_ids_drawn with_generatorKeyIndex generatorKeyIndex].
    rewrite <- Hkey.
    destruct (cerebras_create env (llm_calls w) key (GenerationPrompt topic n));
      reflexivity. }
  assert (Htruthy : forall c, c <> "" -> Js.truthy c = true).
  { intros c Hc. unfold Js.truthy. apply negb_true_iff. now apply String.eqb_neq. }
  split; [|split].
  - intros m Hm. now rewrite Hstart, Hm.
  - intros content tokens m Hc Hne Hp.
    rewrite Hstart, Hc, (Htruthy _ Hne).
    unfold validateAndTransformResponse. cbv zeta. now rewrite Hp.
  - intros content tokens j Hc Hne Hp Hz.
    rewrite Hstart, Hc, (Htruthy _ Hne).
    unfold validateAndTransformResponse. cbv zeta. now rewrite Hp, Hz.
Qed.

(** The retry loop touches no table. *)
Lemma stable_retry_loop topic n trace remaining :
  forall attempt lastError,
    stable same_tables (retry_loop env topic n trace remaining attempt lastError).
Proof.
  induction remaining as [|remaining IH]; intros attempt lastError.
  - apply stable_throw, same_tables_preorder.
  - rewrite GeneratorFacts.retry_loop_S.
    apply stable_try_catch; [apply same_tables_preorder | |].
    + eapply stable_weaken;
        [apply no_wait_same_tables | apply stable_attemptGeneration].
    + intros t. apply stable_bind; [apply same_tables_preorder | |].
      * destruct (attempt <? maxRetries)%nat;
          [apply stable_delay_tables | apply stable_ret, same_tables_preorder].
      * intros _. apply IH.
Qed.

Lemma stable_generateExam topic n :
  stable same_tables (generateExam env topic n).
Proof.
  unfold generateExam.
  destruct (Js.blank topic); [apply stable_throw, same_tables_preorder|].
  destruct ((n <? 5) || (10 <? n)); [apply stable_throw, same_tables_preorder|].
  apply stable_bind; [apply same_tables_preorder | |].
  - apply stable_withTrace; [apply same_tables_preorder | |].
    + eapply stable_weaken; [|apply stable_draw_id].
      intros w w' H. apply no_wait_same_tables, no_request_no_wait, H.
    + intros trace. apply stable_retry_loop.
  - intros r. apply stable_ret, same_tables_preorder.
Qed.

End WithEnv.

End RetryFacts.

(* ================================================================== *)
(** * The exam creation action *)
(* ================================================================== *)

Module GenerateActionFacts.

Section WithEnv.

Variable env : Env.

(** The action on a commitment that passes every check: it is the
    generation followed by one insertion, and a thrown generation failure
    becomes a [server_error] result. *)
Lemma generateExam_checked commitmentId w c :
  Actions.signed_in_user env = Some (c_user_id c) ->
  Js.truthy commitmentId = true ->
  select_commitment commitmentId w = Some c ->
  c_status c = active ->
  now w <= c_deadline c ->
  Actions.generateExam env commitmentId w =
  match Generator.generateExam env (c_topic c) 7 w with
  | (Return questions, w1) =>
      (Return (Success (new_exam env commitmentId questions w1)),
       after_insert env commitmentId questions w1)
  | (Throw t, w1) =>
      (Return (Failure [mkValidationError "server" (thrown_message t) "server_error"]),
       w1)
  end.
Proof.
  intros Hu Hid Hsel Hact Hdl.
  assert (Hnl : (c_deadline c <? now w) = false) by (apply Z.ltb_ge; lia).
  unfold Actions.generateExam, try_catch. rewrite Hu, Hid. cbn [negb].
  rewrite bind_get_world, Hsel.
  rewrite String.eqb_refl, Hact. cbn [negb CommitmentStatus_eqb].
  rewrite bind_Date_now, Hnl.
  unfold bind at 1.
  destruct (Generator.generateExam env (c_topic c) 7 w) as [[qs|t] w1];
    reflexivity.
Qed.

(** The action rejects, and leaves the world as it is, as soon as one
    check fails. *)
Lemma generateExam_rejected commitmentId w c :
  select_commitment commitmentId w = Some c ->
  Actions.signed_in_user env <> Some (c_user_id c)
  \/ c_status c <> active
  \/ c_deadline c < now w ->
  exists errors,
    Actions.generateExam env commitmentId w = (Return (Failure errors), w).
Proof.
  intros Hsel Hbad.
  unfold Actions.generateExam, try_catch, fail_with.
  destruct (Actions.signed_in_user env) as [u|] eqn:Hu;
    [|eexists; reflexivity].
  destruct (Js.truthy commitmentId); cbn [negb]; [|eexists; reflexivity].
  rewrite bind_get_world, Hsel.
  destruct (c_user_id c =? u)%string eqn:Eu; cbn [negb];
    [|eexists; reflexivity].
  apply String.eqb_eq in Eu.
  destruct (CommitmentStatus_eqb (c_status c) active) eqn:Es; cbn [negb];
    [|eexists; reflexivity].
  apply CommitmentStatus_eqb_eq in Es.
  rewrite bind_Date_now.
  destruct (c_deadline c <? now w) eqn:Ed; [eexists; reflexivity|].
  apply Z.ltb_ge in Ed.
  destruct Hbad as [H | [H | H]].
  - subst u. now elim H.
  - contradiction.
  - lia.
Qed.

(** Only a successful action adds an exam, and it adds exactly one. *)
Lemma generateExam_exams commitmentId w :
  match Actions.generateExam env commitmentId w with
  | (Return (Success e), w') =>
      exams w' = (exams w ++ [e])%list /\ e_status e = pending
      /\ e_commitment_id e = commitmentId
  | (_, w') => exams w' = exams w
  end.
Proof.
  unfold Actions.generateExam, try_catch, fail_with.
  destruct (Actions.signed_in_user env) as [u|]; [|reflexivity].
  destruct (Js.truthy commitmentId); cbn [negb]; [|reflexivity].
  rewrite bind_get_world.
  destruct (select_commitment commitmentId w) as [c|]; [|reflexivity].
  destruct (c_user_id c =? u)%string; cbn [negb]; [|reflexivity].
  destruct (CommitmentStatus_eqb (c_status c) active); cbn [negb]; [|reflexivity].
  rewrite bind_Date_now.
  destruct (c_deadline c <? now w); [reflexivity|].
  unfold bind at 1.
  pose proof (RetryFacts.stable_generateExam env (c_topic c) 7 w) as Hs.
  destruct (Generator.generateExam env (c_topic c) 7 w) as [[qs|t] w1];
    simpl in Hs; destruct Hs as (_ & He & _); simpl.
  - rewrite He. repeat split.
  - exact He.
Qed.

End WithEnv.

End GenerateActionFacts.

Section GenerateActionClaims.

Import GenerateActionFacts.

(** C5, as amended: exam creation is rejected, and creates no exam,
    when the caller is not the signed-in owner of the commitment, when the
    commitment is not active, or when its deadline has passed; an action
    that succeeds adds exactly one pending exam.  The unresolved exams of
    the commitment are not looked at. *)
Theorem generateExam_action_guards :
  forall (env : Env) (commitmentId : string) (w : World) (c : Commitment),
    select_commitment commitmentId w = Some c ->
    (Actions.signed_in_user env <> Some (c_user_id c)
     \/ c_status c <> active
     \/ c_deadline c < now w ->
     exists errors,
       Actions.generateExam env commitmentId w = (Return (Failure errors), w))
    /\ (forall e w',
          Actions.generateExam env commitmentId w = (Return (Success e), w') ->
          exams w' = (exams w ++ [e])%list /\ e_status e = pending
          /\ e_commitment_id e = commitmentId).
Proof.
  intros env commitmentId w c Hsel. split.
  - now apply generateExam_rejected.
  - intros e w' H.
    pose proof (generateExam_exams env commitmentId w) as He.
    now rewrite H in He.
Qed.

Lemma generateExam_action_guards_witness :
  (exists errors,
      Actions.generateExam Sample.env_ok "c1"
        (Sample.world_with (Sample.commitment active at_risk false) 2000)
      = (Return (Failure errors),
         Sample.world_with (Sample.commitment active at_risk false) 2000))
  /\ (exams (snd (Actions.generateExam Sample.env_ok "c1" Sample.fresh_world))
      = (exams Sample.fresh_world
         ++ [mkExam (Sample.ids 9) "c1" (Sample.questions_from 2)
                    pending None None None None None])%list
      /\ e_status (mkExam (Sample.ids 9) "c1" (Sample.questions_from 2)
                          pending None None None None None) = pending
      /\ e_commitment_id (mkExam (Sample.ids 9) "c1" (Sample.questions_from 2)
                                 pending None None None None None) = "c1").
Proof.
  split.
  - apply (proj1 (generateExam_action_guards Sample.env_ok "c1"
                    (Sample.world_with (Sample.commitment active at_risk false) 2000)
                    (Sample.commitment active at_risk false) eq_refl)).
    right. right. simpl. lia.
  - apply (proj2 (generateExam_action_guards Sample.env_ok "c1"
                    Sample.fresh_world
                    (Sample.commitment active at_risk false) eq_refl)).
    vm_compute. reflexivity.
Defined.

(** C5, as stated, fails: the action never looks at the exams of the
    commitment.  On a commitment that already has a pending exam it
    creates a second one, and the commitment then has two unresolved
    exams, which refutes [spec_creation_rejected_when_unresolved]. *)
Lemma generateExam_action_ignores_unresolved_exam :
  unresolved_exams_of "c1" Sample.world_with_pending_exam = [Sample.pending_exam]
  /\ fst (Actions.generateExam Sample.env_ok "c1" Sample.world_with_pending_exam)
     = Return (Success (mkExam (Sample.ids 9) "c1" (Sample.questions_from 2)
                          pending None None None None None))
  /\ unresolved_exams_of "c1"
       (snd (Actions.generateExam Sample.env_ok "c1" Sample.world_with_pending_exam))
     = [Sample.pending_exam;
        mkExam (Sample.ids 9) "c1" (Sample.questions_from 2)
               pending None None None None None]
  /\ ~ spec_creation_rejected_when_unresolved.
Proof.
  assert (Hrun : fst (Actions.generateExam Sample.env_ok "c1"
                        Sample.world_with_pending_exam)
                 = Return (Success (mkExam (Sample.ids 9) "c1"
                                      (Sample.questions_from 2)
                                      pending None None None None None)))
    by (vm_compute; reflexivity).
  split; [reflexivity|]. split; [exact Hrun|].
  split; [vm_compute; reflexivity|].
  intros H.
  destruct (H Sample.env_ok "c1" Sample.world_with_pending_exam)
    as (errors & w' & Hfail & _).
  - discriminate.
  - rewrite Hfail in Hrun. discriminate.
Qed.

End GenerateActionClaims.

Section RetryClaims.

Import RetryFacts GenerateActionFacts.

(** C8: the generator sends at most three completion requests.  Whatever
    is thrown by an attempt, the next attempt is made after a wait of
    1000 ms (after the first) or 2000 ms (after the second); the run
    returns the questions of the first attempt that succeeds, and after
    three failed attempts it throws [MAX_RETRIES_EXCEEDED] with the message
    of the last thing thrown.  A rejected request (time-out, rate limit),
    an answer that is not JSON and a JSON value that the schema rejects
    all make the attempt throw.  When the generation throws, the exam
    creation action fails and leaves the exams as they were. *)
Theorem generation_retry_policy :
  forall (env : Env) (topic : string) (n : Z) (trace : string) (w : World),
    let attempt := Generator.attemptGeneration env topic n trace in
    let run := Generator.generateExamWithRetry env topic n trace w in
    (llm_calls (snd run) <= llm_calls w + 3)%nat
    /\ (forall qs w1,
          attempt 1%nat w = (Return qs, w1) ->
          run = (Return qs, w1) /\ delays w1 = delays w)
    /\ (forall t1 w1 qs w2,
          attempt 1%nat w = (Throw t1, w1) ->
          attempt 2%nat (after_delay 1000 w1) = (Return qs, w2) ->
          run = (Return qs, w2) /\ delays w2 = (delays w ++ [1000])%list)
    /\ (forall t1 w1 t2 w2 qs w3,
          attempt 1%nat w = (Throw t1, w1) ->
          attempt 2%nat (after_delay 1000 w1) = (Throw t2, w2) ->
          attempt 3%nat (after_delay 2000 w2) = (Return qs, w3) ->
          run = (Return qs, w3) /\ delays w3 = (delays w ++ [1000; 2000])%list)
    /\ (forall t1 w1 t2 w2 t3 w3,
          attempt 1%nat w = (Throw t1, w1) ->
          attempt 2%nat (after_delay 1000 w1) = (Throw t2, w2) ->
          attempt 3%nat (after_delay 2000 w2) = (Throw t3, w3) ->
          run = (Throw (exhausted t3), w3)
          /\ delays w3 = (delays w ++ [1000; 2000])%list)
    /\ (forall k key,
          api_keys env <> [] ->
          key = nth (generatorKeyIndex w) (api_keys env) "" ->
          (forall m,
              cerebras_create env (llm_calls w) key (GenerationPrompt topic n)
              = Rejected m ->
              fst (attempt k w) = Throw (JsError m))
          /\ (forall content tokens m,
                cerebras_create env (llm_calls w) key (GenerationPrompt topic n)
                = Completion (Some content) tokens ->
                content <> "" ->
                JSON_parse env (Generator.extract_json content) = inl m ->
                fst (attempt k w)
                = Throw (JsError ("Failed to parse LLM response as JSON: " ++ m)))
          /\ (forall content tokens j,
                cerebras_create env (llm_calls w) key (GenerationPrompt topic n)
                = Completion (Some content) tokens ->
                content <> "" ->
                JSON_parse env (Generator.extract_json content) = inr j ->
                Generator.parse_response j = None ->
                fst (attempt k w)
                = Throw (JsError ("Invalid exam structure: " ++ zod_message env j))))
    /\ (forall commitmentId c t w1,
          Actions.signed_in_user env = Some (c_user_id c) ->
          Js.truthy commitmentId = true ->
          select_commitment commitmentId w = Some c ->
          c_status c = active ->
          now w <= c_deadline c ->
          Generator.generateExam env (c_topic c) 7 w = (Throw t, w1) ->
          Actions.generateExam env commitmentId w
          = (Return (Failure [mkValidationError "server" (thrown_message t)
                                                "server_error"]), w1)
          /\ exams w1 = exams w).
Proof.
  intros env topic n trace w attempt run. subst attempt run.
  split; [apply retry_loop_calls|].
  split.
  { intros qs w1 H1. split.
    - now apply generateExamWithRetry_first.
    - eapply attemptGeneration_delays; eassumption. }
  split.
  { intros t1 w1 qs w2 H1 H2. split.
    - eapply generateExamWithRetry_second; eassumption.
    - rewrite (attemptGeneration_delays _ _ _ _ _ _ _ _ H2). simpl.
      now rewrite (attemptGeneration_delays _ _ _ _ _ _ _ _ H1). }
  split.
  { intros t1 w1 t2 w2 qs w3 H1 H2 H3. split.
    - now rewrite (generateExamWithRetry_third _ _ _ _ _ _ _ _ _ _ _ H1 H2 H3).
    - rewrite (attemptGeneration_delays _ _ _ _ _ _ _ _ H3). simpl.
      rewrite (attemptGeneration_delays _ _ _ _ _ _ _ _ H2). simpl.
      rewrite (attemptGeneration_delays _ _ _ _ _ _ _ _ H1).
      now rewrite <- app_assoc. }
  split.
  { intros t1 w1 t2 w2 t3 w3 H1 H2 H3. split.
    - now rewrite (generateExamWithRetry_third _ _ _ _ _ _ _ _ _ _ _ H1 H2 H3).
    - rewrite (attemptGeneration_delays _ _ _ _ _ _ _ _ H3). simpl.
      rewrite (attemptGeneration_delays _ _ _ _ _ _ _ _ H2). simpl.
      rewrite (attemptGeneration_delays _ _ _ _ _ _ _ _ H1).
      now rewrite <- app_assoc. }
  split.
  { intros k key Hkeys Hkey.
    now apply attemptGeneration_failure_causes. }
  intros commitmentId c t w1 Hu Hid Hsel Hact Hdl Hgen.
  rewrite (generateExam_checked env commitmentId w c Hu Hid Hsel Hact Hdl), Hgen.
  split; [reflexivity|].
  pose proof (stable_generateExam env (c_topic c) 7 w) as Hs.
  rewrite Hgen in Hs. now destruct Hs as (_ & He & _).
Qed.

(** The scenario of the specification: the first answer is not JSON, the
    second request is rate limited, the third answer is a valid set of
    seven questions; and an endpoint that times out three times. *)
Lemma generation_retry_policy_witness :
  (fst (Generator.generateExamWithRetry Sample.env_flaky "Rust ownership" 7
          "trace-0" Sample.fresh_world)
   = Return (Sample.questions_from 3)
   /\ delays (snd (Generator.generateExamWithRetry Sample.env_flaky
                     "Rust ownership" 7 "trace-0" Sample.fresh_world))
      = [1000; 2000])
  /\ (fst (Actions.generateExam Sample.env_down "c1" Sample.fresh_world)
      = Return (Failure
          [mkValidationError "server"
             "Failed to generate exam after 3 attempts. Last error: Request timeout"
             "server_error"])
      /\ exams (snd (Actions.generateExam Sample.env_down "c1" Sample.fresh_world))
         = exams Sample.fresh_world).
Proof.
  split.
  - destruct (generation_retry_policy Sample.env_flaky "Rust ownership" 7
                "trace-0" Sample.fresh_world) as (_ & _ & _ & H3 & _).
    destruct (H3 (JsError "Failed to parse LLM response as JSON: Unexpected token")
                 (snd (Generator.attemptGeneration Sample.env_flaky
                         "Rust ownership" 7 "trace-0" 1 Sample.fresh_world))
                 (JsError "429 rate limit exceeded")
                 (snd (Generator.attemptGeneration Sample.env_flaky
                         "Rust ownership" 7 "trace-0" 2
                         (after_delay 1000
                            (snd (Generator.attemptGeneration Sample.env_flaky
                                    "Rust ownership" 7 "trace-0" 1
                                    Sample.fresh_world)))))
                 (Sample.questions_from 3)
                 (snd (Generator.generateExamWithRetry Sample.env_flaky
                         "Rust ownership" 7 "trace-0" Sample.fresh_world)))
      as [Hrun Hdelays]; try (vm_compute; reflexivity).
    split; [now rewrite Hrun | exact Hdelays].
  - destruct (generation_retry_policy Sample.env_down "Rust ownership" 7
                "trace-0" Sample.fresh_world) as (_ & _ & _ & _ & _ & _ & H5).
    destruct (H5 "c1" (Sample.commitment active at_risk false)
                 (exhausted (JsError "Request timeout"))
                 (snd (Generator.generateExam Sample.env_down "Rust ownership" 7
                         Sample.fresh_world)))
      as [Hact Hexams]; try (vm_compute; reflexivity).
    + simpl. lia.
    + split; [now rewrite Hact | now rewrite Hact].
Defined.

End RetryClaims.

(* ================================================================== *)
(** * Properties of the grader *)
(* ================================================================== *)

Module GraderFacts.

Import Grader.

Lemma trimStart_whitespace_only s :
  whitespace_only s -> Js.trimStart s = "".
Proof.
  induction s as [|c r IH]; intros H; [reflexivity|].
  simpl. rewrite (H c (or_introl eq_refl)).
  apply IH. intros c' Hc'. apply H. now right.
Qed.

Lemma trimEnd_nonempty c r :
  Js.is_white_space c = false -> Js.trimEnd (String c r) <> "".
Proof.
  intros Hc. simpl. destruct (Js.trimEnd r); [rewrite Hc|]; discriminate.
Qed.

Lemma trim_empty_whitespace_only s :
  Js.trim s = "" -> whitespace_only s.
Proof.
  unfold Js.trim. induction s as [|c r IH]; intros H c' Hc'; [contradiction|].
  simpl in H. destruct (Js.is_white_space c) eqn:Ec.
  - destruct Hc' as [<- | Hc']; [exact Ec | now apply IH].
  - exfalso. revert H. now apply trimEnd_nonempty.
Qed.

(** [!s || s.trim().length === 0] holds exactly of the empty and the
    white-space-only texts. *)
Lemma blank_iff s : Js.blank s = true <-> whitespace_only s.
Proof.
  unfold Js.blank. split.
  - intros H. apply orb_prop in H. destruct H as [H | H].
    + unfold Js.truthy in H. apply negb_true_iff, negb_false_iff in H.
      apply String.eqb_eq in H. subst s. intros c [].
    + apply Nat.eqb_eq in H. apply trim_empty_whitespace_only.
      destruct (Js.trim s); [reflexivity | discriminate].
  - intros H. unfold Js.trim. rewrite (trimStart_whitespace_only s H).
    simpl. apply orb_true_r.
Qed.

Lemma fold_left_score_acc results :
  forall acc,
    fold_left (fun sum r => sum + score r) results acc
    = acc + fold_right Z.add 0 (map score results).
Proof.
  induction results as [|r rs IH]; intros acc; simpl; [lia|].
  rewrite IH. lia.
Qed.

Lemma totalScore_sum results :
  totalScore results = fold_right Z.add 0 (map score results).
Proof. unfold totalScore. now rewrite fold_left_score_acc. Qed.

Lemma meanScore_arithmetic_mean results :
  meanScore results = arithmetic_mean (map score results).
Proof.
  unfold meanScore, arithmetic_mean.
  now rewrite totalScore_sum, length_map.
Qed.

(** [Math.round] of a quotient of integers rounds halves up. *)
Lemma Math_round_quotient (t : Z) (n : positive) :
  Js.Math_round (inject_Z t / inject_Z (Zpos n))%Q = (2 * t + Zpos n) / (2 * Zpos n).
Proof.
  unfold Js.Math_round, Qfloor, Qdiv, Qinv, Qmult, Qplus, inject_Z.
  cbn [Qnum Qden]. rewrite ?Pos2Z.inj_mul. f_equal; lia.
Qed.

Section WithEnv.

Variable env : Env.

Lemma stable_grader_getNextKey : stable no_request (getNextKey env).
Proof.
  intros w. unfold getNextKey. destruct (api_keys env); repeat split.
Qed.

Lemma stable_validateGradeResponse raw :
  stable no_request (validateGradeResponse env raw).
Proof.
  unfold validateGradeResponse.
  destruct (JSON_parse env _) as [m|parsed];
    [apply stable_throw, no_request_preorder|].
  destruct (parse_grade parsed);
    [apply stable_ret | apply stable_throw]; apply no_request_preorder.
Qed.

Lemma stable_attemptGrading question userAnswer trace attempt :
  stable no_wait (attemptGrading env question userAnswer trace attempt).
Proof.
  unfold attemptGrading.
  apply stable_bind; [apply no_wait_preorder | |].
  - eapply stable_weaken; [apply no_request_no_wait | apply stable_grader_getNextKey].
  - intros key. apply stable_bind; [apply no_wait_preorder | |].
    + apply stable_withSpan; [apply no_wait_preorder | |].
      * eapply stable_weaken; [apply no_request_no_wait | apply stable_draw_id].
      * intros s. apply stable_chat_completions_create.
    + intros r. destruct (fst (fst r)) as [content|];
        [|apply stable_throw, no_wait_preorder].
      destruct (Js.truthy content); [|apply stable_throw, no_wait_preorder].
      apply stable_bind; [apply no_wait_preorder | |].
      * eapply stable_weaken;
          [apply no_request_no_wait | apply stable_validateGradeResponse].
      * intros d. apply stable_ret, no_wait_preorder.
Qed.

Lemma grading_retry_loop_S question userAnswer trace remaining attempt lastError :
  retry_loop env question userAnswer trace (S remaining) attempt lastError =
  try_catch
    (attemptGrading env question userAnswer trace attempt)
    (fun error =>
       (if (attempt <? maxRetries)%nat
        then delay (nth (attempt - 1) backoffMs 0)
        else ret tt) ;;;
       retry_loop env question userAnswer trace remaining (S attempt)
                  (Some (categorizeError error))).
Proof. reflexivity. Qed.

Lemma stable_grading_retry_loop question userAnswer trace remaining :
  forall attempt lastError,
    stable same_tables
      (retry_loop env question userAnswer trace remaining attempt lastError).
Proof.
  induction remaining as [|remaining IH]; intros attempt lastError.
  - apply stable_throw, same_tables_preorder.
  - rewrite grading_retry_loop_S.
    apply stable_try_catch; [apply same_tables_preorder | |].
    + eapply stable_weaken;
        [apply no_wait_same_tables | apply stable_attemptGrading].
    + intros t. apply stable_bind; [apply same_tables_preorder | |].
      * destruct (attempt <? maxRetries)%nat;
          [apply stable_delay_tables | apply stable_ret, same_tables_preorder].
      * intros _. apply IH.
Qed.

Lemma retry_loop_throws question userAnswer trace remaining :
  forall attempt lastError w t w',
    retry_loop env question userAnswer trace remaining attempt lastError w
    = (Throw t, w') ->
    is_exhaustion t.
Proof.
  induction remaining as [|remaining IH]; intros attempt lastError w t w' H.
  - inversion H. eexists. reflexivity.
  - rewrite grading_retry_loop_S in H. unfold try_catch in H.
    destruct (attemptGrading env question userAnswer trace attempt w)
      as [[r|t1] w1]; [discriminate|].
    unfold bind in H.
    destruct (attempt <? maxRetries)%nat;
      [rewrite delay_eq in H | unfold ret in H]; eapply IH; eassumption.
Qed.

Lemma draw_id_eq w :
  draw_id env w = (Return (fresh_id env (ids_drawn w)),
                   with_ids_drawn (S (ids_drawn w)) w).
Proof. reflexivity. Qed.

(** Grading a question whose answer is missing or blank: the fixed
    result, and a world in which only an identifier has been drawn. *)
Lemma gradeQuestion_blank answers trace question w :
  Js.blank (userAnswer_of (answerMap_get answers (q_id question))) = true ->
  gradeQuestion env answers trace question w
  = (Return (mkGradeResult 0 NO_ANSWER (fresh_id env (ids_drawn w))),
     with_ids_drawn (S (ids_drawn w)) w).
Proof.
  intros H. unfold gradeQuestion, withSpan. rewrite H.
  unfold bind. rewrite draw_id_eq. reflexivity.
Qed.

Lemma stable_gradeQuestion answers trace question :
  stable same_tables (gradeQuestion env answers trace question).
Proof.
  unfold gradeQuestion.
  apply stable_bind; [apply same_tables_preorder | |].
  - apply stable_withSpan; [apply same_tables_preorder | |].
    + eapply stable_weaken; [|apply stable_draw_id].
      intros w w' H. apply no_wait_same_tables, no_request_no_wait, H.
    + intros s. destruct (Js.blank _).
      * apply stable_ret, same_tables_preorder.
      * apply stable_grading_retry_loop.
  - intros r. apply stable_ret, same_tables_preorder.
Qed.

Lemma gradeQuestion_throws answers trace question w t w' :
  gradeQuestion env answers trace question w = (Throw t, w') -> is_exhaustion t.
Proof.
  unfold gradeQuestion, withSpan, bind. rewrite draw_id_eq.
  destruct (Js.blank _); [discriminate|].
  destruct (gradeAnswerWithRetry env question _ trace _) as [[r|t1] w1] eqn:E;
    [discriminate|].
  intros H. inversion H; subst.
  eapply retry_loop_throws. exact E.
Qed.

Lemma gradeQuestions_spec answers trace questions :
  forall w results w',
    gradeQuestions env answers trace questions w = (Return results, w') ->
    Forall2 (graded_as answers) questions results.
Proof.
  induction questions as [|q qs IH]; intros w results w' H.
  - inversion H. constructor.
  - simpl in H. unfold bind in H.
    destruct (gradeQuestion env answers trace q w) as [[r|t] w1] eqn:E1;
      [|discriminate].
    destruct (gradeQuestions env answers trace qs w1) as [[rs|t] w2] eqn:E2;
      [|discriminate].
    inversion H; subst. constructor; [|eapply IH; eassumption].
    intros Hb. rewrite (gradeQuestion_blank _ _ _ _ Hb) in E1.
    inversion E1; subst. split; reflexivity.
Qed.

Lemma gradeQuestions_throws answers trace questions :
  forall w t w',
    gradeQuestions env answers trace questions w = (Throw t, w') ->
    is_exhaustion t.
Proof.
  induction questions as [|q qs IH]; intros w t w' H.
  - discriminate.
  - simpl in H. unfold bind in H.
    destruct (gradeQuestion env answers trace q w) as [[r|t1] w1] eqn:E1.
    + destruct (gradeQuestions env answers trace qs w1) as [[rs|t2] w2] eqn:E2;
        [discriminate|].
      inversion H; subst. eapply IH; eassumption.
    + inversion H; subst. eapply gradeQuestion_throws; eassumption.
Qed.

Lemma stable_gradeQuestions answers trace questions :
  stable same_tables (gradeQuestions env answers trace questions).
Proof.
  induction questions as [|q qs IH]; simpl.
  - apply stable_ret, same_tables_preorder.
  - apply stable_bind; [apply same_tables_preorder | apply stable_gradeQuestion |].
    intros r. apply stable_bind; [apply same_tables_preorder | exact IH |].
    intros rs. apply stable_ret, same_tables_preorder.
Qed.

(** [gradeExam] on an exam with questions and answers: the results of
    the questions, in order, and the score computed from them. *)
Lemma gradeExam_eq exam answers w :
  e_questions exam <> [] -> answers <> [] ->
  gradeExam env exam answers w =
  match gradeQuestions env answers (fresh_id env (ids_drawn w)) (e_questions exam)
          (with_ids_drawn (S (ids_drawn w)) w) with
  | (Return results, w') =>
      (Return (mkExamGradeResult
                 (Js.Math_round (meanScore results))
                 (PASS_THRESHOLD <=? Js.Math_round (meanScore results))
                 results (fresh_id env (ids_drawn w))), w')
  | (Throw t, w') => (Throw t, w')
  end.
Proof.
  intros Hq Ha. unfold gradeExam.
  destruct (e_questions exam) as [|q qs] eqn:Eq; [contradiction|].
  destruct answers as [|a rest]; [contradiction|].
  cbn [List.length Nat.eqb].
  unfold withTrace, gradeExamQuestions, bind. rewrite draw_id_eq, Eq.
  destruct (gradeQuestions env (a :: rest) _ (q :: qs) _) as [[results|t] w'];
    reflexivity.
Qed.

Lemma stable_gradeExam exam answers :
  stable same_tables (gradeExam env exam answers).
Proof.
  unfold gradeExam.
  destruct (Nat.eqb _ 0); [apply stable_throw, same_tables_preorder|].
  destruct (Nat.eqb _ 0); [apply stable_throw, same_tables_preorder|].
  apply stable_bind; [apply same_tables_preorder | |].
  - apply stable_withTrace; [apply same_tables_preorder | |].
    + eapply stable_weaken; [|apply stable_draw_id].
      intros w w' H. apply no_wait_same_tables, no_request_no_wait, H.
    + intros trace. unfold gradeExamQuestions.
      apply stable_bind; [apply same_tables_preorder | apply stable_gradeQuestions |].
      intros rs. apply stable_ret, same_tables_preorder.
  - intros [[[o p] rs] tr]. apply stable_ret, same_tables_preorder.
Qed.

Lemma gradeQuestions_length answers trace questions w results w' :
  gradeQuestions env answers trace questions w = (Return results, w') ->
  List.length results = List.length questions.
Proof.
  intros H. symmetry. eapply Forall2_length.
  eapply gradeQuestions_spec. exact H.
Qed.

Lemma gradeExam_results_length exam answers w r w' :
  gradeExam env exam answers w = (Return r, w') ->
  List.length (questionResults r) = List.length (e_questions exam).
Proof.
  unfold gradeExam.
  destruct (Nat.eqb (List.length (e_questions exam)) 0); [discriminate|].
  destruct (Nat.eqb (List.length answers) 0); [discriminate|].
  unfold withTrace, gradeExamQuestions, bind. rewrite draw_id_eq.
  destruct (gradeQuestions env answers _ (e_questions exam) _)
    as [[results|t] w1] eqn:E; [|discriminate].
  intros H. inversion H; subst. cbn [questionResults].
  eapply gradeQuestions_length. exact E.
Qed.

End WithEnv.

End GraderFacts.

Section GraderClaims.

Import Grader GraderFacts.

(** C6: when [gradeExam] returns for an exam with questions and answers,
    there is one result per question, the overall score is [Math.round] of
    the arithmetic mean of the scores (halves rounded up), and the exam is
    passed exactly when the overall score is at least 70: 70 passes, 69
    fails.  The only other outcome is the [MAX_RETRIES_EXCEEDED] failure of
    a question's grading. *)
Theorem gradeExam_overall_score :
  forall (env : Env) (exam : Exam) (answers : list ExamAnswer) (w : World),
    e_questions exam <> [] ->
    answers <> [] ->
    match Grader.gradeExam env exam answers w with
    | (Return r, _) =>
        let scores := map score (questionResults r) in
        List.length scores = List.length (e_questions exam)
        /\ overallScore r = Js.Math_round (arithmetic_mean scores)
        /\ overallScore r
           = (2 * fold_right Z.add 0 scores + Z.of_nat (List.length scores))
             / (2 * Z.of_nat (List.length scores))
        /\ passed r = (70 <=? overallScore r)
        /\ (overallScore r = 70 -> passed r = true)
        /\ (overallScore r = 69 -> passed r = false)
    | (Throw t, _) => is_exhaustion t
    end.
Proof.
  intros env exam answers w Hq Ha.
  rewrite (gradeExam_eq env exam answers w Hq Ha).
  destruct (gradeQuestions env answers _ (e_questions exam) _)
    as [[results|t] w'] eqn:E.
  - pose proof (gradeQuestions_length _ _ _ _ _ _ _ E) as Hlen.
    cbn [overallScore passed questionResults]. cbv zeta.
    rewrite length_map.
    split; [exact Hlen|].
    split; [now rewrite meanScore_arithmetic_mean|].
    split.
    + unfold meanScore. rewrite totalScore_sum.
      destruct (List.length results) as [|k] eqn:Ek.
      * exfalso. apply Hq. destruct (e_questions exam); [reflexivity|].
        simpl in Hlen. discriminate.
      * change (Z.of_nat (S k)) with (Zpos (Pos.of_succ_nat k)).
        apply Math_round_quotient.
    + split; [reflexivity|].
      unfold PASS_THRESHOLD. split; intros ->; reflexivity.
  - eapply gradeQuestions_throws. exact E.
Qed.

Lemma gradeExam_overall_score_witness :
  fst (Grader.gradeExam Sample.env_ok Sample.submitted_exam Sample.two_answers
         Sample.world_submitted)
  = Return (mkExamGradeResult 33 false
              [mkGradeResult 100 "Correct." (Sample.ids 1);
               mkGradeResult 0 "No answer provided." (Sample.ids 3);
               mkGradeResult 0 "No answer provided." (Sample.ids 4)]
              (Sample.ids 0))
  /\ match Grader.gradeExam Sample.env_ok Sample.submitted_exam Sample.two_answers
             Sample.world_submitted with
     | (Return r, _) =>
         let scores := map score (questionResults r) in
         List.length scores = List.length (e_questions Sample.submitted_exam)
         /\ overallScore r = Js.Math_round (arithmetic_mean scores)
         /\ overallScore r
            = (2 * fold_right Z.add 0 scores + Z.of_nat (List.length scores))
              / (2 * Z.of_nat (List.length scores))
         /\ passed r = (70 <=? overallScore r)
         /\ (overallScore r = 70 -> passed r = true)
         /\ (overallScore r = 69 -> passed r = false)
     | (Throw t, _) => is_exhaustion t
     end.
Proof.
  split; [vm_compute; reflexivity|].
  apply (gradeExam_overall_score Sample.env_ok Sample.submitted_exam
           Sample.two_answers Sample.world_submitted); discriminate.
Defined.

(** The boundary on concrete results: a mean of 69.5 rounds to 70 and
    passes, a mean of 69 and a third rounds to 69 and fails. *)
Example overall_score_boundary :
  Js.Math_round (meanScore [mkGradeResult 69 "" ""; mkGradeResult 70 "" ""]) = 70
  /\ (PASS_THRESHOLD <=? 70) = true
  /\ Js.Math_round (meanScore [mkGradeResult 69 "" ""; mkGradeResult 69 "" "";
                               mkGradeResult 70 "" ""]) = 69
  /\ (PASS_THRESHOLD <=? 69) = false.
Proof. repeat split. Qed.

Lemma unanswered_blank answers question :
  unanswered answers question ->
  Js.blank (userAnswer_of (answerMap_get answers (q_id question))) = true.
Proof.
  intros [Hnone | (a & Hget & Hws)].
  - unfold answerMap_get.
    destruct (find _ (rev answers)) as [a|] eqn:E; [|reflexivity].
    apply find_some in E. destruct E as [Hin Heq].
    apply in_rev in Hin. apply String.eqb_eq in Heq.
    now elim (Hnone a Hin).
  - rewrite Hget. simpl. now apply blank_iff.
Qed.

(** C9: an empty or white-space-only answer, and a question without a
    matching answer, are graded 0 with the feedback [No answer provided.]
    and no completion request is sent: by [gradeAnswer], which leaves the
    world as it is and returns that result for a question that has a
    text; by the grading of one question of an exam; and at the position
    of the question in the results of [gradeExam]. *)
Theorem blank_answer_scores_zero :
  forall (env : Env),
    (forall question userAnswer w,
        whitespace_only userAnswer ->
        snd (Grader.gradeAnswer env question userAnswer w) = w
        /\ (q_question question <> "" ->
            exists r,
              Grader.gradeAnswer env question userAnswer w = (Return r, w)
              /\ score r = 0 /\ feedback r = "No answer provided."))
    /\ (forall answers trace question w,
          unanswered answers question ->
          exists r w',
            Grader.gradeQuestion env answers trace question w = (Return r, w')
            /\ score r = 0 /\ feedback r = "No answer provided."
            /\ llm_calls w' = llm_calls w
            /\ delays w' = delays w)
    /\ (forall exam answers w res w' i question,
          Grader.gradeExam env exam answers w = (Return res, w') ->
          nth_error (e_questions exam) i = Some question ->
          unanswered answers question ->
          exists r,
            nth_error (questionResults res) i = Some r
            /\ score r = 0 /\ feedback r = "No answer provided.").
Proof.
  intros env. split; [|split].
  - intros question userAnswer w Hws.
    apply blank_iff in Hws. unfold gradeAnswer. rewrite Hws. split.
    + destruct (Js.truthy (q_question question)); reflexivity.
    + intros Hq.
      assert (Ht : Js.truthy (q_question question) = true).
      { unfold Js.truthy. apply negb_true_iff.
        now apply String.eqb_neq. }
      rewrite Ht. cbn [negb].
      rewrite bind_Date_now. eexists. split; [reflexivity|]. split; reflexivity.
  - intros answers trace question w Hun.
    rewrite (gradeQuestion_blank env answers trace question w
               (unanswered_blank _ _ Hun)).
    do 2 eexists. split; [reflexivity|]. repeat split.
  - intros exam answers w res w' i question Hgrade Hnth Hun.
    unfold gradeExam in Hgrade.
    destruct (Nat.eqb (List.length (e_questions exam)) 0); [discriminate|].
    destruct (Nat.eqb (List.length answers) 0); [discriminate|].
    unfold withTrace, gradeExamQuestions, bind in Hgrade.
    rewrite draw_id_eq in Hgrade.
    destruct (gradeQuestions env answers _ (e_questions exam) _)
      as [[results|t] w1] eqn:E; [|discriminate].
    inversion Hgrade; subst. cbn [questionResults].
    pose proof (gradeQuestions_spec _ _ _ _ _ _ _ E) as Hall.
    clear E Hgrade. revert i Hnth.
    induction Hall as [|q r qs rs Hqr Hrest IH]; intros i Hnth.
    + destruct i; discriminate.
    + destruct i as [|i]; simpl in Hnth |- *.
      * inversion Hnth; subst. exists r. split; [reflexivity|].
        apply Hqr. now apply unanswered_blank.
      * now apply IH.
Qed.

Lemma blank_answer_scores_zero_witness :
  (snd (Grader.gradeAnswer Sample.env_ok
          (Sample.question "q-sa" short_answer intermediate) "   "
          Sample.world_submitted)
   = Sample.world_submitted
   /\ exists r,
        Grader.gradeAnswer Sample.env_ok
          (Sample.question "q-sa" short_answer intermediate) "   "
          Sample.world_submitted
        = (Return r, Sample.world_submitted)
        /\ score r = 0 /\ feedback r = "No answer provided.")
  /\ (exists r w',
        Grader.gradeQuestion Sample.env_ok Sample.two_answers "trace-0"
          (Sample.question "q-app" application advanced) Sample.world_submitted
        = (Return r, w')
        /\ score r = 0 /\ feedback r = "No answer provided."
        /\ llm_calls w' = llm_calls Sample.world_submitted
        /\ delays w' = delays Sample.world_submitted)
  /\ (exists r,
        nth_error [mkGradeResult 100 "Correct." (Sample.ids 1);
                   mkGradeResult 0 "No answer provided." (Sample.ids 3);
                   mkGradeResult 0 "No answer provided." (Sample.ids 4)] 1
        = Some r
        /\ score r = 0 /\ feedback r = "No answer provided.").
Proof.
  destruct (blank_answer_scores_zero Sample.env_ok) as (H1 & H2 & H3).
  split; [|split].
  - destruct (H1 (Sample.question "q-sa" short_answer intermediate) "   "
                 Sample.world_submitted) as [Hw Hr].
    + intros c Hc. simpl in Hc.
      repeat (destruct Hc as [<- | Hc]; [reflexivity|]). contradiction.
    + split; [exact Hw|]. apply Hr. discriminate.
  - apply H2. left. intros a Ha. simpl in Ha.
    repeat (destruct Ha as [<- | Ha]; [discriminate|]). contradiction.
  - apply (H3 Sample.submitted_exam Sample.two_answers Sample.world_submitted
              (mkExamGradeResult 33 false
                 [mkGradeResult 100 "Correct." (Sample.ids 1);
                  mkGradeResult 0 "No answer provided." (Sample.ids 3);
                  mkGradeResult 0 "No answer provided." (Sample.ids 4)]
                 (Sample.ids 0))
              (snd (Grader.gradeExam Sample.env_ok Sample.submitted_exam
                      Sample.two_answers Sample.world_submitted))
              1%nat (Sample.question "q-sa" short_answer intermediate)).
    + vm_compute. reflexivity.
    + reflexivity.
    + right. exists (Sample.answer "a2" "q-sa" "   "). split; [reflexivity|].
      intros c Hc. simpl in Hc.
      repeat (destruct Hc as [<- | Hc]; [reflexivity|]). contradiction.
Defined.

End GraderClaims.

(* ================================================================== *)
(** * Properties of answer submission *)
(* ================================================================== *)

Module SubmitFacts.

Lemma filter_map_preserved {A} (p : A -> bool) (g : A -> A) (rows : list A) :
  (forall r, p (g r) = p r) ->
  filter p (map g rows) = map g (filter p rows).
Proof.
  intros Hp. induction rows as [|r rows IH]; simpl; [reflexivity|].
  rewrite Hp. destruct (p r); simpl; now rewrite IH.
Qed.

(** Rows with distinct primary keys: the rows that carry the key of a row
    of the table are that row alone. *)
Lemma filter_by_id_unique (rows : list ExamAnswer) (x : ExamAnswer) :
  NoDup (map a_id rows) -> In x rows ->
  filter (answer_has_id (a_id x)) rows = [x].
Proof.
  induction rows as [|r rows IH]; intros Hnd Hin; [contradiction|].
  simpl in Hnd. inversion Hnd as [|? ? Hnotin Hnd']; subst.
  simpl. unfold answer_has_id at 1.
  destruct Hin as [-> | Hin].
  - rewrite String.eqb_refl. f_equal.
    clear IH Hnd Hnd'. induction rows as [|y rows IH]; [reflexivity|].
    simpl. unfold answer_has_id at 1.
    destruct (a_id y =? a_id x)%string eqn:E.
    + apply String.eqb_eq in E. exfalso. apply Hnotin. left. exact E.
    + apply IH. intros H. apply Hnotin. now right.
  - destruct (a_id r =? a_id x)%string eqn:E.
    + apply String.eqb_eq in E. exfalso. apply Hnotin. rewrite E.
      now apply in_map.
    + now apply IH.
Qed.


Section WithEnv.

Variable env : Env.


End WithEnv.

End SubmitFacts.

Section SubmitClaims.

Import SubmitFacts.


End SubmitClaims.

(* ================================================================== *)
(** * Properties of the grading action *)
(* ================================================================== *)

Module GradeActionFacts.

Import Grader SubmitFacts.

Lemma graded_rows_cons questions results t a rest row :
  graded_rows questions results t (a :: rest) row
  = graded_rows questions results t rest (graded_row questions results t a row).
Proof. reflexivity. Qed.

Lemma graded_row_id questions results t a r :
  a_id (graded_row questions results t a r) = a_id r.
Proof.
  unfold graded_row. destruct (Actions.result_at _ _); [|reflexivity].
  now destruct (answer_has_id _ r).
Qed.

Lemma write_grades_eq questions results t answers :
  forall w,
    Actions.write_grades questions results t answers w
    = (Return tt,
       with_exam_answers
         (map (graded_rows questions results t answers) (exam_answers w)) w).
Proof.
  induction answers as [|a rest IH]; intros w.
  - simpl. unfold ret. f_equal. destruct w. unfold with_exam_answers. simpl.
    now rewrite map_id.
  - cbn [Actions.write_grades]. unfold bind at 1.
    assert (Hstep :
      (match Actions.result_at results
               (Actions.findIndex questions (a_question_id a)) with
       | Some result =>
           modify (fun w0 =>
             with_exam_answers
               (update_where (answer_has_id (a_id a))
                             (Actions.set_answer_graded result t)
                             (exam_answers w0)) w0)
       | None => ret tt
       end) w
      = (Return tt,
         with_exam_answers
           (map (graded_row questions results t a) (exam_answers w)) w)).
    { unfold graded_row.
      destruct (Actions.result_at results _) as [result|].
      - reflexivity.
      - unfold ret. f_equal. destruct w. unfold with_exam_answers. simpl.
        now rewrite map_id. }
    rewrite Hstep. rewrite IH.
    f_equal. unfold with_exam_answers. cbn [exam_answers commitments exams now
      delays llm_calls ids_drawn generatorKeyIndex graderKeyIndex].
    f_equal. rewrite map_map. reflexivity.
Qed.

Lemma findIndex_lt questions id i :
  Actions.findIndex questions id = Some i -> (i < List.length questions)%nat.
Proof.
  revert i. induction questions as [|q qs IH]; intros i H; [discriminate|].
  simpl in H. destruct (q_id q =? id)%string.
  - inversion H. simpl. lia.
  - destruct (Actions.findIndex qs id) as [j|]; [|discriminate].
    inversion H. simpl. specialize (IH j eq_refl). lia.
Qed.

Lemma same_id_same_row (rows : list ExamAnswer) (x y : ExamAnswer) :
  NoDup (map a_id rows) -> In x rows -> In y rows -> a_id x = a_id y -> x = y.
Proof.
  intros Hnd Hx Hy Hid.
  pose proof (filter_by_id_unique rows y Hnd Hy) as Hf.
  assert (Hin : In x (filter (answer_has_id (a_id y)) rows)).
  { apply filter_In. split; [exact Hx|].
    unfold answer_has_id. now apply String.eqb_eq. }
  rewrite Hf in Hin. destruct Hin as [H | []]. now symmetry.
Qed.

Lemma graded_row_keys questions results t a r :
  a_exam_id (graded_row questions results t a r) = a_exam_id r
  /\ a_question_id (graded_row questions results t a r) = a_question_id r.
Proof.
  unfold graded_row. destruct (Actions.result_at _ _); [|now split].
  destruct (answer_has_id _ r); now split.
Qed.

Lemma graded_rows_keys questions results t answers :
  forall r,
    a_exam_id (graded_rows questions results t answers r) = a_exam_id r
    /\ a_question_id (graded_rows questions results t answers r) = a_question_id r.
Proof.
  induction answers as [|a rest IH]; intros r; [now split|].
  rewrite graded_rows_cons.
  destruct (IH (graded_row questions results t a r)) as [H1 H2].
  destruct (graded_row_keys questions results t a r) as [H3 H4].
  split; congruence.
Qed.

Section OneRow.

Variables (questions : list ExamQuestion) (results : list GradeResult) (t : Z).
Variables (x : ExamAnswer) (result : GradeResult).

Hypothesis Hres :
  Actions.result_at results (Actions.findIndex questions (a_question_id x))
  = Some result.

Let G := Actions.set_answer_graded result t x.

(** One step of the loop, for an answer that is [x] when it has the key
    of [x]: [x] becomes its graded version [G], and [G] stays. *)
Lemma graded_row_step a :
  (a_id a = a_id x -> a = x) ->
  graded_row questions results t a G = G
  /\ (graded_row questions results t a x = x
      \/ graded_row questions results t a x = G)
  /\ (a = x -> graded_row questions results t a x = G).
Proof.
  intros Huniq. unfold graded_row.
  destruct (Actions.result_at results
              (Actions.findIndex questions (a_question_id a))) as [ra|] eqn:Ea.
  - unfold answer_has_id. change (a_id G) with (a_id x).
    destruct (a_id x =? a_id a)%string eqn:Eid.
    + apply String.eqb_eq in Eid. rewrite (Huniq (eq_sym Eid)) in Ea.
      rewrite Hres in Ea. inversion Ea; subst ra.
      split; [reflexivity|]. split; [now right | reflexivity].
    + split; [reflexivity|]. split; [now left|].
      intros ->. rewrite String.eqb_refl in Eid. discriminate.
  - split; [reflexivity|]. split; [now left|].
    intros ->. rewrite Hres in Ea. discriminate.
Qed.

Lemma graded_rows_stays answers :
  (forall a, In a answers -> a_id a = a_id x -> a = x) ->
  graded_rows questions results t answers G = G.
Proof.
  induction answers as [|a rest IH]; intros Huniq; [reflexivity|].
  rewrite graded_rows_cons.
  destruct (graded_row_step a (Huniq a (or_introl eq_refl))) as [HG _].
  rewrite HG. apply IH. intros a0 H0. apply Huniq. now right.
Qed.

Lemma graded_rows_graded answers :
  (forall a, In a answers -> a_id a = a_id x -> a = x) ->
  In x answers ->
  graded_rows questions results t answers x = G.
Proof.
  induction answers as [|a rest IH]; intros Huniq Hin; [contradiction|].
  rewrite graded_rows_cons.
  assert (Hrest : forall a0, In a0 rest -> a_id a0 = a_id x -> a0 = x)
    by (intros a0 H0; apply Huniq; now right).
  destruct (graded_row_step a (Huniq a (or_introl eq_refl)))
    as (_ & Hx & Hax).
  destruct Hin as [Heq | Hin].
  - rewrite (Hax Heq). now apply graded_rows_stays.
  - destruct Hx as [Hx | Hx]; rewrite Hx.
    + now apply IH.
    + now apply graded_rows_stays.
Qed.

End OneRow.

Section WithEnv.

Variable env : Env.

(** The action past its checks: the grader runs on the stored exam and
    its answers; its result is written back, or the exam is marked
    [grading_failed]. *)
Lemma gradeExam_checked examId w user exam :
  Actions.signed_in_user env = Some user ->
  Js.truthy examId = true ->
  select_exam_with_owner examId w = Some (exam, user) ->
  e_status exam = submitted ->
  Actions.gradeExam env examId w =
  match Grader.gradeExam env exam (select_answers_of_exam examId w) w with
  | (Return r, w1) =>
      (Return (Success r),
       after_grading examId exam (select_answers_of_exam examId w) r w1)
  | (Throw t, w1) =>
      (Return (Failure (grading_errors t)),
       with_exams (update_where (exam_has_id examId)
                                (Actions.set_exam_status grading_failed)
                                (exams w1)) w1)
  end.
Proof.
  intros Hu Hid Hsel Hst.
  unfold Actions.gradeExam. unfold try_catch at 1.
  rewrite Hu, Hid. cbn [negb].
  rewrite bind_get_world, Hsel.
  rewrite String.eqb_refl, Hst. cbn [negb ExamStatus_eqb].
  unfold bind at 1. unfold try_catch. unfold bind at 1.
  destruct (Grader.gradeExam env exam (select_answers_of_exam examId w) w)
    as [[r|t] w1].
  - unfold ret at 1. cbv iota beta.
    rewrite bind_modify, bind_Date_now. unfold bind at 1.
    rewrite write_grades_eq. reflexivity.
  - rewrite bind_modify. unfold ret at 1. cbv iota beta.
    unfold grading_errors. destruct t; reflexivity.
Qed.

(** A successful action has passed every check. *)
Lemma gradeExam_success_checked examId w r w' :
  Actions.gradeExam env examId w = (Return (Success r), w') ->
  exists user exam,
    Actions.signed_in_user env = Some user
    /\ Js.truthy examId = true
    /\ select_exam_with_owner examId w = Some (exam, user)
    /\ e_status exam = submitted.
Proof.
  unfold Actions.gradeExam. unfold try_catch at 1. unfold fail_with.
  destruct (Actions.signed_in_user env) as [u|]; [|discriminate].
  destruct (Js.truthy examId); cbn [negb]; [|discriminate].
  rewrite bind_get_world.
  destruct (select_exam_with_owner examId w) as [[exam owner]|]; [|discriminate].
  destruct (owner =? u)%string eqn:Eo; cbn [negb]; [|discriminate].
  destruct (ExamStatus_eqb (e_status exam) submitted) eqn:Es; cbn [negb];
    [|discriminate].
  intros _. apply String.eqb_eq in Eo. subst owner.
  apply ExamStatus_eqb_eq in Es.
  exists u, exam. repeat split; assumption.
Qed.

End WithEnv.

End GradeActionFacts.

Section GradeActionClaims.

Import Grader GraderFacts SubmitFacts GradeActionFacts.

(** X27: what a grading action that succeeds writes, the answers having
    distinct identifiers: it has found the exam submitted and leaves it
    graded, with the overall score and the pass flag of the result; an
    answer of the exam whose question is one of the exam's questions
    carries the score and feedback of the result at the position of that
    question, and the grading time; the commitments are as they were
    before. *)
Theorem gradeExam_action_writes :
  forall (env : Env) (examId : string) (w : World)
         (r : ExamGradeResult) (w' : World),
    NoDup (map a_id (exam_answers w)) ->
    Actions.gradeExam env examId w = (Return (Success r), w') ->
    exists exam graded_exam,
      single (filter (exam_has_id examId) (exams w)) = Some exam
      /\ e_status exam = submitted
      /\ single (filter (exam_has_id examId) (exams w')) = Some graded_exam
      /\ e_status graded_exam = graded
      /\ e_overall_score graded_exam = Some (overallScore r)
      /\ e_passed graded_exam = Some (passed r)
      /\ (forall a i,
            In a (exam_answers w') ->
            a_exam_id a = examId ->
            Actions.findIndex (e_questions exam) (a_question_id a) = Some i ->
            exists res,
              nth_error (questionResults r) i = Some res
              /\ a_score a = Some (score res)
              /\ a_feedback a = Some (feedback res)
              /\ a_graded_at a = Some (now w'))
      /\ commitments w' = commitments w.
Proof.
  intros env examId w r w' Hnd Hact.
  destruct (gradeExam_success_checked env examId w r w' Hact)
    as (user & exam & Hu & Hid & Hsel & Hst).
  rewrite (gradeExam_checked env examId w user exam Hu Hid Hsel Hst) in Hact.
  pose proof (stable_gradeExam env exam (select_answers_of_exam examId w) w) as Hs.
  pose proof (gradeExam_results_length env exam
                (select_answers_of_exam examId w) w) as Hlen.
  destruct (Grader.gradeExam env exam (select_answers_of_exam examId w) w)
    as [[r1|t] w1]; [|discriminate].
  inversion Hact; subst r1 w'. clear Hact.
  specialize (Hlen r w1 eq_refl).
  simpl in Hs. destruct Hs as (Hc & He & Ha).
  assert (Hexam : single (filter (exam_has_id examId) (exams w)) = Some exam).
  { unfold select_exam_with_owner in Hsel.
    destruct (single (filter (exam_has_id examId) (exams w))) as [e|];
      [|discriminate].
    destruct (single (filter (commitment_has_id (e_commitment_id e))
                             (commitments w))); [|discriminate].
    now inversion Hsel. }
  exists exam, (Actions.set_exam_graded r exam).
  split; [exact Hexam|]. split; [exact Hst|].
  split.
  { unfold after_grading. cbn [exams with_exam_answers with_exams]. rewrite He.
    apply single_update_where; [reflexivity | exact Hexam]. }
  split; [reflexivity|]. split; [reflexivity|]. split; [reflexivity|].
  split; [|exact Hc].
  intros a i Hin Hex Hfind.
  unfold after_grading in Hin |- *.
  cbn [exam_answers with_exam_answers with_exams now] in Hin |- *.
  rewrite Ha in Hin. apply in_map_iff in Hin.
  destruct Hin as (x & Hx & Hxin). subst a.
  destruct (graded_rows_keys (e_questions exam) (questionResults r) (now w1)
              (select_answers_of_exam examId w) x) as [Hk1 Hk2].
  rewrite Hk1 in Hex. rewrite Hk2 in Hfind.
  assert (Hres : exists res, nth_error (questionResults r) i = Some res).
  { destruct (nth_error (questionResults r) i) as [res|] eqn:En;
      [now exists res|].
    apply nth_error_None in En. apply findIndex_lt in Hfind. lia. }
  destruct Hres as [res Hres].
  exists res. split; [exact Hres|].
  assert (Hans : In x (select_answers_of_exam examId w)).
  { unfold select_answers_of_exam. apply filter_In. split; [exact Hxin|].
    now apply String.eqb_eq. }
  rewrite (graded_rows_graded (e_questions exam) (questionResults r) (now w1)
             x res).
  - repeat split.
  - rewrite Hfind. exact Hres.
  - intros a0 Ha0 Hid0.
    unfold select_answers_of_exam in Ha0. apply filter_In in Ha0.
    destruct Ha0 as [Ha0 _].
    now apply (same_id_same_row (exam_answers w)).
  - exact Hans.
Qed.

Lemma gradeExam_action_writes_witness :
  exists exam graded_exam,
    single (filter (exam_has_id "e2") (exams Sample.world_answered)) = Some exam
    /\ e_status exam = submitted
    /\ single (filter (exam_has_id "e2")
                      (exams (snd (Actions.gradeExam Sample.env_ok "e2"
                                     Sample.world_answered))))
       = Some graded_exam
    /\ e_status graded_exam = graded
    /\ e_overall_score graded_exam = Some 100
    /\ e_passed graded_exam = Some true
    /\ (forall a i,
          In a (exam_answers (snd (Actions.gradeExam Sample.env_ok "e2"
                                     Sample.world_answered))) ->
          a_exam_id a = "e2" ->
          Actions.findIndex (e_questions exam) (a_question_id a) = Some i ->
          exists res,
            nth_error [mkGradeResult 100 "Correct." (Sample.ids 1);
                       mkGradeResult 100 "Correct." (Sample.ids 3);
                       mkGradeResult 100 "Correct." (Sample.ids 5)] i = Some res
            /\ a_score a = Some (score res)
            /\ a_feedback a = Some (feedback res)
            /\ a_graded_at a
               = Some (now (snd (Actions.gradeExam Sample.env_ok "e2"
                                   Sample.world_answered))))
    /\ commitments (snd (Actions.gradeExam Sample.env_ok "e2" Sample.world_answered))
       = commitments Sample.world_answered.
Proof.
  apply (gradeExam_action_writes Sample.env_ok "e2" Sample.world_answered
           (mkExamGradeResult 100 true
              [mkGradeResult 100 "Correct." (Sample.ids 1);
               mkGradeResult 100 "Correct." (Sample.ids 3);
               mkGradeResult 100 "Correct." (Sample.ids 5)]
              (Sample.ids 0))
           (snd (Actions.gradeExam Sample.env_ok "e2" Sample.world_answered))).
  - repeat constructor; simpl; intuition discriminate.
  - vm_compute. reflexivity.
Defined.

(** C1: the grading action misses the stake resolution that the claim
    states.  [resolveStake] is written for the purpose but the action
    never calls it: after a grading that succeeds with a passed exam, the
    exam is stored as graded and passed while its commitment is still
    active with its stake at risk, the state it had before the grading; a
    call of [resolveStake] with the pass outcome on that world is what
    completes the commitment and saves the stake.  A graded exam with an
    unresolved stake is there to be read, against
    [spec_grading_resolves_stake]. *)
Lemma gradeExam_action_leaves_stake_unresolved :
  fst (Actions.gradeExam Sample.env_ok "e2" Sample.world_answered)
  = Return (Success (mkExamGradeResult 100 true
                       [mkGradeResult 100 "Correct." (Sample.ids 1);
                        mkGradeResult 100 "Correct." (Sample.ids 3);
                        mkGradeResult 100 "Correct." (Sample.ids 5)]
                       (Sample.ids 0)))
  /\ exams (snd (Actions.gradeExam Sample.env_ok "e2" Sample.world_answered))
     = [mkExam "e2" "c1" Sample.three_questions graded (Some 100) (Some 400)
               (Some 100) (Some true) (Some (Sample.ids 0))]
  /\ select_commitment "c1"
       (snd (Actions.gradeExam Sample.env_ok "e2" Sample.world_answered))
     = Some (Sample.commitment active at_risk false)
  /\ select_commitment "c1" Sample.world_answered
     = Some (Sample.commitment active at_risk false)
  /\ fst (resolveStake "c1" true
            (snd (Actions.gradeExam Sample.env_ok "e2" Sample.world_answered)))
     = Return (mkStakeResolutionResult (Sample.commitment completed saved false)
                 active at_risk act_saved
                 "Congratulations! You passed and saved your stake.")
  /\ ~ spec_grading_resolves_stake.
Proof.
  assert (Hc : select_commitment "c1"
                 (snd (Actions.gradeExam Sample.env_ok "e2" Sample.world_answered))
               = Some (Sample.commitment active at_risk false))
    by (vm_compute; reflexivity).
  split; [vm_compute; reflexivity|].
  split; [vm_compute; reflexivity|].
  split; [exact Hc|].
  split; [reflexivity|].
  split; [vm_compute; reflexivity|].
  intros H.
  destruct (H Sample.env_ok "e2" Sample.world_answered
              (mkExamGradeResult 100 true
                 [mkGradeResult 100 "Correct." (Sample.ids 1);
                  mkGradeResult 100 "Correct." (Sample.ids 3);
                  mkGradeResult 100 "Correct." (Sample.ids 5)]
                 (Sample.ids 0))
              (snd (Actions.gradeExam Sample.env_ok "e2" Sample.world_answered))
              Sample.submitted_exam
              (Sample.commitment active at_risk false)) as [t Ht].
  - vm_compute. reflexivity.
  - reflexivity.
  - reflexivity.
  - change (e_commitment_id Sample.submitted_exam) with "c1" in Ht.
    rewrite Hc in Ht. inversion Ht as [Hres].
    unfold resolved, resolution_branch in Hres.
    destruct (c_deadline (Sample.commitment active at_risk false) <? t);
      discriminate Hres.
Qed.

End GradeActionClaims.

(* ================================================================== *)
(** * Further properties of stake resolution *)
(* ================================================================== *)

Module StakeFacts.

Section Keys.

Context {A : Type} (key : A -> string).

(** Rows with distinct keys: the rows that carry the key of a row of the
    table are that row alone. *)
Lemma filter_by_key_unique (rows : list A) (x : A) :
  NoDup (map key rows) -> In x rows ->
  filter (has_key key (key x)) rows = [x].
Proof.
  induction rows as [|r rows IH]; intros Hnd Hin; [contradiction|].
  simpl in Hnd. inversion Hnd as [|? ? Hnotin Hnd']; subst.
  simpl. unfold has_key at 1.
  destruct Hin as [-> | Hin].
  - rewrite String.eqb_refl. f_equal.
    clear IH Hnd Hnd'. induction rows as [|y rows IH]; [reflexivity|].
    simpl. unfold has_key at 1.
    destruct (key y =? key x)%string eqn:E.
    + apply String.eqb_eq in E. exfalso. apply Hnotin. left. exact E.
    + apply IH. intros H. apply Hnotin. now right.
  - destruct (key r =? key x)%string eqn:E.
    + apply String.eqb_eq in E. exfalso. apply Hnotin. rewrite E.
      now apply in_map.
    + now apply IH.
Qed.

Lemma same_key_same_row (rows : list A) (x y : A) :
  NoDup (map key rows) -> In x rows -> In y rows -> key x = key y -> x = y.
Proof.
  intros Hnd Hx Hy Hid.
  pose proof (filter_by_key_unique rows y Hnd Hy) as Hf.
  assert (Hin : In x (filter (has_key key (key y)) rows)).
  { apply filter_In. split; [exact Hx|].
    unfold has_key. now apply String.eqb_eq. }
  rewrite Hf in Hin. destruct Hin as [H | []]. now symmetry.
Qed.

(** When exactly one row has the key, it is the only row that a filter
    on the key lets through. *)
Lemma single_filter_only (k : string) (rows : list A) (x r : A) :
  single (filter (has_key key k) rows) = Some x ->
  In r rows -> has_key key k r = true -> r = x.
Proof.
  intros Hs Hin Hk.
  assert (Hf : In r (filter (has_key key k) rows)) by (apply filter_In; now split).
  destruct (filter (has_key key k) rows) as [|y [|z l]]; try discriminate.
  inversion Hs; subst. destruct Hf as [H | []]. now symmetry.
Qed.

Lemma filter_none (k : string) (rows : list A) :
  (forall r, In r rows -> key r <> k) -> filter (has_key key k) rows = [].
Proof.
  induction rows as [|r rows IH]; intros H; [reflexivity|].
  simpl. unfold has_key at 1.
  destruct (key r =? k)%string eqn:E.
  - apply String.eqb_eq in E. elim (H r (or_introl eq_refl) E).
  - apply IH. intros r0 Hr0. apply H. now right.
Qed.

End Keys.

Lemma Forall2_map_same {A} (P : A -> A -> Prop) (g : A -> A) (l : list A) :
  (forall x, In x l -> P x (g x)) -> Forall2 P l (map g l).
Proof.
  induction l as [|x l IH]; intros H; simpl; constructor.
  - apply H. now left.
  - apply IH. intros y Hy. apply H. now right.
Qed.

Lemma Forall2_refl_on {A} (P : A -> A -> Prop) (l : list A) :
  (forall x, In x l -> P x x) -> Forall2 P l l.
Proof.
  intros H. rewrite <- (map_id l) at 2. now apply Forall2_map_same.
Qed.

Lemma branch_row_terms c passed d : same_terms c (branch_row c passed d).
Proof.
  unfold branch_row. destruct (resolution_branch c passed d) as [[[[s k] r] a] m].
  repeat split.
Qed.

Lemma branch_row_retry c passed d :
  c_retry_used c = true -> c_retry_used (branch_row c passed d) = true.
Proof.
  intros H. unfold branch_row, resolution_branch.
  destruct (d && CommitmentStatus_eqb (c_status c) active); [exact H|].
  destruct passed; [exact H|].
  rewrite H. reflexivity.
Qed.

Lemma branch_row_consistent c passed d :
  stake_consistent c = true -> stake_consistent (branch_row c passed d) = true.
Proof.
  intros H. unfold branch_row, resolution_branch.
  destruct (d && CommitmentStatus_eqb (c_status c) active); [reflexivity|].
  destruct passed; [reflexivity|].
  destruct (c_retry_used c); [reflexivity|]. exact H.
Qed.

(** The table that [resolveStake] leaves: the row with the identifier is
    replaced by what its branch writes, when exactly one row has it. *)
Lemma resolveStake_table id passed w :
  let w' := snd (resolveStake id passed w) in
  exams w' = exams w
  /\ exam_answers w' = exam_answers w
  /\ now w' = now w
  /\ match select_commitment id w with
     | Some c =>
         commitments w'
         = map (fun r => if commitment_has_id id r
                         then branch_row c passed (c_deadline c <? now w)
                         else r) (commitments w)
     | None => commitments w' = commitments w
     end.
Proof.
  destruct (select_commitment id w) as [c|] eqn:Hsel.
  - rewrite (resolveStake_found id passed w c Hsel).
    unfold branch_row.
    destruct (resolution_branch c passed (c_deadline c <? now w))
      as [[[[s k] r] a] m] eqn:Eb.
    destruct (resolution_changes c s k r) eqn:Ec; cbn [snd].
    + repeat split. cbn [commitments with_commitments].
      unfold update_where. apply map_ext_in.
      intros x Hx. destruct (commitment_has_id id x) eqn:Ex; [|reflexivity].
      unfold select_commitment in Hsel.
      now rewrite (single_filter_only c_id id _ c x Hsel Hx Ex).
    + repeat split.
      unfold resolution_changes in Ec.
      apply orb_false_elim in Ec. destruct Ec as [Ec Er].
      apply orb_false_elim in Ec. destruct Ec as [Es Ek].
      apply negb_false_iff in Es, Ek, Er.
      apply CommitmentStatus_eqb_eq in Es. apply StakeStatus_eqb_eq in Ek.
      apply Bool.eqb_prop in Er. subst s k r.
      rewrite <- (map_id (commitments w)) at 1.
      apply map_ext_in.
      intros x Hx. destruct (commitment_has_id id x) eqn:Ex; [|reflexivity].
      unfold select_commitment in Hsel.
      rewrite (single_filter_only c_id id _ c x Hsel Hx Ex).
      symmetry. apply set_resolution_same.
  - rewrite (resolveStake_not_found id passed w Hsel). repeat split.
Qed.

End StakeFacts.

Section StakeProperties.

Import StakeFacts.

(** X1: [resolveStake] writes nothing but the status, the stake status
    and the retry flag of the commitment it is called for: the exams, the
    answers and every other commitment are left as they are, and the
    identifier, owner, topic, stake amount, duration and deadline of every
    commitment are kept. *)
Theorem resolveStake_writes_one_commitment :
  forall (id : string) (passed : bool) (w : World),
    let w' := snd (resolveStake id passed w) in
    exams w' = exams w
    /\ exam_answers w' = exam_answers w
    /\ Forall2 (fun c c' => same_terms c c' /\ (c_id c <> id -> c' = c))
               (commitments w) (commitments w').
Proof.
  intros id passed w.
  destruct (resolveStake_table id passed w) as (He & Ha & _ & Hc).
  split; [exact He|]. split; [exact Ha|].
  destruct (select_commitment id w) as [c|] eqn:Hsel.
  - rewrite Hc. apply Forall2_map_same. intros x Hx.
    destruct (commitment_has_id id x) eqn:Ex.
    + unfold select_commitment in Hsel.
      rewrite <- (single_filter_only c_id id _ c x Hsel Hx Ex).
      split; [apply branch_row_terms|].
      intros Hne. unfold commitment_has_id in Ex.
      apply String.eqb_eq in Ex. contradiction.
    + split; [repeat split | reflexivity].
  - rewrite Hc. apply Forall2_refl_on. intros x _.
    split; [repeat split | reflexivity].
Qed.

(** X2: [resolveStake] never resets the retry flag, and it keeps the
    stake status in step with the status: when every stored commitment
    has the stake status of its status (at risk while active, saved when
    completed, burned when failed or expired), so has every commitment
    afterwards. *)
Theorem resolveStake_keeps_retry_and_consistency :
  forall (id : string) (passed : bool) (w : World),
    let w' := snd (resolveStake id passed w) in
    Forall2 (fun c c' => c_retry_used c = true -> c_retry_used c' = true)
            (commitments w) (commitments w')
    /\ (forallb stake_consistent (commitments w) = true ->
        forallb stake_consistent (commitments w') = true).
Proof.
  intros id passed w.
  destruct (resolveStake_table id passed w) as (_ & _ & _ & Hc).
  destruct (select_commitment id w) as [c|] eqn:Hsel; cbv zeta; rewrite Hc.
  - split.
    + apply Forall2_map_same. intros x Hx.
      destruct (commitment_has_id id x) eqn:Ex; [|auto].
      unfold select_commitment in Hsel.
      rewrite <- (single_filter_only c_id id _ c x Hsel Hx Ex).
      apply branch_row_retry.
    + intros Hall. rewrite forallb_forall in Hall |- *.
      intros y Hy. apply in_map_iff in Hy. destruct Hy as (x & <- & Hx).
      destruct (commitment_has_id id x) eqn:Ex; [|now apply Hall].
      unfold select_commitment in Hsel.
      rewrite <- (single_filter_only c_id id _ c x Hsel Hx Ex).
      apply branch_row_consistent. now apply Hall.
  - split; [|auto]. apply Forall2_refl_on. auto.
Qed.

Lemma resolveStake_keeps_retry_and_consistency_witness :
  Forall2 (fun c c' => c_retry_used c = true -> c_retry_used c' = true)
          (commitments Sample.fresh_world)
          (commitments (snd (resolveStake "c1" false Sample.fresh_world)))
  /\ forallb stake_consistent
       (commitments (snd (resolveStake "c1" false Sample.fresh_world))) = true.
Proof.
  destruct (resolveStake_keeps_retry_and_consistency "c1" false Sample.fresh_world)
    as [H1 H2].
  split; [exact H1 | apply H2; reflexivity].
Defined.

(** X3: every resolution that returns reports an action other than
    [no_change], and the action tells what is stored: [saved] goes with
    completed/saved, [burned] with a burned stake of a failed or expired
    commitment, [retry_allowed] with the retry flag set and status and
    stake status as before. *)
Theorem resolveStake_action_tells_outcome :
  forall (id : string) (passed : bool) (w : World)
         (r : StakeResolutionResult) (w' : World),
    resolveStake id passed w = (Return r, w') ->
    select_commitment id w' = Some (r_commitment r)
    /\ match r_action r with
       | act_saved =>
           c_status (r_commitment r) = completed
           /\ c_stake_status (r_commitment r) = saved
       | act_burned =>
           c_stake_status (r_commitment r) = burned
           /\ (c_status (r_commitment r) = failed
               \/ c_status (r_commitment r) = expired)
       | act_retry_allowed =>
           c_retry_used (r_commitment r) = true
           /\ c_status (r_commitment r) = r_previousStatus r
           /\ c_stake_status (r_commitment r) = r_previousStakeStatus r
       | act_no_change => False
       end.
Proof.
  intros id passed w r w' H.
  destruct (select_commitment id w) as [c|] eqn:Hsel.
  - rewrite (resolveStake_found id passed w c Hsel) in H.
    unfold resolution_branch in H.
    assert (Hkeep : forall s k b,
               resolution_changes c s k b = false ->
               set_resolution s k b c = c).
    { intros s k b Ec. unfold resolution_changes in Ec.
      apply orb_false_elim in Ec. destruct Ec as [Ec Er].
      apply orb_false_elim in Ec. destruct Ec as [Es Ek].
      apply negb_false_iff in Es, Ek, Er.
      apply CommitmentStatus_eqb_eq in Es. apply StakeStatus_eqb_eq in Ek.
      apply Bool.eqb_prop in Er. subst. apply set_resolution_same. }
    destruct (_ && _);
      [|destruct passed; [|destruct (c_retry_used c) eqn:Er; cbn [negb] in H]];
      match type of H with
      | (if resolution_changes c ?s ?k ?b then _ else _) = _ =>
          pose proof (Hkeep s k b) as Hk;
          pose proof (select_commitment_updated id s k b w c Hsel) as Hu;
          destruct (resolution_changes c s k b);
          inversion H; subst; clear H; cbn;
          (split; [first [exact Hu | exact Hsel] |]);
          try specialize (Hk eq_refl)
      end;
      try (repeat split; auto; fail);
      try (rewrite <- Hk; cbn; auto; fail).
  - rewrite (resolveStake_not_found id passed w Hsel) in H. discriminate.
Qed.

Lemma resolveStake_action_tells_outcome_witness :
  select_commitment "c1" (snd (resolveStake "c1" true Sample.fresh_world))
  = Some (Sample.commitment completed saved false)
  /\ c_status (Sample.commitment completed saved false) = completed
     /\ c_stake_status (Sample.commitment completed saved false) = saved.
Proof.
  apply (resolveStake_action_tells_outcome "c1" true Sample.fresh_world
           (mkStakeResolutionResult (Sample.commitment completed saved false)
              active at_risk act_saved
              "Congratulations! You passed and saved your stake.")
           (snd (resolveStake "c1" true Sample.fresh_world))).
  reflexivity.
Defined.

End StakeProperties.

(* ================================================================== *)
(** * Properties of the expiry sweep and of commitment creation *)
(* ================================================================== *)

Module SweepFacts.

Import StakeFacts.

Lemma set_expired_id x : c_id (set_expired x) = c_id x.
Proof. reflexivity. Qed.

Lemma swept_by_id data x : c_id (swept_by data x) = c_id x.
Proof. unfold swept_by. now destruct (existsb _ data). Qed.

Lemma swept_by_cons c rest x :
  swept_by rest (if commitment_has_id (c_id c) x then set_expired x else x)
  = swept_by (c :: rest) x.
Proof.
  unfold swept_by, commitment_has_id. cbn [existsb].
  rewrite (String.eqb_sym (c_id c) (c_id x)).
  destruct (c_id x =? c_id c)%string; cbn [orb]; [|reflexivity].
  rewrite set_expired_id. now destruct (existsb _ rest).
Qed.

(** The loop over rows of the table with distinct identifiers. *)
Lemma expire_each_eq data :
  forall expired w,
    NoDup (map c_id (commitments w)) ->
    NoDup (map c_id data) ->
    (forall d, In d data -> In d (commitments w)) ->
    expire_each data expired w
    = (Return (expired ++ map set_expired data)%list,
       with_commitments (map (swept_by data) (commitments w)) w).
Proof.
  induction data as [|c rest IH]; intros expired w Hnd Hdata Hin.
  - cbn [expire_each map]. unfold ret. rewrite app_nil_r. f_equal.
    destruct w. unfold with_commitments. cbn.
    f_equal. rewrite <- (map_id commitments0) at 1.
    apply map_ext. intros x. reflexivity.
  - cbn [expire_each]. rewrite bind_modify, bind_get_world.
    set (w1 := with_commitments _ w).
    assert (Hc : In c (commitments w)) by (apply Hin; now left).
    assert (Hsel : select_commitment (c_id c) w1 = Some (set_expired c)).
    { unfold select_commitment, w1. cbn [commitments with_commitments].
      rewrite filter_update_where by reflexivity.
      change (commitment_has_id (c_id c)) with (has_key c_id (c_id c)).
      now rewrite (filter_by_key_unique c_id _ c Hnd Hc). }
    rewrite Hsel.
    inversion Hdata as [|? ? Hnotin Hrest]; subst.
    rewrite IH.
    + f_equal.
      * rewrite <- app_assoc. reflexivity.
      * unfold w1, with_commitments. cbn. f_equal.
        unfold update_where. rewrite map_map.
        apply map_ext. intros x. apply swept_by_cons.
    + unfold w1. cbn [commitments with_commitments]. unfold update_where.
      rewrite map_map.
      rewrite (map_ext _ c_id); [exact Hnd|].
      intros x. now destruct (commitment_has_id (c_id c) x).
    + exact Hrest.
    + intros d Hd. unfold w1. cbn [commitments with_commitments].
      unfold update_where. apply in_map_iff. exists d.
      split; [|apply Hin; now right].
      unfold commitment_has_id.
      destruct (c_id d =? c_id c)%string eqn:E; [|reflexivity].
      apply String.eqb_eq in E. exfalso. apply Hnotin.
      rewrite <- E. now apply in_map.
Qed.

(** The rows that a query selects from a table with distinct identifiers
    have distinct identifiers. *)
Lemma selected_ids_distinct (selects : Commitment -> bool)
      (table : list Commitment) :
  NoDup (map c_id table) -> NoDup (map c_id (filter selects table)).
Proof.
  induction table as [|row table IH]; cbn [map filter]; intros Hnd.
  - constructor.
  - apply NoDup_cons_iff in Hnd. destruct Hnd as [Hnew Hrest].
    destruct (selects row); [|exact (IH Hrest)].
    cbn [map]. apply NoDup_cons; [|exact (IH Hrest)].
    intros Hin. apply Hnew.
    apply in_map_iff in Hin. destruct Hin as (other & Hid & Hother).
    apply filter_In in Hother. destruct Hother as [Hother _].
    rewrite <- Hid. now apply in_map.
Qed.

(** Over the rows that a filter selects from a table with distinct
    identifiers, the loop expires exactly the selected rows. *)
Lemma swept_by_filter (p : Commitment -> bool) (table : list Commitment) x :
  NoDup (map c_id table) -> In x table ->
  swept_by (filter p table) x = if p x then set_expired x else x.
Proof.
  intros Hnd Hx. unfold swept_by.
  destruct (p x) eqn:Ep.
  - assert (H : existsb (fun d => (c_id d =? c_id x)%string) (filter p table) = true).
    { apply existsb_exists. exists x. split.
      - apply filter_In. now split.
      - apply String.eqb_refl. }
    now rewrite H.
  - destruct (existsb _ (filter p table)) eqn:E; [|reflexivity].
    apply existsb_exists in E. destruct E as (d & Hd & Heq).
    apply filter_In in Hd. destruct Hd as [Hd Hpd].
    apply String.eqb_eq in Heq.
    rewrite (same_key_same_row c_id table d x Hnd Hd Hx Heq) in Hpd.
    congruence.
Qed.

Lemma expireOverdueCommitments_eq userId w :
  NoDup (map c_id (commitments w)) ->
  expireOverdueCommitments userId w
  = (Return (map set_expired
               (filter (overdue_for userId (now w)) (commitments w))),
     with_commitments (map (swept userId (now w)) (commitments w)) w).
Proof.
  intros Hnd. unfold expireOverdueCommitments.
  rewrite bind_Date_now, bind_get_world.
  rewrite expire_each_eq.
  - cbn [app]. f_equal. unfold with_commitments. f_equal.
    apply map_ext_in. intros x Hx.
    now apply swept_by_filter.
  - exact Hnd.
  - now apply selected_ids_distinct.
  - intros d Hd. now apply filter_In in Hd.
Qed.

Lemma swept_not_overdue userId t x :
  overdue_for userId t (swept userId t x) = false.
Proof.
  unfold swept. destruct (overdue_for userId t x) eqn:E; [|exact E].
  unfold overdue_for. cbn. now rewrite andb_false_r.
Qed.

Lemma filter_swept userId t l :
  filter (overdue_for userId t) (map (swept userId t) l) = [].
Proof.
  induction l as [|x l IH]; [reflexivity|].
  cbn [map filter]. now rewrite swept_not_overdue.
Qed.

Lemma map_swept_swept userId t l :
  map (swept userId t) (map (swept userId t) l) = map (swept userId t) l.
Proof.
  rewrite map_map. apply map_ext. intros x.
  unfold swept at 1. now rewrite swept_not_overdue.
Qed.

End SweepFacts.

Section SweepProperties.

Import StakeFacts SweepFacts.

(** X4: over commitments with distinct identifiers, the sweep expires
    exactly the active commitments of the user whose deadline is before
    the clock: each becomes expired/burned and is returned, in table order;
    its other columns, the retry flag among them, and every other row
    (other users, other statuses, deadlines not yet reached) are left as
    they are, as are the exams and the answers. *)
Theorem expireOverdueCommitments_sweeps_the_overdue :
  forall (userId : string) (w : World),
    NoDup (map c_id (commitments w)) ->
    exists w',
      expireOverdueCommitments userId w
      = (Return (map set_expired
                   (filter (overdue_for userId (now w)) (commitments w))), w')
      /\ exams w' = exams w
      /\ exam_answers w' = exam_answers w
      /\ Forall2 (fun c c' =>
                    if (c_user_id c =? userId)%string
                       && CommitmentStatus_eqb (c_status c) active
                       && (c_deadline c <? now w)
                    then c_status c' = expired /\ c_stake_status c' = burned
                         /\ c_retry_used c' = c_retry_used c /\ same_terms c c'
                    else c' = c)
                 (commitments w) (commitments w').
Proof.
  intros userId w Hnd.
  rewrite (expireOverdueCommitments_eq userId w Hnd).
  eexists. split; [reflexivity|].
  cbn [exams exam_answers commitments with_commitments].
  split; [reflexivity|]. split; [reflexivity|].
  apply Forall2_map_same. intros x _.
  unfold swept, overdue_for.
  destruct ((c_user_id x =? userId)%string
            && CommitmentStatus_eqb (c_status x) active
            && (c_deadline x <? now w)); [|reflexivity].
  repeat split.
Qed.

Lemma expireOverdueCommitments_sweeps_the_overdue_witness :
  exists w',
    expireOverdueCommitments "alice" Cases.sweep_world
    = (Return [Cases.commitment_of "c1" "alice" 1000 expired burned true], w')
    /\ exams w' = []
    /\ exam_answers w' = []
    /\ Forall2 (fun c c' =>
                  if (c_user_id c =? "alice")%string
                     && CommitmentStatus_eqb (c_status c) active
                     && (c_deadline c <? 2000)
                  then c_status c' = expired /\ c_stake_status c' = burned
                       /\ c_retry_used c' = c_retry_used c /\ same_terms c c'
                  else c' = c)
               Cases.four_commitments (commitments w').
Proof.
  apply (expireOverdueCommitments_sweeps_the_overdue "alice" Cases.sweep_world).
  repeat constructor; simpl; intuition discriminate.
Defined.

(** X5: the sweep is idempotent: run again on the world it leaves, with
    the same clock, it returns no commitment and changes nothing. *)
Theorem expireOverdueCommitments_idempotent :
  forall (userId : string) (w : World),
    NoDup (map c_id (commitments w)) ->
    let w1 := snd (expireOverdueCommitments userId w) in
    expireOverdueCommitments userId w1 = (Return [], w1).
Proof.
  intros userId w Hnd.
  rewrite (expireOverdueCommitments_eq userId w Hnd). cbn [snd].
  set (w1 := with_commitments _ w).
  assert (Hnd1 : NoDup (map c_id (commitments w1))).
  { unfold w1. cbn [commitments with_commitments]. rewrite map_map.
    rewrite (map_ext _ c_id); [exact Hnd|].
    intros x. unfold swept. now destruct (overdue_for userId (now w) x). }
  rewrite (expireOverdueCommitments_eq userId w1 Hnd1).
  unfold w1. cbn [commitments with_commitments now].
  rewrite filter_swept, map_swept_swept. reflexivity.
Qed.

Lemma expireOverdueCommitments_idempotent_witness :
  expireOverdueCommitments "alice"
    (snd (expireOverdueCommitments "alice" Cases.sweep_world))
  = (Return [], snd (expireOverdueCommitments "alice" Cases.sweep_world)).
Proof.
  apply (expireOverdueCommitments_idempotent "alice" Cases.sweep_world).
  repeat constructor; simpl; intuition discriminate.
Defined.

(** X6: creating a commitment, the clock being a time value.  When the
    deadline, [durationDays] days of 86 400 000 ms after the clock, is
    outside the range of a [Date], the creation throws the [RangeError] of
    [toISOString] before the database is asked, and changes nothing.  When
    the database rejects the row, it throws with the database's message
    and changes nothing.  Otherwise the commitment is created for the
    given user, active, with its stake at risk, its retry unused and that
    deadline; its identifier being new to the table, it is the commitment
    read back under that identifier, and resolved at once with a passing
    exam (the duration not being negative) it is completed and its stake
    saved. *)
Theorem createCommitment_starts_active :
  forall (env : Env)
         (insert_error : CommitmentService.CreateInput -> option string)
         (data : CommitmentService.CreateInput) (w : World),
    CommitmentService.is_time_value (now w) = true ->
    (forall c, In c (commitments w) -> c_id c <> fresh_id env (ids_drawn w)) ->
    let deadline := now w + CommitmentService.durationDays data * 86400000 in
    if negb (CommitmentService.is_time_value deadline) then
      CommitmentService.createCommitment env insert_error data w
      = (Throw (JsError "Invalid time value"), w)
    else
      match insert_error data with
      | Some message =>
          CommitmentService.createCommitment env insert_error data w
          = (Throw (JsError ("Failed to create commitment: " ++ message)), w)
      | None =>
          exists c w',
            CommitmentService.createCommitment env insert_error data w
            = (Return c, w')
            /\ c_user_id c = CommitmentService.userId data
            /\ c_status c = active
            /\ c_stake_status c = at_risk
            /\ c_retry_used c = false
            /\ c_deadline c = deadline
            /\ commitments w' = (commitments w ++ [c])%list
            /\ CommitmentService.getCommitmentById (c_id c) w'
               = (Return (Some c), w')
            /\ (0 <= CommitmentService.durationDays data ->
                exists r w'',
                  resolveStake (c_id c) true w' = (Return r, w'')
                  /\ r_action r = act_saved
                  /\ c_status (r_commitment r) = completed
                  /\ c_stake_status (r_commitment r) = saved)
      end.
Proof.
  intros env insert_error data w _ Hfresh deadline.
  assert (Hcalc :
    CommitmentService.calculateDeadline (CommitmentService.durationDays data) w
    = (if CommitmentService.is_time_value deadline
       then Return deadline else Throw (JsError "Invalid time value"), w)).
  { unfold CommitmentService.calculateDeadline. rewrite bind_Date_now.
    unfold CommitmentService.toISOString.
    replace (now w + CommitmentService.durationDays data * 24 * 60 * 60 * 1000)
      with deadline by (unfold deadline; lia).
    now destruct (CommitmentService.is_time_value deadline). }
  unfold CommitmentService.createCommitment.
  destruct (CommitmentService.is_time_value deadline); cbn [negb].
  2: { unfold bind at 1. now rewrite Hcalc. }
  destruct (insert_error data) as [message|].
  { unfold bind at 1. now rewrite Hcalc. }
  unfold bind at 1. rewrite Hcalc.
  unfold bind at 1. rewrite GraderFacts.draw_id_eq. cbv iota beta.
  rewrite bind_modify. unfold ret.
  set (c := mkCommitment _ _ _ _ _ _ active at_risk false).
  set (w' := with_commitments _ _).
  assert (Hsel : select_commitment (c_id c) w' = Some c).
  { unfold select_commitment, w'. cbn [commitments with_commitments with_ids_drawn].
    rewrite filter_app.
    change (commitment_has_id (c_id c)) with (has_key c_id (c_id c)).
    rewrite (filter_none c_id (c_id c) (commitments w)) by exact Hfresh.
    cbn. unfold has_key. now rewrite String.eqb_refl. }
  exists c, w'. split; [reflexivity|]. split; [reflexivity|].
  split; [reflexivity|]. split; [reflexivity|]. split; [reflexivity|].
  split; [reflexivity|]. split; [reflexivity|].
  split.
  { unfold CommitmentService.getCommitmentById. rewrite bind_get_world.
    now rewrite Hsel. }
  intros Hdays.
  rewrite (resolveStake_found (c_id c) true w' c Hsel).
  assert (Hnl : (c_deadline c <? now w') = false).
  { apply Z.ltb_ge. cbn. unfold deadline. lia. }
  unfold resolution_branch. rewrite Hnl. cbn.
  do 2 eexists. split; [reflexivity|]. repeat split.
Qed.

Lemma createCommitment_starts_active_witness :
  exists c w',
    CommitmentService.createCommitment Sample.env_ok (fun _ => None)
      (CommitmentService.mkCreateInput "Rust ownership" 50 7 "alice")
      Sample.fresh_world
    = (Return c, w')
    /\ c_user_id c = "alice"
    /\ c_status c = active
    /\ c_stake_status c = at_risk
    /\ c_retry_used c = false
    /\ c_deadline c = 500 + 7 * 86400000
    /\ commitments w' = (commitments Sample.fresh_world ++ [c])%list
    /\ CommitmentService.getCommitmentById (c_id c) w' = (Return (Some c), w')
    /\ (0 <= 7 ->
        exists r w'',
          resolveStake (c_id c) true w' = (Return r, w'')
          /\ r_action r = act_saved
          /\ c_status (r_commitment r) = completed
          /\ c_stake_status (r_commitment r) = saved).
Proof.
  apply (createCommitment_starts_active Sample.env_ok (fun _ => None)
           (CommitmentService.mkCreateInput "Rust ownership" 50 7 "alice")
           Sample.fresh_world).
  - reflexivity.
  - intros c Hc. simpl in Hc. destruct Hc as [<- | []]. discriminate.
Defined.

End SweepProperties.

(* ================================================================== *)
(** * Properties of the exam actions *)
(* ================================================================== *)

Module ExamActionFacts.

Import StakeFacts.

Lemma select_exam_single examId w exam owner :
  select_exam_with_owner examId w = Some (exam, owner) ->
  single (filter (exam_has_id examId) (exams w)) = Some exam.
Proof.
  unfold select_exam_with_owner.
  destruct (single (filter (exam_has_id examId) (exams w))) as [e|];
    [|discriminate].
  destruct (single (filter (commitment_has_id (e_commitment_id e))
                           (commitments w))); [|discriminate].
  intros H. now inversion H.
Qed.

Section WithEnv.

Variable env : Env.

(** [startExam]: rejected with the world as it is, or started. *)
Lemma startExam_cases examId w :
  (exists errors, ExamActions.startExam env examId w = (Return (Failure errors), w))
  \/ (exists user exam,
        Actions.signed_in_user env = Some user
        /\ select_exam_with_owner examId w = Some (exam, user)
        /\ e_status exam = pending
        /\ ExamActions.startExam env examId w
           = (Return (Success (ExamActions.set_exam_started (now w) exam)),
              with_exams (update_where (exam_has_id examId)
                            (ExamActions.set_exam_started (now w)) (exams w)) w)).
Proof.
  unfold ExamActions.startExam, try_catch, fail_with.
  destruct (Actions.signed_in_user env) as [u|] eqn:Hu;
    [|left; eexists; reflexivity].
  rewrite bind_get_world.
  destruct (select_exam_with_owner examId w) as [[exam owner]|] eqn:Hsel;
    [|left; eexists; reflexivity].
  destruct (owner =? u)%string eqn:Eo; cbn [negb];
    [|left; eexists; reflexivity].
  apply String.eqb_eq in Eo. subst owner.
  destruct (ExamStatus_eqb (e_status exam) pending) eqn:Es; cbn [negb];
    [|left; eexists; reflexivity].
  apply ExamStatus_eqb_eq in Es.
  right. exists u, exam. repeat split; try assumption.
  rewrite bind_Date_now, bind_modify, bind_get_world.
  cbn [exams with_exams].
  rewrite (single_update_where _ _ _ exam); [reflexivity | reflexivity |].
  eapply select_exam_single. exact Hsel.
Qed.

(** [submitExam]: rejected with the world as it is, or submitted. *)
Lemma submitExam_cases examId w :
  (exists errors, ExamActions.submitExam env examId w = (Return (Failure errors), w))
  \/ (exists user exam,
        Actions.signed_in_user env = Some user
        /\ select_exam_with_owner examId w = Some (exam, user)
        /\ e_status exam = in_progress
        /\ ExamActions.unanswered_questions (e_questions exam)
             (select_answers_of_exam examId w) = []
        /\ ExamActions.submitExam env examId w
           = (Return (Success (ExamActions.set_exam_submitted (now w) exam)),
              with_exams (update_where (exam_has_id examId)
                            (ExamActions.set_exam_submitted (now w)) (exams w)) w)).
Proof.
  unfold ExamActions.submitExam, try_catch, fail_with.
  destruct (Actions.signed_in_user env) as [u|] eqn:Hu;
    [|left; eexists; reflexivity].
  rewrite bind_get_world.
  destruct (select_exam_with_owner examId w) as [[exam owner]|] eqn:Hsel;
    [|left; eexists; reflexivity].
  destruct (owner =? u)%string eqn:Eo; cbn [negb];
    [|left; eexists; reflexivity].
  apply String.eqb_eq in Eo. subst owner.
  destruct (ExamStatus_eqb (e_status exam) in_progress) eqn:Es; cbn [negb];
    [|left; eexists; reflexivity].
  apply ExamStatus_eqb_eq in Es. cbv zeta.
  destruct (ExamActions.unanswered_questions (e_questions exam)
              (select_answers_of_exam examId w)) as [|q qs] eqn:Eun;
    [|left; eexists; reflexivity].
  right. exists u, exam. repeat split; try assumption.
  cbn [List.length Nat.ltb Nat.leb].
  rewrite bind_Date_now, bind_modify, bind_get_world.
  cbn [exams with_exams].
  rewrite (single_update_where _ _ _ exam); [reflexivity | reflexivity |].
  eapply select_exam_single. exact Hsel.
Qed.

End WithEnv.

End ExamActionFacts.

Section ExamActionProperties.

Import StakeFacts ExamActionFacts.

(** X7: [startExam] starts a pending exam for its signed-in owner: the
    exam is stored in progress with the clock as its start time, its
    other columns being kept.  It succeeds in no other case, and a request
    that it rejects leaves the world as it is. *)
Theorem startExam_starts_pending_exam :
  forall (env : Env) (examId : string) (w : World),
    (forall user exam,
        Actions.signed_in_user env = Some user ->
        select_exam_with_owner examId w = Some (exam, user) ->
        e_status exam = pending ->
        exists started w',
          ExamActions.startExam env examId w = (Return (Success started), w')
          /\ started = ExamActions.set_exam_started (now w) exam
          /\ e_status started = in_progress
          /\ e_started_at started = Some (now w)
          /\ single (filter (exam_has_id examId) (exams w')) = Some started
          /\ exam_answers w' = exam_answers w
          /\ commitments w' = commitments w)
    /\ (forall started w',
          ExamActions.startExam env examId w = (Return (Success started), w') ->
          exists user exam,
            Actions.signed_in_user env = Some user
            /\ select_exam_with_owner examId w = Some (exam, user)
            /\ e_status exam = pending)
    /\ (forall o w',
          ExamActions.startExam env examId w = (o, w') ->
          succeeded o = false -> w' = w).
Proof.
  intros env examId w.
  destruct (startExam_cases env examId w)
    as [[errors Hrej] | (u & ex & Hu & Hsel & Hst & Hrun)].
  - split; [|split].
    + intros user exam Hu Hsel Hst. exfalso.
      destruct (startExam_cases env examId w)
        as [[errors' Hrej'] | (u & ex & Hu' & Hsel' & Hst' & Hrun)].
      * revert Hrej'. clear Hrej.
        unfold ExamActions.startExam, try_catch, fail_with.
        rewrite Hu, bind_get_world, Hsel, String.eqb_refl, Hst.
        cbn [negb ExamStatus_eqb].
        rewrite bind_Date_now, bind_modify, bind_get_world.
        cbn [exams with_exams].
        rewrite (single_update_where _ _ _ exam);
          [discriminate | reflexivity |].
        eapply select_exam_single. exact Hsel.
      * rewrite Hrej in Hrun. discriminate.
    + intros started w' H. rewrite Hrej in H. discriminate.
    + intros o w' H _. rewrite Hrej in H. now inversion H.
  - split; [|split].
    + intros user exam Hu' Hsel' Hst'.
      rewrite Hsel in Hsel'. inversion Hsel'; subst exam user.
      rewrite Hrun. do 2 eexists. split; [reflexivity|].
      split; [reflexivity|]. split; [reflexivity|]. split; [reflexivity|].
      split; [|split; reflexivity].
      cbn [exams with_exams].
      apply single_update_where; [reflexivity|].
      eapply select_exam_single. exact Hsel.
    + intros started w' _. exists u, ex. auto.
    + intros o w' H Hs. rewrite Hrun in H. inversion H; subst o.
      discriminate.
Qed.

Lemma startExam_starts_pending_exam_witness :
  exists started w',
    ExamActions.startExam Sample.env_ok "e1" Sample.world_with_pending_exam
    = (Return (Success started), w')
    /\ started = ExamActions.set_exam_started 500 Sample.pending_exam
    /\ e_status started = in_progress
    /\ e_started_at started = Some 500
    /\ single (filter (exam_has_id "e1") (exams w')) = Some started
    /\ exam_answers w' = exam_answers Sample.world_with_pending_exam
    /\ commitments w' = commitments Sample.world_with_pending_exam.
Proof.
  apply (proj1 (startExam_starts_pending_exam Sample.env_ok "e1"
                  Sample.world_with_pending_exam) "alice" Sample.pending_exam);
    reflexivity.
Defined.

(** X8: [submitExam] on an exam in progress of the signed-in owner: when
    some question has no answer row it is rejected as [incomplete_exam],
    with the number of unanswered questions in the message, and the world
    is left as it is; when every question has an answer row the exam is
    stored submitted with the clock as its submission time. *)
Theorem submitExam_requires_every_answer :
  forall (env : Env) (examId : string) (w : World) (user : string) (exam : Exam),
    Actions.signed_in_user env = Some user ->
    select_exam_with_owner examId w = Some (exam, user) ->
    e_status exam = in_progress ->
    let missing :=
      filter (fun q =>
                negb (existsb (fun a => (a_exam_id a =? examId)%string
                                        && (a_question_id a =? q_id q)%string)
                              (exam_answers w)))
             (e_questions exam) in
    (missing <> [] ->
     ExamActions.submitExam env examId w
     = (Return (Failure [mkValidationError "exam"
                           (Js.nat_toString (List.length missing)
                            ++ " question(s) unanswered")
                           "incomplete_exam"]), w))
    /\ (missing = [] ->
        exists done w',
          ExamActions.submitExam env examId w = (Return (Success done), w')
          /\ done = ExamActions.set_exam_submitted (now w) exam
          /\ e_status done = submitted
          /\ e_submitted_at done = Some (now w)
          /\ single (filter (exam_has_id examId) (exams w')) = Some done
          /\ exam_answers w' = exam_answers w
          /\ commitments w' = commitments w).
Proof.
  intros env examId w user exam Hu Hsel Hst missing.
  assert (Hmissing : ExamActions.unanswered_questions (e_questions exam)
                       (select_answers_of_exam examId w) = missing).
  { unfold missing, ExamActions.unanswered_questions, select_answers_of_exam.
    apply filter_ext. intros q. f_equal.
    induction (exam_answers w) as [|a l IH]; [reflexivity|].
    cbn [filter existsb].
    destruct (a_exam_id a =? examId)%string; cbn [existsb andb orb];
      now rewrite IH. }
  assert (Hrun : ExamActions.submitExam env examId w
                 = if (0 <? List.length missing)%nat
                   then (Return (Failure [mkValidationError "exam"
                                            (Js.nat_toString (List.length missing)
                                             ++ " question(s) unanswered")
                                            "incomplete_exam"]), w)
                   else (Return (Success (ExamActions.set_exam_submitted (now w) exam)),
                         with_exams (update_where (exam_has_id examId)
                                       (ExamActions.set_exam_submitted (now w))
                                       (exams w)) w)).
  { unfold ExamActions.submitExam, try_catch, fail_with.
    rewrite Hu, bind_get_world, Hsel, String.eqb_refl, Hst.
    cbn [negb ExamStatus_eqb]. cbv zeta. rewrite Hmissing.
    destruct (0 <? List.length missing)%nat; [reflexivity|].
    rewrite bind_Date_now, bind_modify, bind_get_world.
    cbn [exams with_exams].
    rewrite (single_update_where _ _ _ exam); [reflexivity | reflexivity |].
    eapply select_exam_single. exact Hsel. }
  split.
  - intros Hne. rewrite Hrun.
    destruct missing as [|q qs]; [contradiction | reflexivity].
  - intros He. rewrite Hrun, He. cbn [List.length Nat.ltb Nat.leb].
    do 2 eexists. split; [reflexivity|].
    split; [reflexivity|]. split; [reflexivity|]. split; [reflexivity|].
    split; [|split; reflexivity].
    cbn [exams with_exams].
    apply single_update_where; [reflexivity|].
    eapply select_exam_single. exact Hsel.
Qed.

Lemma submitExam_requires_every_answer_witness :
  ExamActions.submitExam Sample.env_ok "e2" Sample.world_in_progress
  = (Return (Failure [mkValidationError "exam" "1 question(s) unanswered"
                        "incomplete_exam"]), Sample.world_in_progress)
  /\ exists done w',
       ExamActions.submitExam Sample.env_ok "e2" Cases.world_all_answered
       = (Return (Success done), w')
       /\ done = ExamActions.set_exam_submitted 500 Sample.exam_in_progress
       /\ e_status done = submitted
       /\ e_submitted_at done = Some 500
       /\ single (filter (exam_has_id "e2") (exams w')) = Some done
       /\ exam_answers w' = exam_answers Cases.world_all_answered
       /\ commitments w' = commitments Cases.world_all_answered.
Proof.
  split.
  - apply (proj1 (submitExam_requires_every_answer Sample.env_ok "e2"
                    Sample.world_in_progress "alice" Sample.exam_in_progress
                    eq_refl eq_refl eq_refl)).
    discriminate.
  - apply (proj2 (submitExam_requires_every_answer Sample.env_ok "e2"
                    Cases.world_all_answered "alice" Sample.exam_in_progress
                    eq_refl eq_refl eq_refl)).
    reflexivity.
Defined.

End ExamActionProperties.

(* ================================================================== *)
(** * The exam state machine *)
(* ================================================================== *)

Module LifecycleFacts.

Import StakeFacts ExamActionFacts SubmitFacts GradeActionFacts GenerateActionFacts.

Section WithEnv.

Variable env : Env.

(** [submitAnswer]: rejected with the world as it is; or the text of the
    one row of the pair is rewritten; or a row is appended for a pair that
    does not have exactly one. *)
Lemma submitAnswer_cases examId questionId text w :
  (exists errors,
      Actions.submitAnswer env examId questionId text w
      = (Return (Failure errors), w))
  \/ (exists user exam,
        Actions.signed_in_user env = Some user
        /\ select_exam_with_owner examId w = Some (exam, user)
        /\ e_status exam = in_progress
        /\ existsb (fun q => (q_id q =? questionId)%string) (e_questions exam) = true
        /\ Js.trim text <> ""
        /\ ((exists existing o,
               single (Actions.answers_of_pair examId questionId w) = Some existing
               /\ Actions.submitAnswer env examId questionId text w
                  = (Return o,
                     with_exam_answers
                       (update_where (answer_has_id (a_id existing))
                                     (Actions.set_user_answer (Js.trim text))
                                     (exam_answers w)) w))
            \/ (single (Actions.answers_of_pair examId questionId w) = None
                /\ Actions.submitAnswer env examId questionId text w
                   = (Return (Success (new_answer env examId questionId text w)),
                      with_exam_answers
                        (exam_answers w ++ [new_answer env examId questionId text w])
                        (with_ids_drawn (S (ids_drawn w)) w))))).
Proof.
  unfold Actions.submitAnswer, try_catch, fail_with.
  destruct (Actions.signed_in_user env) as [u|] eqn:Hu;
    [|left; eexists; reflexivity].
  destruct (Js.truthy (Js.trim text)) eqn:Et; cbn [negb];
    [|left; eexists; reflexivity].
  rewrite bind_get_world.
  destruct (select_exam_with_owner examId w) as [[exam owner]|] eqn:Hsel;
    [|left; eexists; reflexivity].
  destruct (owner =? u)%string eqn:Eo; cbn [negb];
    [|left; eexists; reflexivity].
  apply String.eqb_eq in Eo. subst owner.
  destruct (ExamStatus_eqb (e_status exam) in_progress) eqn:Es; cbn [negb];
    [|left; eexists; reflexivity].
  apply ExamStatus_eqb_eq in Es.
  destruct (existsb (fun q => (q_id q =? questionId)%string) (e_questions exam))
    eqn:Eq; cbn [negb]; [|left; eexists; reflexivity].
  right. exists u, exam. repeat split; try assumption.
  { intros Hempty. rewrite Hempty in Et. discriminate. }
  destruct (single (Actions.answers_of_pair examId questionId w))
    as [existing|] eqn:Ex.
  - left. exists existing.
    rewrite bind_modify, bind_get_world.
    destruct (single (filter (answer_has_id (a_id existing)) _));
      eexists; split; reflexivity.
  - right. split; [reflexivity|].
    unfold bind at 1. rewrite GraderFacts.draw_id_eq. cbv iota beta.
    rewrite bind_modify. reflexivity.
Qed.

(** [gradeExam]: rejected with the world as it is, or past its checks. *)
Lemma gradeExam_cases examId w :
  (exists errors, Actions.gradeExam env examId w = (Return (Failure errors), w))
  \/ (exists user exam,
        Actions.signed_in_user env = Some user
        /\ Js.truthy examId = true
        /\ select_exam_with_owner examId w = Some (exam, user)
        /\ e_status exam = submitted).
Proof.
  unfold Actions.gradeExam. unfold try_catch at 1. unfold fail_with.
  destruct (Actions.signed_in_user env) as [u|] eqn:Hu;
    [|left; eexists; reflexivity].
  destruct (Js.truthy examId) eqn:Ht; cbn [negb];
    [|left; eexists; reflexivity].
  rewrite bind_get_world.
  destruct (select_exam_with_owner examId w) as [[exam owner]|] eqn:Hsel;
    [|left; eexists; reflexivity].
  destruct (owner =? u)%string eqn:Eo; cbn [negb];
    [|left; eexists; reflexivity].
  apply String.eqb_eq in Eo. subst owner.
  destruct (ExamStatus_eqb (e_status exam) submitted) eqn:Es; cbn [negb];
    [|left; eexists; reflexivity].
  apply ExamStatus_eqb_eq in Es.
  right. exists u, exam. repeat split; assumption.
Qed.

(** [generateExam]: rejected with the world as it is, or past its
    checks. *)
Lemma generateExam_cases commitmentId w :
  (exists errors,
      Actions.generateExam env commitmentId w = (Return (Failure errors), w))
  \/ (exists c,
        Actions.signed_in_user env = Some (c_user_id c)
        /\ Js.truthy commitmentId = true
        /\ select_commitment commitmentId w = Some c
        /\ c_status c = active
        /\ now w <= c_deadline c).
Proof.
  unfold Actions.generateExam, try_catch, fail_with.
  destruct (Actions.signed_in_user env) as [u|] eqn:Hu;
    [|left; eexists; reflexivity].
  destruct (Js.truthy commitmentId) eqn:Ht; cbn [negb];
    [|left; eexists; reflexivity].
  rewrite bind_get_world.
  destruct (select_commitment commitmentId w) as [c|] eqn:Hsel;
    [|left; eexists; reflexivity].
  destruct (c_user_id c =? u)%string eqn:Eu; cbn [negb];
    [|left; eexists; reflexivity].
  apply String.eqb_eq in Eu. subst u.
  destruct (CommitmentStatus_eqb (c_status c) active) eqn:Es; cbn [negb];
    [|left; eexists; reflexivity].
  apply CommitmentStatus_eqb_eq in Es.
  rewrite bind_Date_now.
  destruct (c_deadline c <? now w) eqn:Ed; [left; eexists; reflexivity|].
  apply Z.ltb_ge in Ed.
  right. exists c. repeat split; assumption.
Qed.

End WithEnv.

(** ** One request and the exams *)

Lemma exam_moves_refl e : exam_moves e e.
Proof. repeat split. now left. Qed.

Lemma exams_step_refl es : exams_step es es.
Proof.
  exists es, []. rewrite app_nil_r. split; [reflexivity|].
  split; [|constructor]. apply Forall2_refl_on. intros e _. apply exam_moves_refl.
Qed.

(** Rewriting the one row that has the identifier, along a transition. *)
Lemma exams_step_update examId (f : Exam -> Exam) es exam :
  single (filter (exam_has_id examId) es) = Some exam ->
  exam_moves exam (f exam) ->
  exams_step es (update_where (exam_has_id examId) f es).
Proof.
  intros Hs Hm. exists (update_where (exam_has_id examId) f es), [].
  rewrite app_nil_r. split; [reflexivity|]. split; [|constructor].
  unfold update_where. apply Forall2_map_same. intros x Hx.
  destruct (exam_has_id examId x) eqn:Ex; [|apply exam_moves_refl].
  now rewrite (single_filter_only e_id examId es exam x Hs Hx Ex).
Qed.

Lemma perform_exams_step env req w :
  exams_step (exams w) (exams (snd (perform env req w))).
Proof.
  destruct req as [c | e | e q a | e | e]; cbn [perform].
  - pose proof (generateExam_exams env c w) as H.
    destruct (Actions.generateExam env c w) as [[[ex|errs]|t] w']; cbn [snd];
      try (rewrite H; apply exams_step_refl).
    destruct H as (H1 & H2 & _). rewrite H1.
    exists (exams w), [ex]. split; [reflexivity|].
    split; [|now repeat constructor].
    apply Forall2_refl_on. intros x _. apply exam_moves_refl.
  - destruct (startExam_cases env e w)
      as [[errs H] | (u & ex & _ & Hsel & Hst & H)]; rewrite H; cbn [snd].
    + apply exams_step_refl.
    + cbn [exams with_exams].
      apply (exams_step_update e _ _ ex);
        [eapply select_exam_single; exact Hsel|].
      repeat split. right. cbn. now rewrite Hst.
  - destruct (submitAnswer_cases env e q a w)
      as [[errs H] | (u & ex & _ & _ & _ & _ & _ &
                      [(x & o & _ & H) | (_ & H)])];
      rewrite H; cbn [snd]; apply exams_step_refl.
  - destruct (submitExam_cases env e w)
      as [[errs H] | (u & ex & _ & Hsel & Hst & _ & H)]; rewrite H; cbn [snd].
    + apply exams_step_refl.
    + cbn [exams with_exams].
      apply (exams_step_update e _ _ ex);
        [eapply select_exam_single; exact Hsel|].
      repeat split. right. cbn. now rewrite Hst.
  - destruct (gradeExam_cases env e w)
      as [[errs H] | (u & ex & Hu & Ht & Hsel & Hst)].
    + rewrite H. apply exams_step_refl.
    + rewrite (gradeExam_checked env e w u ex Hu Ht Hsel Hst).
      pose proof (GraderFacts.stable_gradeExam env ex
                    (select_answers_of_exam e w) w) as Hs.
      destruct (Grader.gradeExam env ex (select_answers_of_exam e w) w)
        as [[r|t] w1]; cbn [snd] in Hs |- *;
        destruct Hs as (_ & He & _);
        unfold after_grading; cbn [exams with_exams with_exam_answers];
        rewrite He;
        (apply (exams_step_update e _ _ ex);
         [eapply select_exam_single; exact Hsel|]);
        repeat split; right; cbn; now rewrite Hst.
Qed.

(** ** One request and the answers *)

Lemma answers_step_refl l : answers_step l l.
Proof. left. exists (fun x => x). split; [auto|]. now rewrite map_id. Qed.

Lemma perform_answers_step env req w :
  answers_step (exam_answers w) (exam_answers (snd (perform env req w))).
Proof.
  destruct req as [c | e | e q a | e | e]; cbn [perform].
  - destruct (generateExam_cases env c w)
      as [[errs H] | (cm & Hu & Ht & Hsel & Hst & Hdl)].
    + rewrite H. apply answers_step_refl.
    + rewrite (generateExam_checked env c w cm Hu Ht Hsel Hst Hdl).
      pose proof (RetryFacts.stable_generateExam env (c_topic cm) 7 w) as Hs.
      destruct (Generator.generateExam env (c_topic cm) 7 w) as [[qs|t] w1];
        cbn [snd] in Hs |- *; destruct Hs as (_ & _ & Ha);
        unfold after_insert; cbn [exam_answers with_exams with_ids_drawn];
        rewrite Ha; apply answers_step_refl.
  - destruct (startExam_cases env e w)
      as [[errs H] | (u & ex & _ & _ & _ & H)]; rewrite H; cbn [snd];
      apply answers_step_refl.
  - destruct (submitAnswer_cases env e q a w)
      as [[errs H] | (u & ex & _ & _ & _ & _ & _ &
                      [(x & o & _ & H) | (Hnone & H)])];
      rewrite H; cbn [snd].
    + apply answers_step_refl.
    + cbn [exam_answers with_exam_answers]. left.
      exists (fun r => if answer_has_id (a_id x) r
                       then Actions.set_user_answer (Js.trim a) r else r).
      split; [|reflexivity].
      intros r. now destruct (answer_has_id (a_id x) r).
    + cbn [exam_answers with_exam_answers with_ids_drawn]. right.
      eexists. split; [reflexivity|]. exact Hnone.
  - destruct (submitExam_cases env e w)
      as [[errs H] | (u & ex & _ & _ & _ & _ & H)]; rewrite H; cbn [snd];
      apply answers_step_refl.
  - destruct (gradeExam_cases env e w)
      as [[errs H] | (u & ex & Hu & Ht & Hsel & Hst)].
    + rewrite H. apply answers_step_refl.
    + rewrite (gradeExam_checked env e w u ex Hu Ht Hsel Hst).
      pose proof (GraderFacts.stable_gradeExam env ex
                    (select_answers_of_exam e w) w) as Hs.
      destruct (Grader.gradeExam env ex (select_answers_of_exam e w) w)
        as [[r|t] w1]; cbn [snd] in Hs |- *;
        destruct Hs as (_ & _ & Ha);
        unfold after_grading; cbn [exam_answers with_exams with_exam_answers];
        rewrite Ha; [|apply answers_step_refl].
      left. eexists. split; [|reflexivity].
      intros x. apply graded_rows_keys.
Qed.

Lemma answers_step_pairs_unique w w' :
  answers_step (exam_answers w) (exam_answers w') ->
  pairs_unique w -> pairs_unique w'.
Proof.
  intros [(g & Hg & Heq) | (row & Heq & Hnone)] Hu e q;
    unfold Actions.answers_of_pair; rewrite Heq.
  - rewrite filter_map_preserved.
    + rewrite length_map. apply Hu.
    + intros x. destruct (Hg x) as [H1 H2]. now rewrite H1, H2.
  - rewrite filter_app, length_app. cbn [filter].
    specialize (Hu e q). unfold Actions.answers_of_pair in Hu.
    destruct ((a_exam_id row =? e)%string && (a_question_id row =? q)%string)
      eqn:Ep; cbn [List.length]; [|lia].
    apply andb_prop in Ep. destruct Ep as [E1 E2].
    apply String.eqb_eq in E1, E2. subst e q.
    specialize (Hu).
    destruct (filter _ (exam_answers w)) as [|y [|z l]];
      cbn [List.length] in Hu |- *; try lia.
    discriminate Hnone.
Qed.

(** ** Requests one after the other *)

Lemma perform_all_snoc env reqs req w :
  perform_all env (reqs ++ [req]) w
  = snd (perform env req (perform_all env reqs w)).
Proof. unfold perform_all. now rewrite fold_left_app. Qed.

Lemma perform_all_cons env req reqs w :
  perform_all env (req :: reqs) w
  = perform_all env reqs (snd (perform env req w)).
Proof. reflexivity. Qed.

(** The position of an exam in the table is kept by a request, and the
    row there has moved or not. *)
Lemma exams_step_nth es es' i e :
  exams_step es es' -> nth_error es i = Some e ->
  exists e', nth_error es' i = Some e' /\ exam_moves e e'.
Proof.
  intros (kept & created & -> & Hall & _) Hnth.
  revert i Hnth. induction Hall as [|x y l l' Hxy Hl IH]; intros i Hnth.
  - destruct i; discriminate.
  - destruct i as [|i]; cbn in Hnth |- *.
    + inversion Hnth; subst. now exists y.
    + now apply IH.
Qed.

End LifecycleFacts.

Module LifecycleMore.

Import StakeFacts ExamActionFacts SubmitFacts GradeActionFacts GenerateActionFacts
       LifecycleFacts.

Lemma perform_commitments env req w :
  commitments (snd (perform env req w)) = commitments w.
Proof.
  destruct req as [c | e | e q a | e | e]; cbn [perform].
  - destruct (generateExam_cases env c w)
      as [[errs H] | (cm & Hu & Ht & Hsel & Hst & Hdl)].
    + now rewrite H.
    + rewrite (generateExam_checked env c w cm Hu Ht Hsel Hst Hdl).
      pose proof (RetryFacts.stable_generateExam env (c_topic cm) 7 w) as Hs.
      destruct (Generator.generateExam env (c_topic cm) 7 w) as [[qs|t] w1];
        cbn [snd] in Hs |- *; now destruct Hs as (Hc & _ & _).
  - destruct (startExam_cases env e w)
      as [[errs H] | (u & ex & _ & _ & _ & H)]; now rewrite H.
  - destruct (submitAnswer_cases env e q a w)
      as [[errs H] | (u & ex & _ & _ & _ & _ & _ &
                      [(x & o & _ & H) | (_ & H)])]; now rewrite H.
  - destruct (submitExam_cases env e w)
      as [[errs H] | (u & ex & _ & _ & _ & _ & H)]; now rewrite H.
  - destruct (gradeExam_cases env e w)
      as [[errs H] | (u & ex & Hu & Ht & Hsel & Hst)].
    + now rewrite H.
    + rewrite (gradeExam_checked env e w u ex Hu Ht Hsel Hst).
      pose proof (GraderFacts.stable_gradeExam env ex
                    (select_answers_of_exam e w) w) as Hs.
      destruct (Grader.gradeExam env ex (select_answers_of_exam e w) w)
        as [[r|t] w1]; cbn [snd] in Hs |- *; now destruct Hs as (Hc & _ & _).
Qed.

Lemma exam_moves_rank e e' :
  exam_moves e e' ->
  (status_rank (e_status e) <= status_rank (e_status e'))%nat
  /\ (terminal (e_status e) = true -> e' = e).
Proof.
  intros (_ & _ & _ & [-> | Hn]); [split; auto|].
  destruct (e_status e), (e_status e'); cbn in Hn |- *;
    try discriminate; split; try lia; discriminate.
Qed.

(** A request that is rejected for want of the owner. *)
Lemma perform_not_owner env req w :
  (forall u, Actions.signed_in_user env = Some u -> owner_of req w <> Some u) ->
  perform env req w = (false, w).
Proof.
  intros Hno.
  destruct req as [c | e | e q a | e | e]; cbn [perform owner_of] in Hno |- *.
  - destruct (generateExam_cases env c w)
      as [[errs H] | (cm & Hu & Ht & Hsel & Hst & Hdl)].
    + now rewrite H.
    + exfalso. apply (Hno _ Hu). now rewrite Hsel.
  - destruct (startExam_cases env e w)
      as [[errs H] | (u & ex & Hu & Hsel & _ & H)].
    + now rewrite H.
    + exfalso. apply (Hno _ Hu). now rewrite Hsel.
  - destruct (submitAnswer_cases env e q a w)
      as [[errs H] | (u & ex & Hu & Hsel & _)].
    + now rewrite H.
    + exfalso. apply (Hno _ Hu). now rewrite Hsel.
  - destruct (submitExam_cases env e w)
      as [[errs H] | (u & ex & Hu & Hsel & _)].
    + now rewrite H.
    + exfalso. apply (Hno _ Hu). now rewrite Hsel.
  - destruct (gradeExam_cases env e w)
      as [[errs H] | (u & ex & Hu & Ht & Hsel & Hst)].
    + now rewrite H.
    + exfalso. apply (Hno _ Hu). now rewrite Hsel.
Qed.

End LifecycleMore.

Section Lifecycle.

Import StakeFacts ExamActionFacts SubmitFacts GradeActionFacts GenerateActionFacts
       LifecycleFacts LifecycleMore.

(** X9: the first submission of an answer, for a question of an exam in
    progress that has no answer row yet, appends one row that carries the
    trimmed text and no score, feedback or grading time; the pair then has
    exactly that row, and the exams and commitments are untouched. *)
Theorem submitAnswer_first_submission :
  forall (env : Env) (examId questionId text : string) (w : World)
         (user : string) (exam : Exam),
    Actions.signed_in_user env = Some user ->
    select_exam_with_owner examId w = Some (exam, user) ->
    e_status exam = in_progress ->
    existsb (fun q => (q_id q =? questionId)%string) (e_questions exam) = true ->
    Js.trim text <> "" ->
    Actions.answers_of_pair examId questionId w = [] ->
    exists row w',
      Actions.submitAnswer env examId questionId text w = (Return (Success row), w')
      /\ exam_answers w' = (exam_answers w ++ [row])%list
      /\ Actions.answers_of_pair examId questionId w' = [row]
      /\ a_exam_id row = examId
      /\ a_question_id row = questionId
      /\ a_user_answer row = Js.trim text
      /\ a_score row = None
      /\ a_feedback row = None
      /\ a_graded_at row = None
      /\ exams w' = exams w
      /\ commitments w' = commitments w.
Proof.
  intros env examId questionId text w user exam Hu Hsel Hst Hq Ht Hpair.
  destruct (submitAnswer_cases env examId questionId text w)
    as [[errs H] | (u & ex & _ & _ & _ & _ & _ &
                    [(x & o & Hx & H) | (Hnone & H)])].
  - exfalso. revert H.
    unfold Actions.submitAnswer, try_catch, fail_with. rewrite Hu.
    assert (Htr : Js.truthy (Js.trim text) = true).
    { unfold Js.truthy. apply negb_true_iff. now apply String.eqb_neq. }
    rewrite Htr. cbn [negb].
    rewrite bind_get_world, Hsel, String.eqb_refl, Hst, Hq.
    cbn [negb ExamStatus_eqb]. rewrite Hpair. cbn [single].
    unfold bind at 1. rewrite GraderFacts.draw_id_eq. cbv iota beta.
    rewrite bind_modify. discriminate.
  - rewrite Hpair in Hx. discriminate.
  - rewrite H. do 2 eexists. split; [reflexivity|].
    cbn [exam_answers exams commitments with_exam_answers with_ids_drawn].
    split; [reflexivity|].
    split.
    { unfold Actions.answers_of_pair in *.
      cbn [exam_answers with_exam_answers with_ids_drawn].
      rewrite filter_app, Hpair. cbn.
      now rewrite !String.eqb_refl. }
    repeat split.
Qed.

Lemma submitAnswer_first_submission_witness :
  exists row w',
    Actions.submitAnswer Sample.env_ok "e2" "q-app" " Pass a reference. "
      Sample.world_in_progress
    = (Return (Success row), w')
    /\ exam_answers w' = (exam_answers Sample.world_in_progress ++ [row])%list
    /\ Actions.answers_of_pair "e2" "q-app" w' = [row]
    /\ a_exam_id row = "e2"
    /\ a_question_id row = "q-app"
    /\ a_user_answer row = "Pass a reference."
    /\ a_score row = None
    /\ a_feedback row = None
    /\ a_graded_at row = None
    /\ exams w' = exams Sample.world_in_progress
    /\ commitments w' = commitments Sample.world_in_progress.
Proof.
  apply (submitAnswer_first_submission Sample.env_ok "e2" "q-app"
           " Pass a reference. " Sample.world_in_progress "alice"
           Sample.exam_in_progress); try reflexivity.
  discriminate.
Defined.

(** X10: at most one answer row per pair of exam and question is an
    invariant of the exam actions: when it holds of the stored answers, it
    holds after any sequence of requests. *)
Theorem pairs_unique_invariant :
  forall (env : Env) (reqs : list Request) (w : World),
    pairs_unique w -> pairs_unique (perform_all env reqs w).
Proof.
  intros env reqs. induction reqs as [|req reqs IH]; intros w Hu; [exact Hu|].
  rewrite perform_all_cons. apply IH.
  eapply answers_step_pairs_unique; [apply perform_answers_step | exact Hu].
Qed.

Lemma pairs_unique_invariant_witness :
  pairs_unique
    (perform_all Sample.env_ok
       [Answer "e2" "q-app" "Pass a reference."; Answer "e2" "q-mc" "B";
        Submit "e2"; Grade "e2"]
       Sample.world_in_progress).
Proof.
  apply (pairs_unique_invariant Sample.env_ok).
  intros e q. unfold Actions.answers_of_pair. cbn [exam_answers
    Sample.world_in_progress with_exam_answers filter].
  cbn [a_exam_id a_question_id Sample.scored_answer Sample.answer].
  destruct (("e2" =? e)%string && ("q-mc" =? q)%string) eqn:E1;
    destruct (("e2" =? e)%string && ("q-sa" =? q)%string) eqn:E2;
    cbn [List.length]; try lia.
  apply andb_prop in E1, E2. destruct E1 as [_ E1], E2 as [_ E2].
  apply String.eqb_eq in E1, E2. subst q. discriminate.
Defined.

(** X11: one request moves the exams by at most one transition each: an
    exam keeps its identifier, commitment and questions, and its status
    stays or takes one of the transitions pending to in_progress,
    in_progress to submitted, submitted to graded or grading_failed; the
    only rows added are pending exams, at the end. *)
Theorem request_moves_exams_one_step :
  forall (env : Env) (req : Request) (w : World),
    exists kept created,
      exams (snd (perform env req w)) = (kept ++ created)%list
      /\ Forall2 (fun e e' =>
                    e_id e' = e_id e
                    /\ e_commitment_id e' = e_commitment_id e
                    /\ e_questions e' = e_questions e
                    /\ (e' = e \/ status_next (e_status e) (e_status e') = true))
                 (exams w) kept
      /\ Forall (fun e => e_status e = pending) created.
Proof. intros env req w. apply perform_exams_step. Qed.

(** X12: over any sequence of requests an exam never goes back: it stays
    at its place in the table with its identifier, commitment and
    questions, its status does not go down, and once it is graded or
    grading_failed the whole row, its score and pass flag among it, stays
    as it is. *)
Theorem exams_never_go_back :
  forall (env : Env) (reqs : list Request) (w : World) (i : nat) (e : Exam),
    nth_error (exams w) i = Some e ->
    exists e',
      nth_error (exams (perform_all env reqs w)) i = Some e'
      /\ e_id e' = e_id e
      /\ e_commitment_id e' = e_commitment_id e
      /\ e_questions e' = e_questions e
      /\ (status_rank (e_status e) <= status_rank (e_status e'))%nat
      /\ (terminal (e_status e) = true -> e' = e).
Proof.
  intros env reqs. induction reqs as [|req reqs IH]; intros w i e Hnth.
  - exists e. repeat split; auto.
  - rewrite perform_all_cons.
    destruct (exams_step_nth _ _ i e (perform_exams_step env req w) Hnth)
      as (e1 & Hn1 & Hm).
    destruct (IH _ i e1 Hn1) as (e' & Hn' & Hid & Hc & Hq & Hr & Ht).
    destruct (exam_moves_rank e e1 Hm) as [Hr1 Ht1].
    destruct Hm as (Hid1 & Hc1 & Hq1 & _).
    exists e'. split; [exact Hn'|].
    repeat split; try congruence; try lia.
    intros Hterm. specialize (Ht1 Hterm). subst e1. now apply Ht.
Qed.

Lemma exams_never_go_back_witness :
  exists e',
    nth_error (exams (perform_all Sample.env_ok
                        [Grade "e2"; Start "e2"; Grade "e2"; Submit "e2"]
                        Sample.world_answered)) 0 = Some e'
    /\ e_id e' = "e2"
    /\ e_commitment_id e' = "c1"
    /\ e_questions e' = Sample.three_questions
    /\ (2 <= status_rank (e_status e'))%nat
    /\ (terminal submitted = true -> e' = Sample.submitted_exam).
Proof.
  apply (exams_never_go_back Sample.env_ok
           [Grade "e2"; Start "e2"; Grade "e2"; Submit "e2"]
           Sample.world_answered 0%nat Sample.submitted_exam).
  reflexivity.
Defined.

(** X13: the exam actions never write a commitment: after any sequence
    of requests the commitments are what they were. *)
Theorem exam_actions_never_write_commitments :
  forall (env : Env) (reqs : list Request) (w : World),
    commitments (perform_all env reqs w) = commitments w.
Proof.
  intros env reqs. induction reqs as [|req reqs IH]; intros w; [reflexivity|].
  rewrite perform_all_cons, IH. apply perform_commitments.
Qed.

(** X14: a request about an exam or a commitment that the signed-in user
    does not own (nobody signed in, another owner, or nothing stored under
    the identifier) is rejected and leaves the whole world as it is: no
    row is written, no identifier drawn and no completion requested. *)
Theorem requests_of_others_are_rejected :
  forall (env : Env) (req : Request) (w : World),
    (forall u, Actions.signed_in_user env = Some u -> owner_of req w <> Some u) ->
    perform env req w = (false, w).
Proof. intros env req w. apply perform_not_owner. Qed.

Lemma requests_of_others_are_rejected_witness :
  perform (mkEnv Sample.parse (fun _ => "schema issues")
                 (fun _ _ _ => Rejected "Request timeout") Sample.ids
                 ["key-a"] (Some "mallory"))
          (Grade "e2") Sample.world_answered
  = (false, Sample.world_answered).
Proof.
  apply requests_of_others_are_rejected.
  intros u Hu. inversion Hu; subst u. discriminate.
Defined.

End Lifecycle.

Module GuardFacts.

Import ExamActionFacts LifecycleFacts.

Lemma perform_out_of_state env req w :
  in_state_for req w = false -> perform env req w = (false, w).
Proof.
  destruct req as [c | e | e q a | e | e];
    cbn [perform in_state_for]; unfold status_is.
  - destruct (generateExam_cases env c w)
      as [[errs H] | (cm & Hu & Ht & Hsel & Hst & Hdl)].
    + now rewrite H.
    + rewrite Hsel, Hst. cbn. intros Hf. apply Z.leb_gt in Hf. lia.
  - destruct (startExam_cases env e w)
      as [[errs H] | (u & ex & Hu & Hsel & Hst & H)].
    + now rewrite H.
    + rewrite Hsel, Hst. discriminate.
  - destruct (submitAnswer_cases env e q a w)
      as [[errs H] | (u & ex & Hu & Hsel & Hst & _)].
    + now rewrite H.
    + rewrite Hsel, Hst. discriminate.
  - destruct (submitExam_cases env e w)
      as [[errs H] | (u & ex & Hu & Hsel & Hst & _)].
    + now rewrite H.
    + rewrite Hsel, Hst. discriminate.
  - destruct (gradeExam_cases env e w)
      as [[errs H] | (u & ex & Hu & Ht & Hsel & Hst)].
    + now rewrite H.
    + rewrite Hsel, Hst. discriminate.
Qed.

End GuardFacts.

Section Guards.

Import ExamActionFacts LifecycleFacts GuardFacts.

(** X24: every action is guarded by the state it starts from.  An exam
    is generated only for an active commitment whose deadline has not
    passed, started only when pending, answered and submitted only when in
    progress, graded only when submitted; any other request is rejected
    and leaves the whole world as it is. *)
Theorem requests_out_of_state_are_rejected :
  forall (env : Env) (req : Request) (w : World),
    in_state_for req w = false -> perform env req w = (false, w).
Proof. intros env req w. apply perform_out_of_state. Qed.

Lemma requests_out_of_state_are_rejected_witness :
  perform Sample.env_ok (Answer "e2" "q-mc" "B") Sample.world_answered
  = (false, Sample.world_answered).
Proof.
  apply requests_out_of_state_are_rejected. reflexivity.
Defined.

(** X25: reading an exam changes nothing and never throws, and the exam
    is handed out only to the signed-in owner of its commitment. *)
Theorem getExamById_only_for_owner :
  forall (env : Env) (examId : string) (w : World),
    exists r,
      ExamActions.getExamById env examId w = (Return r, w)
      /\ (forall exam,
            r = Some exam ->
            exists user,
              Actions.signed_in_user env = Some user
              /\ select_exam_with_owner examId w = Some (exam, user)).
Proof.
  intros env examId w. unfold ExamActions.getExamById, try_catch.
  destruct (Actions.signed_in_user env) as [u|] eqn:Hu.
  - rewrite bind_get_world.
    destruct (select_exam_with_owner examId w) as [[exam owner]|] eqn:Hsel.
    + destruct (owner =? u)%string eqn:Eo; cbn [negb].
      * apply String.eqb_eq in Eo. subst owner.
        eexists. split; [reflexivity|].
        intros ex Hex. inversion Hex; subst. now exists u.
      * eexists. split; [reflexivity|]. discriminate.
    + eexists. split; [reflexivity|]. discriminate.
  - eexists. split; [reflexivity|]. discriminate.
Qed.

End Guards.
(* ================================================================== *)
(** * More on the grader ([services/exam-grader.ts]) *)
(* ================================================================== *)

Module GraderMore.

Import Grader GraderFacts.

Lemma parse_grade_well_scored j s f :
  parse_grade j = Some (s, f) -> 0 <= s <= 100 /\ f <> "".
Proof.
  unfold parse_grade. destruct j as [| | | | |m]; try discriminate.
  destruct (obj_get "score" m) as [[| |n| | |]|]; try discriminate.
  destruct (obj_get "feedback" m) as [[| | |g| |]|]; try discriminate.
  destruct (Qeq_bool n (inject_Z (Qfloor n)) && (0 <=? Qfloor n)
            && (Qfloor n <=? 100) && (1 <=? String.length g)%nat) eqn:E;
    [|discriminate].
  intros H. inversion H; subst.
  apply andb_prop in E. destruct E as [E E4].
  apply andb_prop in E. destruct E as [E E3].
  apply andb_prop in E. destruct E as [_ E2].
  apply Z.leb_le in E2, E3. apply Nat.leb_le in E4.
  split; [lia|]. intros ->. simpl in E4. lia.
Qed.

Lemma grading_categorizeError_message (t : Thrown) :
  err_message (categorizeError t) = thrown_message t.
Proof.
  destruct t as [m | e k | e k]; simpl; try reflexivity;
    repeat match goal with
           | |- context [if ?b then _ else _] => destruct b
           end; reflexivity.
Qed.

Section WithEnv.

Variable env : Env.

Lemma validateGradeResponse_well_scored raw w d w' :
  validateGradeResponse env raw w = (Return d, w') ->
  0 <= fst d <= 100 /\ snd d <> "".
Proof.
  unfold validateGradeResponse.
  destruct (JSON_parse env _) as [m|parsed]; [discriminate|].
  destruct (parse_grade parsed) as [[s f]|] eqn:E; [|discriminate].
  intros H. inversion H; subst. simpl.
  eapply parse_grade_well_scored. exact E.
Qed.

Lemma attemptGrading_well_scored question userAnswer trace attempt w r w' :
  attemptGrading env question userAnswer trace attempt w = (Return r, w') ->
  well_scored r.
Proof.
  unfold attemptGrading, bind.
  destruct (getNextKey env w) as [[key|t] w1]; [|discriminate].
  destruct (withSpan env trace _ w1) as [[resp|t] w2]; [|discriminate].
  destruct (fst (fst resp)) as [content|]; [|discriminate].
  destruct (Js.truthy content); [|discriminate].
  destruct (validateGradeResponse env content w2) as [[d|t] w3] eqn:E;
    [|discriminate].
  intros H. inversion H; subst. unfold well_scored. simpl.
  eapply validateGradeResponse_well_scored. exact E.
Qed.

Lemma grading_retry_loop_well_scored question userAnswer trace remaining :
  forall attempt lastError w r w',
    retry_loop env question userAnswer trace remaining attempt lastError w
    = (Return r, w') ->
    well_scored r.
Proof.
  induction remaining as [|remaining IH]; intros attempt lastError w r w' H.
  - discriminate.
  - rewrite grading_retry_loop_S in H. unfold try_catch in H.
    destruct (attemptGrading env question userAnswer trace attempt w)
      as [[r1|t1] w1] eqn:E.
    + inversion H; subst. eapply attemptGrading_well_scored. exact E.
    + unfold bind in H.
      destruct (attempt <? maxRetries)%nat;
        [rewrite delay_eq in H | unfold ret in H]; eapply IH; eassumption.
Qed.

Lemma gradeQuestion_well_scored answers trace question w r w' :
  gradeQuestion env answers trace question w = (Return r, w') ->
  well_scored r.
Proof.
  unfold gradeQuestion, withSpan, bind. rewrite draw_id_eq.
  destruct (Js.blank _).
  - intros H. inversion H; subst. unfold well_scored. simpl.
    split; [lia | discriminate].
  - destruct (gradeAnswerWithRetry env question _ trace _) as [[r1|t1] w1] eqn:E;
      [|discriminate].
    intros H. inversion H; subst. unfold well_scored. simpl.
    eapply grading_retry_loop_well_scored. exact E.
Qed.

Lemma gradeQuestions_well_scored answers trace questions :
  forall w results w',
    gradeQuestions env answers trace questions w = (Return results, w') ->
    Forall well_scored results.
Proof.
  induction questions as [|q qs IH]; intros w results w' H.
  - inversion H. constructor.
  - simpl in H. unfold bind in H.
    destruct (gradeQuestion env answers trace q w) as [[r|t] w1] eqn:E1;
      [|discriminate].
    destruct (gradeQuestions env answers trace qs w1) as [[rs|t] w2] eqn:E2;
      [|discriminate].
    inversion H; subst. constructor.
    + eapply gradeQuestion_well_scored. exact E1.
    + eapply IH. exact E2.
Qed.

(** One attempt sends at most one completion request. *)
Lemma attemptGrading_calls question userAnswer trace attempt w :
  (llm_calls (snd (attemptGrading env question userAnswer trace attempt w))
   <= llm_calls w + 1)%nat.
Proof.
  unfold attemptGrading, bind.
  pose proof (stable_grader_getNextKey env w) as Hk.
  destruct (getNextKey env w) as [[key|t] w1]; simpl in Hk |- *;
    destruct Hk as [_ Hk1]; [|lia].
  unfold withSpan, bind.
  pose proof (stable_draw_id env w1) as Hd.
  destruct (draw_id env w1) as [[s|t] w2]; simpl in Hd |- *;
    destruct Hd as [_ Hd1]; [|lia].
  pose proof (chat_completions_create_calls env key
                (GradingPrompt question userAnswer) w2) as Hc.
  destruct (chat_completions_create env key (GradingPrompt question userAnswer) w2)
    as [[r|t] w3]; simpl in Hc |- *; [|lia].
  unfold ret.
  destruct (fst r) as [content|]; simpl; [|unfold throw; simpl; lia].
  destruct (Js.truthy content); [|unfold throw; simpl; lia].
  pose proof (stable_validateGradeResponse env content w3) as Hv.
  destruct (validateGradeResponse env content w3) as [[d|t] w4];
    simpl in Hv |- *; destruct Hv as [_ Hv1]; lia.
Qed.

Lemma grading_retry_loop_calls question userAnswer trace remaining :
  forall attempt lastError w,
    (llm_calls (snd (retry_loop env question userAnswer trace remaining
                       attempt lastError w))
     <= llm_calls w + remaining)%nat.
Proof.
  induction remaining as [|remaining IH]; intros attempt lastError w.
  - simpl. lia.
  - rewrite grading_retry_loop_S. unfold try_catch.
    pose proof (attemptGrading_calls question userAnswer trace attempt w) as Ha.
    destruct (attemptGrading env question userAnswer trace attempt w)
      as [[r|t] w1]; simpl in Ha |- *; [lia|].
    unfold bind.
    destruct (attempt <? maxRetries)%nat.
    + rewrite delay_eq.
      specialize (IH (S attempt) (Some (categorizeError t))
                     (after_delay (nth (attempt - 1) backoffMs 0) w1)).
      simpl in IH. lia.
    + unfold ret.
      specialize (IH (S attempt) (Some (categorizeError t)) w1). lia.
Qed.

Lemma gradeQuestion_calls answers trace question w :
  (llm_calls (snd (gradeQuestion env answers trace question w))
   <= llm_calls w + 3 * List.length (sent_to_model answers [question]))%nat.
Proof.
  unfold sent_to_model. cbn [filter].
  destruct (Js.blank (userAnswer_of (answerMap_get answers (q_id question))))
    eqn:Hb.
  - rewrite (gradeQuestion_blank env _ _ _ _ Hb). simpl. lia.
  - unfold gradeQuestion, withSpan, bind. rewrite draw_id_eq, Hb.
    pose proof (grading_retry_loop_calls question
                  (userAnswer_of (answerMap_get answers (q_id question)))
                  trace maxRetries 1 None
                  (with_ids_drawn (S (ids_drawn w)) w)) as Hc.
    unfold gradeAnswerWithRetry.
    destruct (retry_loop env question _ trace maxRetries 1 None _)
      as [[r|t] w1]; simpl in Hc |- *; unfold maxRetries in Hc; lia.
Qed.

Lemma gradeQuestions_calls answers trace questions :
  forall w,
    (llm_calls (snd (gradeQuestions env answers trace questions w))
     <= llm_calls w + 3 * List.length (sent_to_model answers questions))%nat.
Proof.
  induction questions as [|q qs IH]; intros w.
  - simpl. lia.
  - cbn [gradeQuestions]. unfold bind.
    pose proof (gradeQuestion_calls answers trace q w) as Hq.
    assert (Hlen : (List.length (sent_to_model answers (q :: qs))
                    = List.length (sent_to_model answers [q])
                      + List.length (sent_to_model answers qs))%nat).
    { unfold sent_to_model. cbn [filter].
      destruct (negb _); simpl; lia. }
    destruct (gradeQuestion env answers trace q w) as [[r|t] w1];
      cbn [snd] in Hq |- *; [|lia].
    specialize (IH w1).
    destruct (gradeQuestions env answers trace qs w1) as [[rs|t] w2];
      cbn [snd] in IH |- *; unfold ret; cbn [snd]; lia.
Qed.

Lemma grading_retry_loop_returned question userAnswer trace remaining attempt
      lastError w r w1 :
  attemptGrading env question userAnswer trace attempt w = (Return r, w1) ->
  retry_loop env question userAnswer trace (S remaining) attempt lastError w
  = (Return r, w1).
Proof.
  intros H. rewrite grading_retry_loop_S. unfold try_catch. now rewrite H.
Qed.

Lemma grading_retry_loop_failed question userAnswer trace remaining attempt
      lastError w t w1 :
  attemptGrading env question userAnswer trace attempt w = (Throw t, w1) ->
  retry_loop env question userAnswer trace (S remaining) attempt lastError w =
  retry_loop env question userAnswer trace remaining (S attempt)
    (Some (categorizeError t))
    (if (attempt <? maxRetries)%nat
     then after_delay (nth (attempt - 1) backoffMs 0) w1
     else w1).
Proof.
  intros H. rewrite grading_retry_loop_S. unfold try_catch. rewrite H.
  unfold bind. destruct (attempt <? maxRetries)%nat; reflexivity.
Qed.

Lemma gradeAnswerWithRetry_second question userAnswer trace w t1 w1 r w2 :
  attemptGrading env question userAnswer trace 1 w = (Throw t1, w1) ->
  attemptGrading env question userAnswer trace 2 (after_delay 1000 w1)
  = (Return r, w2) ->
  gradeAnswerWithRetry env question userAnswer trace w = (Return r, w2).
Proof.
  intros H1 H2. unfold gradeAnswerWithRetry, maxRetries.
  rewrite (grading_retry_loop_failed _ _ _ _ _ _ _ _ _ H1).
  now apply grading_retry_loop_returned.
Qed.

Lemma gradeAnswerWithRetry_third question userAnswer trace w t1 w1 t2 w2 r w3 :
  attemptGrading env question userAnswer trace 1 w = (Throw t1, w1) ->
  attemptGrading env question userAnswer trace 2 (after_delay 1000 w1)
  = (Throw t2, w2) ->
  attemptGrading env question userAnswer trace 3 (after_delay 2000 w2) = (r, w3) ->
  gradeAnswerWithRetry env question userAnswer trace w =
  (match r with
   | Return g => Return g
   | Throw t3 => Throw (grading_exhausted t3)
   end, w3).
Proof.
  intros H1 H2 H3. unfold gradeAnswerWithRetry, maxRetries.
  rewrite (grading_retry_loop_failed _ _ _ _ _ _ _ _ _ H1).
  change (if (1 <? maxRetries)%nat
          then after_delay (nth (1 - 1) backoffMs 0) w1 else w1)
    with (after_delay 1000 w1).
  rewrite (grading_retry_loop_failed _ _ _ _ _ _ _ _ _ H2).
  change (if (2 <? maxRetries)%nat
          then after_delay (nth (2 - 1) backoffMs 0) w2 else w2)
    with (after_delay 2000 w2).
  destruct r as [g|t3].
  - now apply grading_retry_loop_returned.
  - rewrite (grading_retry_loop_failed _ _ _ _ _ _ _ _ _ H3).
    unfold retry_loop, throw, grading_exhausted, last_message.
    rewrite grading_categorizeError_message. reflexivity.
Qed.

Lemma attemptGrading_delays question userAnswer trace attempt w r w' :
  attemptGrading env question userAnswer trace attempt w = (r, w') ->
  delays w' = delays w.
Proof.
  intros H.
  pose proof (stable_attemptGrading env question userAnswer trace attempt w) as Hs.
  rewrite H in Hs. simpl in Hs. now destruct Hs as (_ & Hd & _).
Qed.

End WithEnv.

End GraderMore.

Module GraderRun.

Import Grader GraderFacts GraderMore.

Lemma totalScore_bounds results :
  Forall well_scored results ->
  0 <= totalScore results <= 100 * Z.of_nat (List.length results).
Proof.
  rewrite totalScore_sum.
  induction 1 as [|r rs [Hr _] _ IH]; [simpl; lia|].
  cbn [map fold_right List.length]. rewrite Nat2Z.inj_succ. lia.
Qed.

Lemma overall_in_range results :
  results <> [] ->
  Forall well_scored results ->
  0 <= Js.Math_round (meanScore results) <= 100.
Proof.
  intros Hne Hall. pose proof (totalScore_bounds results Hall) as Hb.
  unfold meanScore.
  destruct (Z.of_nat (List.length results)) as [|n|n] eqn:En.
  - destruct results; [contradiction | discriminate].
  - rewrite Math_round_quotient. split.
    + apply Z.div_pos; lia.
    + apply Z.lt_succ_r. apply Z.div_lt_upper_bound; lia.
  - lia.
Qed.

Section WithEnv.

Variable env : Env.

Lemma gradeExam_well_scored exam answers w r w' :
  gradeExam env exam answers w = (Return r, w') ->
  Forall well_scored (questionResults r)
  /\ 0 <= overallScore r <= 100.
Proof.
  intros H. pose proof (gradeExam_results_length env _ _ _ _ _ H) as Hlen.
  revert H. unfold gradeExam.
  destruct (Nat.eqb (List.length (e_questions exam)) 0) eqn:Eq; [discriminate|].
  destruct (Nat.eqb (List.length answers) 0); [discriminate|].
  unfold withTrace, gradeExamQuestions, bind. rewrite draw_id_eq.
  destruct (gradeQuestions env answers _ (e_questions exam) _)
    as [[results|t] w1] eqn:E; [|discriminate].
  intros H. inversion H; subst. cbn [questionResults overallScore] in *.
  pose proof (gradeQuestions_well_scored env _ _ _ _ _ _ E) as Hall.
  split; [exact Hall|].
  apply overall_in_range; [|exact Hall].
  intros ->. apply Nat.eqb_neq in Eq. simpl in Hlen. lia.
Qed.

Lemma gradeExam_calls exam answers w :
  (llm_calls (snd (gradeExam env exam answers w))
   <= llm_calls w
      + 3 * List.length (sent_to_model answers (e_questions exam)))%nat.
Proof.
  unfold gradeExam.
  destruct (Nat.eqb (List.length (e_questions exam)) 0); [simpl; lia|].
  destruct (Nat.eqb (List.length answers) 0); [simpl; lia|].
  unfold withTrace, gradeExamQuestions, bind. rewrite draw_id_eq.
  pose proof (gradeQuestions_calls env answers (fresh_id env (ids_drawn w))
                (e_questions exam) (with_ids_drawn (S (ids_drawn w)) w)) as Hc.
  destruct (gradeQuestions env answers _ (e_questions exam) _)
    as [[results|t] w1]; cbn [snd] in Hc |- *; exact Hc.
Qed.

Lemma gradeExam_throw_cases exam answers w t w' :
  gradeExam env exam answers w = (Throw t, w') ->
  ((e_questions exam = [] \/ answers = [])
   /\ w' = w
   /\ exists m, t = GradingException (mkServiceError INVALID_SCORE m) 0)
  \/ (e_questions exam <> [] /\ answers <> [] /\ is_exhaustion t).
Proof.
  unfold gradeExam.
  destruct (e_questions exam) as [|q qs] eqn:Eq.
  { cbn. intros H. inversion H; subst. left.
    split; [now left|]. split; [reflexivity|]. eexists. reflexivity. }
  destruct answers as [|a rest].
  { cbn. intros H. inversion H; subst. left.
    split; [now right|]. split; [reflexivity|]. eexists. reflexivity. }
  cbn [List.length Nat.eqb].
  unfold withTrace, gradeExamQuestions, bind. rewrite draw_id_eq, Eq.
  destruct (gradeQuestions env (a :: rest) _ (q :: qs) _)
    as [[results|t1] w1] eqn:E; [discriminate|].
  intros H. inversion H; subst. right.
  split; [discriminate|]. split; [discriminate|].
  eapply gradeQuestions_throws. exact E.
Qed.

End WithEnv.

End GraderRun.

Section GraderProperties.

Import Grader GraderFacts GraderMore GraderRun.

(** X15: every result of a graded exam has a score from 0 to 100 and a
    feedback that is not empty, and the overall score is from 0 to 100:
    a completion whose score is outside that range, or not an integer,
    never reaches a result. *)
Theorem gradeExam_scores_in_range :
  forall (env : Env) (exam : Exam) (answers : list ExamAnswer)
         (w : World) (r : ExamGradeResult) (w' : World),
    gradeExam env exam answers w = (Return r, w') ->
    Forall (fun g => 0 <= score g <= 100 /\ feedback g <> "") (questionResults r)
    /\ 0 <= overallScore r <= 100.
Proof. intros env exam answers w r w'. apply gradeExam_well_scored. Qed.

Lemma gradeExam_scores_in_range_witness :
  Forall (fun g => 0 <= score g <= 100 /\ feedback g <> "")
         [mkGradeResult 100 "Correct." "id-1"; mkGradeResult 0 NO_ANSWER "id-3";
          mkGradeResult 0 NO_ANSWER "id-4"]
  /\ 0 <= 33 <= 100.
Proof.
  apply (gradeExam_scores_in_range Sample.env_ok Sample.submitted_exam
           Sample.two_answers Sample.world_submitted
           (mkExamGradeResult 33 false
              [mkGradeResult 100 "Correct." "id-1"; mkGradeResult 0 NO_ANSWER "id-3";
               mkGradeResult 0 NO_ANSWER "id-4"] "id-0")
           (snd (gradeExam Sample.env_ok Sample.submitted_exam
                   Sample.two_answers Sample.world_submitted))).
  vm_compute. reflexivity.
Defined.

(** X16: grading an exam sends at most three completion requests for
    each question whose answer is not blank, and none for the others. *)
Theorem gradeExam_request_budget :
  forall (env : Env) (exam : Exam) (answers : list ExamAnswer) (w : World),
    (llm_calls (snd (gradeExam env exam answers w))
     <= llm_calls w
        + 3 * List.length
                (filter (fun q =>
                           negb (Js.blank (userAnswer_of
                                             (answerMap_get answers (q_id q)))))
                        (e_questions exam)))%nat.
Proof. intros env exam answers w. apply gradeExam_calls. Qed.

(** X17: the grader throws nothing but its own exception.  Before any
    request it rejects an exam without questions or without answers with
    [INVALID_SCORE] and zero attempts, the world being as it was; past
    that, it throws only when a question has used up its three attempts,
    with [MAX_RETRIES_EXCEEDED].  In both cases no table is written. *)
Theorem gradeExam_throws_only_grading_exceptions :
  forall (env : Env) (exam : Exam) (answers : list ExamAnswer)
         (w : World) (t : Thrown) (w' : World),
    gradeExam env exam answers w = (Throw t, w') ->
    (((e_questions exam = [] \/ answers = [])
      /\ w' = w
      /\ exists m, t = GradingException (mkServiceError INVALID_SCORE m) 0)
     \/ (e_questions exam <> [] /\ answers <> []
         /\ exists m,
              t = GradingException (mkServiceError MAX_RETRIES_EXCEEDED m) 3))
    /\ commitments w' = commitments w
    /\ exams w' = exams w
    /\ exam_answers w' = exam_answers w.
Proof.
  intros env exam answers w t w' H. split.
  - exact (gradeExam_throw_cases env exam answers w t w' H).
  - pose proof (stable_gradeExam env exam answers w) as Hs.
    rewrite H in Hs. exact Hs.
Qed.

Lemma gradeExam_throws_only_grading_exceptions_witness :
  let t := GradingException
             (mkServiceError MAX_RETRIES_EXCEEDED
                "Failed to grade answer after 3 attempts. Last error: Request timeout")
             3 in
  let w' := snd (gradeExam Sample.env_down Sample.submitted_exam
                   Sample.three_answers Sample.world_answered) in
  (((e_questions Sample.submitted_exam = [] \/ Sample.three_answers = [])
    /\ w' = Sample.world_answered
    /\ exists m, t = GradingException (mkServiceError INVALID_SCORE m) 0)
   \/ (e_questions Sample.submitted_exam <> [] /\ Sample.three_answers <> []
       /\ exists m,
            t = GradingException (mkServiceError MAX_RETRIES_EXCEEDED m) 3))
  /\ commitments w' = commitments Sample.world_answered
  /\ exams w' = exams Sample.world_answered
  /\ exam_answers w' = exam_answers Sample.world_answered.
Proof.
  apply (gradeExam_throws_only_grading_exceptions Sample.env_down
           Sample.submitted_exam Sample.three_answers Sample.world_answered).
  vm_compute. reflexivity.
Defined.

(** X18: the retry policy of the grader, for one answer.  At most three
    completion requests are sent; the result is that of the first attempt
    that returns; a second attempt is made 1000 ms after a failed first,
    a third 2000 ms after a failed second, and no wait follows the third;
    after three failed attempts the grader throws [MAX_RETRIES_EXCEEDED]
    with three attempts and the message of what the last attempt threw. *)
Theorem grading_retry_policy :
  forall (env : Env) (question : ExamQuestion) (userAnswer trace : string)
         (w : World),
    let attempt := attemptGrading env question userAnswer trace in
    let run := gradeAnswerWithRetry env question userAnswer trace w in
    (llm_calls (snd run) <= llm_calls w + 3)%nat
    /\ (forall r w1,
          attempt 1%nat w = (Return r, w1) ->
          run = (Return r, w1) /\ delays w1 = delays w)
    /\ (forall t1 w1 r w2,
          attempt 1%nat w = (Throw t1, w1) ->
          attempt 2%nat (after_delay 1000 w1) = (Return r, w2) ->
          run = (Return r, w2) /\ delays w2 = (delays w ++ [1000])%list)
    /\ (forall t1 w1 t2 w2 r w3,
          attempt 1%nat w = (Throw t1, w1) ->
          attempt 2%nat (after_delay 1000 w1) = (Throw t2, w2) ->
          attempt 3%nat (after_delay 2000 w2) = (Return r, w3) ->
          run = (Return r, w3) /\ delays w3 = (delays w ++ [1000; 2000])%list)
    /\ (forall t1 w1 t2 w2 t3 w3,
          attempt 1%nat w = (Throw t1, w1) ->
          attempt 2%nat (after_delay 1000 w1) = (Throw t2, w2) ->
          attempt 3%nat (after_delay 2000 w2) = (Throw t3, w3) ->
          run = (Throw (grading_exhausted t3), w3)
          /\ delays w3 = (delays w ++ [1000; 2000])%list).
Proof.
  intros env question userAnswer trace w attempt run. subst attempt run.
  split.
  { apply (grading_retry_loop_calls env question userAnswer trace maxRetries). }
  split.
  { intros r w1 H1. split.
    - now apply grading_retry_loop_returned.
    - eapply attemptGrading_delays; eassumption. }
  split.
  { intros t1 w1 r w2 H1 H2. split.
    - eapply gradeAnswerWithRetry_second; eassumption.
    - rewrite (attemptGrading_delays _ _ _ _ _ _ _ _ H2). simpl.
      now rewrite (attemptGrading_delays _ _ _ _ _ _ _ _ H1). }
  split.
  { intros t1 w1 t2 w2 r w3 H1 H2 H3. split.
    - now rewrite (gradeAnswerWithRetry_third _ _ _ _ _ _ _ _ _ _ _ H1 H2 H3).
    - rewrite (attemptGrading_delays _ _ _ _ _ _ _ _ H3). simpl.
      rewrite (attemptGrading_delays _ _ _ _ _ _ _ _ H2). simpl.
      rewrite (attemptGrading_delays _ _ _ _ _ _ _ _ H1).
      now rewrite <- app_assoc. }
  intros t1 w1 t2 w2 t3 w3 H1 H2 H3. split.
  - now rewrite (gradeAnswerWithRetry_third _ _ _ _ _ _ _ _ _ _ _ H1 H2 H3).
  - rewrite (attemptGrading_delays _ _ _ _ _ _ _ _ H3). simpl.
    rewrite (attemptGrading_delays _ _ _ _ _ _ _ _ H2). simpl.
    rewrite (attemptGrading_delays _ _ _ _ _ _ _ _ H1).
    now rewrite <- app_assoc.
Qed.

(** The first answer of the endpoint is not JSON, its second request is
    rate limited, its third answer is a valid grade. *)
Lemma grading_retry_policy_witness :
  fst (gradeAnswerWithRetry Sample.env_flaky
         (Sample.question "q-sa" short_answer intermediate)
         "Because it is moved." "trace-0" Sample.fresh_world)
  = Return (mkGradeResult 100 "Correct." "id-2")
  /\ delays (snd (gradeAnswerWithRetry Sample.env_flaky
                    (Sample.question "q-sa" short_answer intermediate)
                    "Because it is moved." "trace-0" Sample.fresh_world))
     = [1000; 2000].
Proof.
  destruct (grading_retry_policy Sample.env_flaky
              (Sample.question "q-sa" short_answer intermediate)
              "Because it is moved." "trace-0" Sample.fresh_world)
    as (_ & _ & _ & H3 & _).
  destruct (H3 (JsError "Failed to parse grading response as JSON: Unexpected token")
               (snd (attemptGrading Sample.env_flaky
                       (Sample.question "q-sa" short_answer intermediate)
                       "Because it is moved." "trace-0" 1 Sample.fresh_world))
               (JsError "429 rate limit exceeded")
               (snd (attemptGrading Sample.env_flaky
                       (Sample.question "q-sa" short_answer intermediate)
                       "Because it is moved." "trace-0" 2
                       (after_delay 1000
                          (snd (attemptGrading Sample.env_flaky
                                  (Sample.question "q-sa" short_answer intermediate)
                                  "Because it is moved." "trace-0" 1
                                  Sample.fresh_world)))))
               (mkGradeResult 100 "Correct." "id-2")
               (snd (gradeAnswerWithRetry Sample.env_flaky
                       (Sample.question "q-sa" short_answer intermediate)
                       "Because it is moved." "trace-0" Sample.fresh_world)))
    as [Hrun Hdelays]; try (vm_compute; reflexivity).
  split; [now rewrite Hrun | exact Hdelays].
Defined.

End GraderProperties.
(* ================================================================== *)
(** * More on the grading action ([actions/grading-actions.ts]) *)
(* ================================================================== *)

Module GradeActionMore.

Import GradeActionFacts ExamActionFacts LifecycleFacts.

Section WithEnv.

Variable env : Env.

(** The exam row after a grading action that has passed its checks. *)
Lemma gradeExam_row_after examId w user exam :
  Actions.signed_in_user env = Some user ->
  Js.truthy examId = true ->
  select_exam_with_owner examId w = Some (exam, user) ->
  e_status exam = submitted ->
  exists e',
    single (filter (exam_has_id examId)
                   (exams (snd (Actions.gradeExam env examId w)))) = Some e'
    /\ terminal (e_status e') = true.
Proof.
  intros Hu Hid Hsel Hst.
  rewrite (gradeExam_checked env examId w user exam Hu Hid Hsel Hst).
  pose proof (GraderFacts.stable_gradeExam env exam
                (select_answers_of_exam examId w) w) as Hs.
  pose proof (select_exam_single _ _ _ _ Hsel) as Hone.
  destruct (Grader.gradeExam env exam (select_answers_of_exam examId w) w)
    as [[r|t] w1]; cbn [snd] in Hs |- *; destruct Hs as (_ & He & _).
  - exists (Actions.set_exam_graded r exam). split; [|reflexivity].
    unfold after_grading. cbn [exams with_exam_answers with_exams].
    rewrite He. apply single_update_where; [reflexivity | exact Hone].
  - exists (Actions.set_exam_status grading_failed exam). split; [|reflexivity].
    cbn [exams with_exams].
    rewrite He. apply single_update_where; [reflexivity | exact Hone].
Qed.

End WithEnv.

End GradeActionMore.

Section GradeActionProperties.

Import GradeActionFacts ExamActionFacts LifecycleFacts GradeActionMore.

(** X19: when the grader throws, the grading action fails with the code
    of the grader's error, marks the exam [grading_failed] and writes
    nothing else: the score and pass flag of the exam stay unset as they
    were, no answer receives a score, no commitment is touched. *)
Theorem gradeExam_action_failure_marks_exam :
  forall (env : Env) (examId : string) (w : World) (user : string)
         (exam : Exam) (t : Thrown) (w1 : World),
    Actions.signed_in_user env = Some user ->
    Js.truthy examId = true ->
    select_exam_with_owner examId w = Some (exam, user) ->
    e_status exam = submitted ->
    Grader.gradeExam env exam (select_answers_of_exam examId w) w = (Throw t, w1) ->
    exists w',
      Actions.gradeExam env examId w
      = (Return (Failure
           match t with
           | GradingException e _ =>
               [mkValidationError "grading" (err_message e)
                                  (ErrorType_code (err_type e))]
           | _ => [mkValidationError "grading" "Grading failed" "grading_failed"]
           end), w')
      /\ single (filter (exam_has_id examId) (exams w'))
         = Some (mkExam (e_id exam) (e_commitment_id exam) (e_questions exam)
                        grading_failed (e_started_at exam) (e_submitted_at exam)
                        (e_overall_score exam) (e_passed exam)
                        (e_opik_trace_id exam))
      /\ (forall e, In e (exams w') -> e_id e <> examId -> In e (exams w))
      /\ exam_answers w' = exam_answers w
      /\ commitments w' = commitments w.
Proof.
  intros env examId w user exam t w1 Hu Hid Hsel Hst Hthrow.
  pose proof (GraderFacts.stable_gradeExam env exam
                (select_answers_of_exam examId w) w) as Hs.
  rewrite Hthrow in Hs. cbn [snd] in Hs. destruct Hs as (Hc & He & Ha).
  eexists. split.
  { rewrite (gradeExam_checked env examId w user exam Hu Hid Hsel Hst), Hthrow.
    reflexivity. }
  cbn [exams exam_answers commitments with_exams]. rewrite He.
  split.
  { pose proof (select_exam_single _ _ _ _ Hsel) as Hone.
    apply (single_update_where (exam_has_id examId)
             (Actions.set_exam_status grading_failed) (exams w) exam);
      [reflexivity | exact Hone]. }
  split.
  { intros e Hin Hne. unfold update_where in Hin.
    apply in_map_iff in Hin. destruct Hin as (x & Hx & Hxin).
    destruct (exam_has_id examId x) eqn:Ex.
    - exfalso. apply Hne. subst e. unfold exam_has_id in Ex.
      apply String.eqb_eq in Ex. exact Ex.
    - now subst e. }
  split; assumption.
Qed.

Lemma gradeExam_action_failure_marks_exam_witness :
  exists w',
    Actions.gradeExam Sample.env_down "e2" Sample.world_answered
    = (Return (Failure
         [mkValidationError "grading"
            "Failed to grade answer after 3 attempts. Last error: Request timeout"
            "max_retries_exceeded"]), w')
    /\ single (filter (exam_has_id "e2") (exams w'))
       = Some (mkExam "e2" "c1" Sample.three_questions grading_failed
                      (Some 100) (Some 400) None None None)
    /\ (forall e, In e (exams w') -> e_id e <> "e2" ->
                  In e (exams Sample.world_answered))
    /\ exam_answers w' = exam_answers Sample.world_answered
    /\ commitments w' = commitments Sample.world_answered.
Proof.
  apply (gradeExam_action_failure_marks_exam Sample.env_down "e2"
           Sample.world_answered "alice" Sample.submitted_exam
           (GradingException
              (mkServiceError MAX_RETRIES_EXCEEDED
                 "Failed to grade answer after 3 attempts. Last error: Request timeout")
              3)
           (snd (Grader.gradeExam Sample.env_down Sample.submitted_exam
                   Sample.three_answers Sample.world_answered)));
    vm_compute; reflexivity.
Defined.

(** X20: an exam is graded once.  After a grading action that has passed
    its checks, whether the grader returned or threw, a further grading
    request for the exam, from anyone and whatever the model would answer,
    is rejected and leaves the world as it is: no completion is requested
    and no score is overwritten. *)
Theorem gradeExam_action_runs_once :
  forall (env env' : Env) (examId : string) (w : World) (user : string)
         (exam : Exam),
    Actions.signed_in_user env = Some user ->
    Js.truthy examId = true ->
    select_exam_with_owner examId w = Some (exam, user) ->
    e_status exam = submitted ->
    let w' := snd (Actions.gradeExam env examId w) in
    exists errors,
      Actions.gradeExam env' examId w' = (Return (Failure errors), w').
Proof.
  intros env env' examId w user exam Hu Hid Hsel Hst w'.
  destruct (gradeExam_row_after env examId w user exam Hu Hid Hsel Hst)
    as (e1 & Hrow & Hterm).
  fold w' in Hrow.
  destruct (gradeExam_cases env' examId w')
    as [H | (u & ex & _ & _ & Hsel' & Hst')]; [exact H|].
  exfalso. apply select_exam_single in Hsel'.
  rewrite Hrow in Hsel'. inversion Hsel'; subst ex.
  rewrite Hst' in Hterm. discriminate.
Qed.

Lemma gradeExam_action_runs_once_witness :
  exists errors,
    Actions.gradeExam Sample.env_flaky "e2"
      (snd (Actions.gradeExam Sample.env_ok "e2" Sample.world_answered))
    = (Return (Failure errors),
       snd (Actions.gradeExam Sample.env_ok "e2" Sample.world_answered)).
Proof.
  apply (gradeExam_action_runs_once Sample.env_ok Sample.env_flaky "e2"
           Sample.world_answered "alice" Sample.submitted_exam);
    reflexivity.
Defined.

End GradeActionProperties.
(* ================================================================== *)
(** * More on the generator ([services/exam-generator.ts]) *)
(* ================================================================== *)

Module GeneratorMore.

Import Generator GeneratorFacts RetryFacts.

Lemma parse_question_text j q :
  parse_question j = Some q -> lq_question q <> "".
Proof.
  unfold parse_question. destruct j as [| | | | |m]; try discriminate.
  destruct (obj_get "id" m) as [[| | |id| |]|]; try discriminate.
  destruct (obj_get "type" m) as [jt|]; try discriminate.
  destruct (obj_get "question" m) as [[| | |question| |]|]; try discriminate.
  destruct (obj_get "difficulty" m) as [jd|]; try discriminate.
  destruct (parse_type jt) as [t|]; try discriminate.
  destruct (parse_difficulty jd) as [d|]; try discriminate.
  destruct (1 <=? String.length question)%nat eqn:E; [|discriminate].
  cbv zeta.
  repeat match goal with
         | |- (match ?x with _ => _ end) = _ -> _ =>
             destruct x; try discriminate
         end.
  intros H. inversion H; subst. cbn [lq_question].
  apply Nat.leb_le in E. intros ->. simpl in E. lia.
Qed.

Lemma parse_questions_text items :
  forall qs, parse_questions items = Some qs ->
             Forall (fun q => lq_question q <> "") qs.
Proof.
  induction items as [|j items IH]; intros qs H.
  - inversion H. constructor.
  - simpl in H.
    destruct (parse_question j) as [q|] eqn:Eq; [|discriminate].
    destruct (parse_questions items) as [l|]; [|discriminate].
    inversion H; subst. constructor.
    + eapply parse_question_text. exact Eq.
    + now apply IH.
Qed.

Lemma parse_response_text j qs :
  parse_response j = Some qs -> Forall (fun q => lq_question q <> "") qs.
Proof.
  unfold parse_response. destruct j as [| | | | |m]; try discriminate.
  destruct (obj_get "questions" m) as [[| | | |items|]|]; try discriminate.
  destruct (parse_questions items) as [l|] eqn:E; [|discriminate].
  destruct (_ && _); [|discriminate].
  intros H. inversion H; subst. eapply parse_questions_text. exact E.
Qed.

Section WithEnv.

Variable env : Env.

Lemma transform_question_from q w q' w' :
  lq_question q <> "" ->
  transform_question env q w = (Return q', w') ->
  generated_from env q q'.
Proof.
  intros Hne. unfold transform_question, bind, uuidv4, draw_id, ret.
  unfold generated_from.
  destruct (isValidUUID (lq_id q)) eqn:Eu; intros H; inversion H; subst;
    cbn [q_question q_type q_options q_correct_answer q_id q_difficulty].
  - repeat split; auto.
  - split; [eexists; reflexivity|]. repeat split; auto.
Qed.

Lemma transform_questions_from qs :
  Forall (fun q => lq_question q <> "") qs ->
  forall w out w',
    transform_questions env qs w = (Return out, w') ->
    Forall2 (generated_from env) qs out.
Proof.
  induction 1 as [|q qs Hq _ IH]; intros w out w' H.
  - inversion H. constructor.
  - simpl in H. unfold bind in H.
    destruct (transform_question env q w) as [[q'|t] w1] eqn:E1; [|discriminate].
    destruct (transform_questions env qs w1) as [[rest|t] w2] eqn:E2;
      [|discriminate].
    inversion H; subst. constructor.
    + eapply transform_question_from; eassumption.
    + eapply IH; eassumption.
Qed.

Lemma validateAndTransformResponse_from raw n w qs w' :
  validateAndTransformResponse env raw n w = (Return qs, w') ->
  exists parsed answered,
    JSON_parse env (extract_json raw) = inr parsed
    /\ parse_response parsed = Some answered
    /\ Forall2 (generated_from env) answered qs.
Proof.
  unfold validateAndTransformResponse. cbv zeta.
  destruct (JSON_parse env (extract_json raw)) as [m|parsed]; [discriminate|].
  destruct (parse_response parsed) as [questions|] eqn:Ep; [|discriminate].
  destruct (_ || _); [discriminate|].
  destruct (0 <? _)%nat; [discriminate|].
  destruct (check_multiple_choice questions); [discriminate|].
  intros H. exists parsed, questions.
  split; [reflexivity|]. split; [exact Ep|].
  eapply transform_questions_from; [|exact H].
  eapply parse_response_text. exact Ep.
Qed.

Lemma attemptGeneration_from topic n trace attempt w qs w' :
  attemptGeneration env topic n trace attempt w = (Return qs, w') ->
  generated_from_completion env topic n qs.
Proof.
  unfold attemptGeneration, bind at 1.
  destruct (getNextKey env w) as [[key|t] w1]; [|discriminate].
  unfold bind at 1, withSpan, bind at 1. rewrite GraderFacts.draw_id_eq.
  cbv iota beta. unfold bind at 1, chat_completions_create.
  destruct (cerebras_create env _ key (GenerationPrompt topic n))
    as [m|content tokens] eqn:Ec; [discriminate|].
  unfold ret at 1. cbv iota beta. cbn [fst snd].
  destruct content as [raw|]; [|discriminate].
  destruct (Js.truthy raw); [|discriminate].
  intros H.
  destruct (validateAndTransformResponse_from _ _ _ _ _ H)
    as (parsed & answered & Hp & Hr & Hall).
  unfold generated_from_completion.
  exists (llm_calls (with_ids_drawn (S (ids_drawn w1)) w1)), key, raw, tokens,
         parsed, answered.
  repeat split; assumption.
Qed.

Lemma retry_loop_from topic n trace remaining :
  forall attempt lastError w qs w',
    retry_loop env topic n trace remaining attempt lastError w = (Return qs, w') ->
    generated_from_completion env topic n qs.
Proof.
  induction remaining as [|remaining IH]; intros attempt lastError w qs w' H.
  - discriminate.
  - rewrite retry_loop_S in H. unfold try_catch in H.
    destruct (attemptGeneration env topic n trace attempt w) as [[qs1|t] w1] eqn:E.
    + inversion H; subst. eapply attemptGeneration_from; eassumption.
    + unfold bind in H.
      destruct (attempt <? maxRetries)%nat;
        [rewrite delay_eq in H | unfold ret in H]; eapply IH; eassumption.
Qed.

Lemma generateExam_from topic n w qs w' :
  generateExam env topic n w = (Return qs, w') ->
  generated_from_completion env topic n qs.
Proof.
  unfold generateExam.
  destruct (Js.blank topic); [discriminate|].
  destruct ((n <? 5) || (10 <? n)); [discriminate|].
  unfold bind, withTrace, bind. rewrite GraderFacts.draw_id_eq.
  destruct (generateExamWithRetry env topic n _ _) as [[qs1|t] w2] eqn:E;
    [|discriminate].
  simpl. intros H; inversion H; subst.
  eapply retry_loop_from. exact E.
Qed.

(** What the retry loop throws is the exhaustion of its attempts. *)
Lemma generation_retry_loop_throws topic n trace remaining :
  forall attempt lastError w t w',
    retry_loop env topic n trace remaining attempt lastError w = (Throw t, w') ->
    exists m,
      t = ExamGenerationException (mkServiceError MAX_RETRIES_EXCEEDED m) 3.
Proof.
  induction remaining as [|remaining IH]; intros attempt lastError w t w' H.
  - inversion H. eexists. reflexivity.
  - rewrite retry_loop_S in H. unfold try_catch in H.
    destruct (attemptGeneration env topic n trace attempt w) as [[qs1|t1] w1];
      [discriminate|].
    unfold bind in H.
    destruct (attempt <? maxRetries)%nat;
      [rewrite delay_eq in H | unfold ret in H]; eapply IH; eassumption.
Qed.

Lemma generateExam_throw_cases topic n w t w' :
  generateExam env topic n w = (Throw t, w') ->
  ((Js.blank topic = true \/ n < 5 \/ 10 < n)
   /\ w' = w
   /\ exists m, t = ExamGenerationException (mkServiceError INVALID_RESPONSE m) 0)
  \/ (Js.blank topic = false /\ 5 <= n <= 10
      /\ exists m,
           t = ExamGenerationException (mkServiceError MAX_RETRIES_EXCEEDED m) 3).
Proof.
  unfold generateExam.
  destruct (Js.blank topic) eqn:Eb.
  { intros H. inversion H; subst. left.
    split; [now left|]. split; [reflexivity|]. eexists. reflexivity. }
  destruct ((n <? 5) || (10 <? n)) eqn:En.
  { intros H. inversion H; subst. left.
    apply orb_prop in En. split.
    - right. destruct En as [En | En]; apply Z.ltb_lt in En; lia.
    - split; [reflexivity|]. eexists. reflexivity. }
  apply orb_false_elim in En. destruct En as [E1 E2].
  apply Z.ltb_ge in E1, E2.
  unfold bind, withTrace, bind. rewrite GraderFacts.draw_id_eq.
  destruct (generateExamWithRetry env topic n _ _) as [[qs1|t1] w2] eqn:E;
    [discriminate|].
  intros H. inversion H; subst. right.
  split; [reflexivity|]. split; [lia|].
  eapply generation_retry_loop_throws. exact E.
Qed.

Lemma generateExam_calls topic n w :
  (llm_calls (snd (generateExam env topic n w)) <= llm_calls w + 3)%nat.
Proof.
  unfold generateExam.
  destruct (Js.blank topic); [simpl; lia|].
  destruct ((n <? 5) || (10 <? n)); [simpl; lia|].
  unfold bind, withTrace, bind. rewrite GraderFacts.draw_id_eq.
  pose proof (retry_loop_calls env topic n (fresh_id env (ids_drawn w))
                maxRetries 1 None (with_ids_drawn (S (ids_drawn w)) w)) as Hc.
  unfold generateExamWithRetry.
  destruct (retry_loop env topic n _ maxRetries 1 None _) as [[qs|t] w1];
    cbn [snd] in Hc |- *; unfold maxRetries in Hc; simpl in Hc |- *; lia.
Qed.

(** One call of the key manager, with keys configured. *)
Lemma getNextKey_step w :
  api_keys env <> [] ->
  getNextKey env w
  = (Return (nth (generatorKeyIndex w) (api_keys env) ""),
     with_generatorKeyIndex
       (Nat.modulo (generatorKeyIndex w + 1) (List.length (api_keys env))) w).
Proof.
  intros Hk. unfold getNextKey. destruct (api_keys env); [contradiction|].
  reflexivity.
Qed.

Lemma draw_keys_round_robin :
  api_keys env <> [] ->
  forall n w,
    (generatorKeyIndex w < List.length (api_keys env))%nat ->
    exists w',
      draw_keys (getNextKey env) n w
      = (Return (map (fun j => nth (Nat.modulo (generatorKeyIndex w + j)
                                               (List.length (api_keys env)))
                                   (api_keys env) "")
                     (seq 0 n)), w')
      /\ generatorKeyIndex w'
         = Nat.modulo (generatorKeyIndex w + n) (List.length (api_keys env))
      /\ no_request w w'
      /\ graderKeyIndex w' = graderKeyIndex w.
Proof.
  intros Hk.
  assert (Hlen : List.length (api_keys env) <> 0%nat).
  { destruct (api_keys env); [contradiction | discriminate]. }
  induction n as [|n IH]; intros w Hi.
  - exists w. split; [reflexivity|].
    split; [rewrite Nat.add_0_r; symmetry; now apply Nat.mod_small|].
    split; [apply no_request_preorder | reflexivity].
  - cbn [draw_keys]. unfold bind at 1. rewrite (getNextKey_step w Hk).
    cbv iota beta.
    set (w1 := with_generatorKeyIndex _ w).
    assert (Hi1 : (generatorKeyIndex w1 < List.length (api_keys env))%nat).
    { unfold w1. cbn. now apply Nat.mod_upper_bound. }
    destruct (IH w1 Hi1) as (w' & Hrun & Hidx & Hreq & Hg).
    exists w'. unfold bind. rewrite Hrun. unfold ret. split.
    + f_equal. f_equal. cbn [seq map]. f_equal.
      * rewrite Nat.add_0_r. now rewrite Nat.mod_small.
      * rewrite <- seq_shift, map_map. apply map_ext. intros j.
        unfold w1. cbn [generatorKeyIndex with_generatorKeyIndex].
        f_equal. rewrite Nat.Div0.add_mod_idemp_l. f_equal. lia.
    + split.
      * rewrite Hidx. unfold w1. cbn [generatorKeyIndex with_generatorKeyIndex].
        rewrite Nat.Div0.add_mod_idemp_l. f_equal. lia.
      * split; [|rewrite Hg; reflexivity].
        eapply (pre_trans _ no_request_preorder); [|exact Hreq].
        unfold w1. repeat split.
Qed.

End WithEnv.

End GeneratorMore.

Section GeneratorProperties.

Import Generator GeneratorFacts RetryFacts GeneratorMore.

(** X21: the questions that the generator returns come, one for one and
    in order, from the questions of a completion that the endpoint gave
    for the prompt and that the schema accepted.  Each has the model's
    identifier when that is a UUID, and an identifier drawn by the
    generator otherwise; the model's type, text, which is not empty, and
    difficulty; the model's options and correct answer when it is a
    multiple choice question, and none otherwise. *)
Theorem generateExam_questions_well_formed :
  forall (env : Env) (topic : string) (questionCount : Z)
         (w : World) (qs : list ExamQuestion) (w' : World),
    generateExam env topic questionCount w = (Return qs, w') ->
    exists (k : nat) (key raw : string) (tokens : option Z) (parsed : json)
           (answered : list LlmQuestion),
      cerebras_create env k key (GenerationPrompt topic questionCount)
      = Completion (Some raw) tokens
      /\ JSON_parse env (extract_json raw) = inr parsed
      /\ parse_response parsed = Some answered
      /\ Forall2
           (fun lq q =>
              (if isValidUUID (lq_id lq)
               then q_id q = lq_id lq
               else exists j, q_id q = fresh_id env j)
              /\ q_type q = lq_type lq
              /\ q_question q = lq_question lq
              /\ q_question q <> ""
              /\ q_difficulty q = lq_difficulty lq
              /\ q_options q = (if QuestionType_eqb (lq_type lq) multiple_choice
                                then lq_options lq else None)
              /\ q_correct_answer q
                 = (if QuestionType_eqb (lq_type lq) multiple_choice
                    then lq_correct_answer lq else None))
           answered qs.
Proof. intros env topic n w qs w'. apply generateExam_from. Qed.

Lemma generateExam_questions_well_formed_witness :
  exists (k : nat) (key raw : string) (tokens : option Z) (parsed : json)
         (answered : list LlmQuestion),
    cerebras_create Sample.env_ok k key (GenerationPrompt "Rust ownership" 7)
    = Completion (Some raw) tokens
    /\ JSON_parse Sample.env_ok (extract_json raw) = inr parsed
    /\ parse_response parsed = Some answered
    /\ Forall2
         (fun lq q =>
            (if isValidUUID (lq_id lq)
             then q_id q = lq_id lq
             else exists j, q_id q = fresh_id Sample.env_ok j)
            /\ q_type q = lq_type lq
            /\ q_question q = lq_question lq
            /\ q_question q <> ""
            /\ q_difficulty q = lq_difficulty lq
            /\ q_options q = (if QuestionType_eqb (lq_type lq) multiple_choice
                              then lq_options lq else None)
            /\ q_correct_answer q
               = (if QuestionType_eqb (lq_type lq) multiple_choice
                  then lq_correct_answer lq else None))
         answered (Sample.questions_from 2).
Proof.
  apply (generateExam_questions_well_formed Sample.env_ok "Rust ownership" 7
           Sample.fresh_world (Sample.questions_from 2)
           (snd (generateExam Sample.env_ok "Rust ownership" 7 Sample.fresh_world))).
  vm_compute. reflexivity.
Defined.

(** X22: the generator throws nothing but its own exception.  A blank
    topic or a question count outside 5 to 10 is rejected with
    [INVALID_RESPONSE] and zero attempts before anything is done; past
    that it throws only [MAX_RETRIES_EXCEEDED] with three attempts.  In
    both cases no table is written and at most three completions have
    been requested. *)
Theorem generateExam_throws_only_generation_exceptions :
  forall (env : Env) (topic : string) (questionCount : Z)
         (w : World) (t : Thrown) (w' : World),
    generateExam env topic questionCount w = (Throw t, w') ->
    (((Js.blank topic = true \/ questionCount < 5 \/ 10 < questionCount)
      /\ w' = w
      /\ exists m,
           t = ExamGenerationException (mkServiceError INVALID_RESPONSE m) 0)
     \/ (Js.blank topic = false /\ 5 <= questionCount <= 10
         /\ exists m,
              t = ExamGenerationException
                    (mkServiceError MAX_RETRIES_EXCEEDED m) 3))
    /\ commitments w' = commitments w
    /\ exams w' = exams w
    /\ exam_answers w' = exam_answers w
    /\ (llm_calls w' <= llm_calls w + 3)%nat.
Proof.
  intros env topic n w t w' H. split.
  - exact (generateExam_throw_cases env topic n w t w' H).
  - pose proof (stable_generateExam env topic n w) as Hs.
    pose proof (generateExam_calls env topic n w) as Hc.
    rewrite H in Hs, Hc. cbn [snd] in Hs, Hc.
    destruct Hs as (Hs1 & Hs2 & Hs3). repeat split; assumption.
Qed.

Lemma generateExam_throws_only_generation_exceptions_witness :
  let t := ExamGenerationException
             (mkServiceError INVALID_RESPONSE "Topic cannot be empty") 0 in
  let w' := Sample.fresh_world in
  (((Js.blank "   " = true \/ 7 < 5 \/ 10 < 7)
    /\ w' = Sample.fresh_world
    /\ exists m,
         t = ExamGenerationException (mkServiceError INVALID_RESPONSE m) 0)
   \/ (Js.blank "   " = false /\ 5 <= 7 <= 10
       /\ exists m,
            t = ExamGenerationException
                  (mkServiceError MAX_RETRIES_EXCEEDED m) 3))
  /\ commitments w' = commitments Sample.fresh_world
  /\ exams w' = exams Sample.fresh_world
  /\ exam_answers w' = exam_answers Sample.fresh_world
  /\ (llm_calls w' <= llm_calls Sample.fresh_world + 3)%nat.
Proof.
  apply (generateExam_throws_only_generation_exceptions Sample.env_down "   " 7
           Sample.fresh_world).
  vm_compute. reflexivity.
Defined.

(** X23: the key manager rotates the keys round robin.  With keys
    configured and the index inside the list, [n] calls in a row return
    the keys at the index, the index plus one, and so on, starting again
    at the first key after the last; the index stays inside the list,
    the grader's own index is not moved, and nothing else changes. *)
Theorem getNextKey_round_robin :
  forall (env : Env) (n : nat) (w : World),
    api_keys env <> [] ->
    (generatorKeyIndex w < List.length (api_keys env))%nat ->
    exists w',
      draw_keys (getNextKey env) n w
      = (Return (map (fun j => nth (Nat.modulo (generatorKeyIndex w + j)
                                               (List.length (api_keys env)))
                                   (api_keys env) "")
                     (seq 0 n)), w')
      /\ (generatorKeyIndex w' < List.length (api_keys env))%nat
      /\ generatorKeyIndex w'
         = Nat.modulo (generatorKeyIndex w + n) (List.length (api_keys env))
      /\ graderKeyIndex w' = graderKeyIndex w
      /\ commitments w' = commitments w
      /\ exams w' = exams w
      /\ exam_answers w' = exam_answers w
      /\ llm_calls w' = llm_calls w.
Proof.
  intros env n w Hk Hi.
  destruct (draw_keys_round_robin env Hk n w Hi) as (w' & Hrun & Hidx & Hreq & Hg).
  exists w'. split; [exact Hrun|].
  split.
  { rewrite Hidx. apply Nat.mod_upper_bound.
    destruct (api_keys env); [contradiction | discriminate]. }
  split; [exact Hidx|]. split; [exact Hg|].
  destruct Hreq as (((Hc & He & Ha) & _) & Hl). repeat split; assumption.
Qed.

Lemma getNextKey_round_robin_witness :
  exists w',
    draw_keys (getNextKey Sample.env_ok) 5 Sample.fresh_world
    = (Return ["key-a"; "key-b"; "key-a"; "key-b"; "key-a"], w')
    /\ (generatorKeyIndex w' < 2)%nat
    /\ generatorKeyIndex w' = 1%nat
    /\ graderKeyIndex w' = graderKeyIndex Sample.fresh_world
    /\ commitments w' = commitments Sample.fresh_world
    /\ exams w' = exams Sample.fresh_world
    /\ exam_answers w' = exam_answers Sample.fresh_world
    /\ llm_calls w' = llm_calls Sample.fresh_world.
Proof.
  apply (getNextKey_round_robin Sample.env_ok 5 Sample.fresh_world).
  - discriminate.
  - cbn. lia.
Defined.

End GeneratorProperties.

Module UuidFacts.

Import Generator.

Lemma matches_length pattern :
  forall s, matches pattern s = true -> String.length s = List.length pattern.
Proof.
  induction pattern as [|k pattern IH]; intros [|c s] H; simpl in *;
    try discriminate; [reflexivity|].
  apply andb_prop in H. destruct H as [_ H]. f_equal. now apply IH.
Qed.

Lemma matches_get pattern :
  forall s i k,
    matches pattern s = true ->
    nth_error pattern i = Some k ->
    exists c, String.get i s = Some c /\ in_class k c = true.
Proof.
  induction pattern as [|k0 pattern IH]; intros [|c s] i k H Hn; simpl in H;
    try discriminate.
  - destruct i; discriminate.
  - apply andb_prop in H. destruct H as [Hc H].
    destruct i as [|i]; simpl in Hn |- *.
    + inversion Hn; subst. now exists c.
    + eapply IH; eassumption.
Qed.

Lemma dash_class c : in_class dash c = true -> c = "-"%char.
Proof.
  unfold in_class. intros H. apply Nat.eqb_eq in H.
  rewrite <- (ascii_nat_embedding c), H. reflexivity.
Qed.

End UuidFacts.

Section UuidProperties.

Import Generator UuidFacts.

(** X26: an identifier that the generator accepts as a UUID has 36
    characters, with dashes as its 9th, 14th, 19th and 24th, a version
    digit from 1 to 5 after the second dash, and nothing before or after:
    any other identifier coming from the model is replaced. *)
Theorem isValidUUID_shape :
  forall (s : string),
    isValidUUID s = true ->
    String.length s = 36%nat
    /\ String.get 8 s = Some "-"%char
    /\ String.get 13 s = Some "-"%char
    /\ String.get 18 s = Some "-"%char
    /\ String.get 23 s = Some "-"%char
    /\ exists v, String.get 14 s = Some v
                 /\ (49 <= nat_of_ascii v <= 53)%nat.
Proof.
  intros s H. unfold isValidUUID in H.
  split; [exact (matches_length _ _ H)|].
  assert (Hd : forall i, nth_error uuid_pattern i = Some dash ->
                         String.get i s = Some "-"%char).
  { intros i Hi. destruct (matches_get _ _ _ _ H Hi) as (c & Hc & Hk).
    now rewrite Hc, (dash_class c Hk). }
  repeat (split; [apply Hd; reflexivity|]).
  destruct (matches_get _ s 14%nat one_to_five H eq_refl) as (v & Hv & Hk).
  exists v. split; [exact Hv|].
  unfold in_class in Hk. apply andb_prop in Hk. destruct Hk as [H1 H2].
  apply Nat.leb_le in H1, H2. lia.
Qed.

Lemma isValidUUID_shape_witness :
  String.length "3f2504e0-4f89-41d3-9a0c-0305e82c3301" = 36%nat
  /\ String.get 8 "3f2504e0-4f89-41d3-9a0c-0305e82c3301" = Some "-"%char
  /\ String.get 13 "3f2504e0-4f89-41d3-9a0c-0305e82c3301" = Some "-"%char
  /\ String.get 18 "3f2504e0-4f89-41d3-9a0c-0305e82c3301" = Some "-"%char
  /\ String.get 23 "3f2504e0-4f89-41d3-9a0c-0305e82c3301" = Some "-"%char
  /\ exists v, String.get 14 "3f2504e0-4f89-41d3-9a0c-0305e82c3301" = Some v
               /\ (49 <= nat_of_ascii v <= 53)%nat.
Proof.
  apply (isValidUUID_shape "3f2504e0-4f89-41d3-9a0c-0305e82c3301").
  reflexivity.
Defined.

End UuidProperties.
(* ================================================================== *)
(** * Resubmission on the states that runs reach *)
(* ================================================================== *)

Module ReachFacts.

Import SubmitFacts GradeActionFacts GenerateActionFacts ExamActionFacts
       LifecycleFacts.









Section WithEnv.

Variable env : Env.



End WithEnv.


End ReachFacts.

Section Resubmission.

Import SubmitFacts ExamActionFacts ReachFacts.



End Resubmission.
